(** * Box Model Sentinel: the CSS analysis engine and the ASCII visualizer

    A shallow embedding of the parser ([src/engine/parser.js]), of the lint
    engine ([src/engine/lint-engine.js]) and of the ASCII visualizer
    ([src/ascii-visualizer]) together with the properties the specification
    states about them. *)

From Stdlib Require Import Ascii String.
From Stdlib Require Import List NArith ZArith QArith Qround Bool Lia Arith.
From Stdlib Require Import DecimalPos.
Import ListNotations.
Close Scope Q_scope.

Set Implicit Arguments.

(** ** JavaScript strings

    A JavaScript string is a finite sequence of UTF-16 code units;
    [length], [indexOf], [slice], regular expressions without the [u] flag
    and [String.prototype.length] all count code units.  Only
    [for (const ch of text)] walks code points. *)

Module JS.

Local Open Scope N_scope.

Definition jsstring := list N.

(** An ASCII literal of the source, as code units. *)
Definition str (s : string) : jsstring :=
  map N_of_ascii (list_ascii_of_string s).

(** [a === b] *)
Fixpoint eqb (a b : jsstring) : bool :=
  match a, b with
  | [], [] => true
  | x :: a', y :: b' => (x =? y) && eqb a' b'
  | _, _ => false
  end.

Fixpoint startsWith (pat s : jsstring) : bool :=
  match pat, s with
  | [], _ => true
  | p :: pat', c :: s' => N.eqb p c && startsWith pat' s'
  | _ :: _, [] => false
  end.

(** [s.indexOf(pat)] as a split of [s] around the first occurrence. *)
Fixpoint cut (pat s : jsstring) : option (jsstring * jsstring) :=
  if startsWith pat s then Some ([], skipn (length pat) s)
  else match s with
       | [] => None
       | c :: s' =>
           match cut pat s' with
           | Some (b, a) => Some (c :: b, a)
           | None => None
           end
       end.

Definition indexOf (s pat : jsstring) : option nat :=
  match cut pat s with
  | Some (b, _) => Some (length b)
  | None => None
  end.

Definition includes (s pat : jsstring) : bool :=
  match cut pat s with Some _ => true | None => false end.

(** [s.replace(pat, '')] with a string pattern: the first occurrence goes. *)
Definition removeFirst (s pat : jsstring) : jsstring :=
  match cut pat s with
  | Some (b, a) => b ++ a
  | None => s
  end.

(** [s.slice(a, b)] for indices [0 <= a] and [0 <= b]. *)
Definition slice (s : jsstring) (a b : nat) : jsstring :=
  firstn (b - a)%nat (skipn a s).

(** White space and line terminators: what [trim] strips and [\s] matches. *)
Definition isSpace (c : N) : bool :=
  ((9 <=? c) && (c <=? 13)) || (c =? 32) || (c =? 160) || (c =? 5760)
  || ((8192 <=? c) && (c <=? 8202)) || (c =? 8232) || (c =? 8233)
  || (c =? 8239) || (c =? 8287) || (c =? 12288) || (c =? 65279).

Fixpoint trimStart (s : jsstring) : jsstring :=
  match s with
  | c :: s' => if isSpace c then trimStart s' else s
  | [] => []
  end.

Definition trimEnd (s : jsstring) : jsstring := rev (trimStart (rev s)).

Definition trim (s : jsstring) : jsstring := trimEnd (trimStart s).

(** [s.split(sep)] for a one-unit separator. *)
Fixpoint split (sep : N) (s : jsstring) : list jsstring :=
  match s with
  | [] => [[]]
  | c :: s' =>
      if c =? sep then [] :: split sep s'
      else match split sep s' with
           | piece :: more => (c :: piece) :: more
           | [] => [[c]]
           end
  end.

Fixpoint join (sep : jsstring) (parts : list jsstring) : jsstring :=
  match parts with
  | [] => []
  | [p] => p
  | p :: more => p ++ sep ++ join sep more
  end.

Definition isDigit (c : N) : bool := (48 <=? c) && (c <=? 57).

Definition isUpper (c : N) : bool := (65 <=? c) && (c <=? 90).

Definition isLower (c : N) : bool := (97 <=? c) && (c <=? 122).

(** [\w] of a regular expression without the [u] flag. *)
Definition isWord (c : N) : bool :=
  isDigit c || isUpper c || isLower c || (c =? 95).

Definition lowerUnit (c : N) : N := if isUpper c then c + 32 else c.

(** Equality of two code units under the [i] flag when the pattern unit is
    an ASCII one: a unit above 127 never folds onto an ASCII unit. *)
Definition eqbCI (p c : N) : bool := lowerUnit p =? lowerUnit c.

Fixpoint startsWithCI (pat s : jsstring) : bool :=
  match pat, s with
  | [], _ => true
  | p :: pat', c :: s' => eqbCI p c && startsWithCI pat' s'
  | _ :: _, [] => false
  end.

(** [/pat/i.test(s)] for a literal ASCII pattern. *)
Fixpoint testCI (pat s : jsstring) : bool :=
  startsWithCI pat s ||
  match s with
  | [] => false
  | _ :: s' => testCI pat s'
  end.

(** Truthiness of a string: the empty string is falsy. *)
Definition truthy (s : jsstring) : bool :=
  match s with [] => false | _ => true end.

(** A property read [o[k]] that may be [undefined], used as a condition. *)
Definition truthyOpt (o : option jsstring) : bool :=
  match o with Some s => truthy s | None => false end.

End JS.

Import JS.

(** ** Plain objects used as string-keyed maps

    [{}] with [o[k] = v] and [Object.keys(o)]: own properties in creation
    order, except that array-index keys are listed first, in ascending
    numeric order.  The names every object inherits from
    [Object.prototype] are kept apart: reading one of them through [o[k]]
    yields the inherited function, not [undefined]. *)

Module Obj.

Section Obj.

Variable V : Type.

Definition t := list (jsstring * V).

Fixpoint get (o : t) (k : jsstring) : option V :=
  match o with
  | [] => None
  | (k', v) :: o' => if JS.eqb k k' then Some v else get o' k
  end.

Fixpoint set (o : t) (k : jsstring) (v : V) : t :=
  match o with
  | [] => [(k, v)]
  | (k', v') :: o' =>
      if JS.eqb k k' then (k, v) :: o' else (k', v') :: set o' k v
  end.

Definition has (o : t) (k : jsstring) : bool :=
  match get o k with Some _ => true | None => false end.

(** The decimal value of a string of digits. *)
Definition decimal (ds : jsstring) : N :=
  fold_left (fun acc d => (10 * acc + (d - 48))%N) ds 0%N.

(** A canonical array index: ["0"], or digits without a leading zero whose
    value is at most [2^32 - 2]. *)
Definition isArrayIndex (k : jsstring) : bool :=
  match k with
  | [] => false
  | [d] => isDigit d
  | d :: _ =>
      forallb isDigit k && negb (d =? 48)%N
      && (length k <=? 10)%nat && (decimal k <=? 4294967294)%N
  end.

Fixpoint insertIndex (k : jsstring) (ks : list jsstring) : list jsstring :=
  match ks with
  | [] => [k]
  | k' :: ks' =>
      if (decimal k <=? decimal k')%N then k :: ks
      else k' :: insertIndex k ks'
  end.

Definition sortIndices (ks : list jsstring) : list jsstring :=
  fold_right insertIndex [] ks.

(** [Object.keys(o)] *)
Definition keys (o : t) : list jsstring :=
  let ks := map fst o in
  sortIndices (filter isArrayIndex ks)
  ++ filter (fun k => negb (isArrayIndex k)) ks.

End Obj.

(** The property names found on [Object.prototype]. *)
Definition inherited (k : jsstring) : bool :=
  existsb (JS.eqb k)
    (map str
       ["constructor"; "__defineGetter__"; "__defineSetter__";
        "hasOwnProperty"; "__lookupGetter__"; "__lookupSetter__";
        "isPrototypeOf"; "propertyIsEnumerable"; "toString"; "valueOf";
        "__proto__"; "toLocaleString"]%string).

(** [o[k] = v] for a string [v]: the [__proto__] setter ignores a value
    that is neither an object nor [null], so no own property appears. *)
Definition assign (o : t jsstring) (k v : jsstring) : t jsstring :=
  if JS.eqb k (str "__proto__") then o else set o k v.

End Obj.

(** ** Results of code that may throw *)

Inductive result (A : Type) : Type :=
| Ok (a : A)
| Throw (error : jsstring).

Arguments Ok {A} a.
Arguments Throw {A} error.

Definition bind {A B : Type} (r : result A) (k : A -> result B) : result B :=
  match r with
  | Ok a => k a
  | Throw e => Throw e
  end.

Notation "x <- r ;; k" := (bind r (fun x => k))
  (at level 61, r at next level, right associativity).

(** ** The CSS parser ([src/engine/parser.js]) *)

Module Parser.

Record AtRule : Type := mkAt { type : jsstring; condition : jsstring }.

Record Rule : Type := mkRule {
  selector : jsstring;
  declarations : Obj.t jsstring;
  at_ : option AtRule
}.

Record MediaBlock : Type := mkMedia {
  full : jsstring;
  mcondition : jsstring;
  body : jsstring
}.

Record Parsed : Type := mkParsed { rules : list Rule }.

(** [s.replace(/\/\*[\s\S]*?\*\//g, '')]: a comment opens at ["/*"] when a
    ["*/"] follows the two units, and closes at the first such ["*/"]. *)
Fixpoint strip (inComment : bool) (s : jsstring) : jsstring :=
  match s with
  | [] => []
  | c :: t =>
      if inComment then
        match t with
        | d :: t' =>
            if (c =? 42)%N && (d =? 47)%N then strip false t'
            else strip true t
        | [] => []
        end
      else
        match t with
        | d :: t' =>
            if (c =? 47)%N && (d =? 42)%N && includes t' (str "*/")
            then strip true t'
            else c :: strip false t
        | [] => [c]
        end
  end.

Definition stripComments (s : jsstring) : jsstring := strip false s.

(** The inner [while (j < s.length && depth > 0)] of [parseRules], run on
    the text after the opening brace: the units consumed up to [j] and the
    text from [j] on. *)
Fixpoint scanBlock (depth : nat) (t : jsstring) : jsstring * jsstring :=
  match depth with
  | O => ([], t)
  | S d =>
      match t with
      | [] => ([], [])
      | ch :: t' =>
          let depth' :=
            if (ch =? 123)%N then S depth
            else if (ch =? 125)%N then d else depth in
          let (consumed, rest) := scanBlock depth' t' in
          (ch :: consumed, rest)
      end
  end.

(** The outer [while (i < s.length)] on the text from [i] on.  [full] is
    [s.slice(idx, j)], [body] is [s.slice(braceOpen + 1, j - 1)]: the
    consumed units without the last one. *)
Fixpoint mediaLoop (fuel : nat) (t : jsstring) : option (list MediaBlock) :=
  match fuel with
  | O => None
  | S fuel' =>
      match t with
      | [] => Some []
      | _ :: _ =>
          match cut (str "@media") t with
          | None => Some []
          | Some (_, afterHead) =>
              match cut (str "{") afterHead with
              | None => Some []
              | Some (head, afterBrace) =>
                  let cond := trim head in
                  let (consumed, rest) := scanBlock 1 afterBrace in
                  let mb :=
                    mkMedia (str "@media" ++ head ++ str "{" ++ consumed)
                      cond (removelast consumed) in
                  match mediaLoop fuel' rest with
                  | Some more => Some (mb :: more)
                  | None => None
                  end
              end
          end
      end
  end.

(** The longest prefix whose units satisfy [p], and what follows it. *)
Fixpoint span (p : N -> bool) (s : jsstring) : jsstring * jsstring :=
  match s with
  | c :: s' =>
      if p c then let (a, b) := span p s' in (c :: a, b) else ([], s)
  | [] => ([], [])
  end.

Definition notOpen (c : N) : bool := negb (c =? 123)%N.

Definition notClose (c : N) : bool := negb (c =? 125)%N.

Definition isOpen (c : N) : bool := (c =? 123)%N.

(** [ruleRegex] tried at one start position that is not on ["{"].  The
    regex asks for one or more units other than ["{"], then ["{"], then
    any number of units other than ["}"], then ["}"]: the selector group
    runs to the next ["{"] and the body group to the next ["}"] after it.
    The result holds the two groups and the text after the match. *)
Definition ruleAt (t1 : jsstring) : option (jsstring * jsstring * jsstring) :=
  let (sel, t2) := span notOpen t1 in
  match sel, t2 with
  | _ :: _, _ :: t3 =>
      let (decl, t4) := span notClose t3 in
      match t4 with
      | _ :: t5 => Some (sel, decl, t5)
      | [] => None
      end
  | _, _ => None
  end.

(** One [exec] of [ruleRegex] on the text from [lastIndex] on.  A start
    position on ["{"] cannot match, and when the first other position
    fails, so does every later one. *)
Definition ruleExec (t : jsstring)
  : option (jsstring * jsstring * jsstring) :=
  ruleAt (snd (span isOpen t)).

Section Parser.

Variable toLowerCase : jsstring -> jsstring.

Definition declStep (obj : Obj.t jsstring) (line : jsstring)
  : Obj.t jsstring :=
  let line := trim line in
  if negb (truthy line) then obj
  else match indexOf line (str ":") with
       | None => obj
       | Some i =>
           let k := toLowerCase (trim (slice line 0 i)) in
           let v := trim (skipn (i + 1) line) in
           Obj.assign obj k v
       end.

Definition parseDeclarations (block : jsstring) : Obj.t jsstring :=
  fold_left declStep (split 59 block) [].

(** [while ((r = ruleRegex.exec(text)) != null)] *)
Fixpoint rulesLoop (fuel : nat) (at0 : option AtRule) (t : jsstring)
  : option (list Rule) :=
  match fuel with
  | O => None
  | S fuel' =>
      match ruleExec t with
      | None => Some []
      | Some (sel, decl, t') =>
          match rulesLoop fuel' at0 t' with
          | Some more =>
              Some (mkRule (trim sel) (parseDeclarations decl) at0 :: more)
          | None => None
          end
      end
  end.

Fixpoint innerRules (blocks : list MediaBlock) : option (list Rule) :=
  match blocks with
  | [] => Some []
  | mb :: blocks' =>
      match rulesLoop (S (length (body mb)))
              (Some (mkAt (str "media") (mcondition mb))) (body mb),
            innerRules blocks' with
      | Some rs, Some more => Some (rs ++ more)
      | _, _ => None
      end
  end.

Definition baseText (s : jsstring) (blocks : list MediaBlock) : jsstring :=
  fold_left (fun rest mb => removeFirst rest (full mb)) blocks s.

(** [parseRules] with the loop bounds made explicit; [None] stands for a
    loop that has not finished within its bound. *)
Definition parseRulesWithin (raw : jsstring) : option Parsed :=
  let s := stripComments raw in
  match mediaLoop (S (length s)) s with
  | None => None
  | Some mediaBlocks =>
      let rest := baseText s mediaBlocks in
      match rulesLoop (S (length rest)) None rest,
            innerRules mediaBlocks with
      | Some base, Some inner => Some (mkParsed (base ++ inner))
      | _, _ => None
      end
  end.

Definition parseRules (raw : jsstring) : Parsed :=
  match parseRulesWithin raw with
  | Some parsed => parsed
  | None => mkParsed []
  end.

End Parser.

End Parser.

(** ** Numbers

    A JavaScript number is a finite double, an infinity or [NaN].  Finite
    values are carried as rationals; [ofRational] rounds a non-negative
    rational to the nearest double, ties to even, as reading a decimal
    literal does. *)

Module Num.

Inductive number : Type :=
| Finite (q : Q)
| PosInf
| NegInf
| NaN.

Definition isFinite (n : number) : bool :=
  match n with Finite _ => true | _ => false end.

Definition gtQ (a b : Q) : bool := negb (Qle_bool a b).

(** [a > b] *)
Definition gt (a b : number) : bool :=
  match a, b with
  | Finite x, Finite y => gtQ x y
  | PosInf, Finite _ => true
  | PosInf, NegInf => true
  | Finite _, NegInf => true
  | _, _ => false
  end.

Definition ofZ (z : Z) : number := Finite (inject_Z z).

(** [floor (log2 (p / d))] for [0 < p] and [0 < d]. *)
Definition floorLog2 (p d : N) : Z :=
  let e0 := (Z.of_N (N.log2 p) - Z.of_N (N.log2 d))%Z in
  let reaches :=
    if (0 <=? e0)%Z then (N.shiftl d (Z.to_N e0) <=? p)%N
    else (d <=? N.shiftl p (Z.to_N (- e0)))%N in
  if reaches then e0 else (e0 - 1)%Z.

Definition ofRational (p d : N) : number :=
  if ((p =? 0) || (d =? 0))%N then Finite 0
  else
    let e := floorLog2 p d in
    let sh := Z.max (e - 52) (-1074) in
    let num := if (0 <=? sh)%Z then p else N.shiftl p (Z.to_N (- sh)) in
    let den := if (0 <=? sh)%Z then N.shiftl d (Z.to_N sh) else d in
    let m := (num / den)%N in
    let r := (num mod den)%N in
    let up := ((den <? 2 * r) || ((2 * r =? den) && N.odd m))%N in
    let m' := if up then (m + 1)%N else m in
    if (0 <=? sh)%Z then
      let v := N.shiftl m' (Z.to_N sh) in
      if (N.shiftl 1 1024 <=? v)%N then PosInf
      else Finite (inject_Z (Z.of_N v))
    else
      Finite (Qred (Qmake (Z.of_N m') (Pos.shiftl 1 (Z.to_N (- sh))))).

(** The double nearest to a non-negative rational. *)
Definition roundQ (q : Q) : number :=
  ofRational (Z.to_N (Qnum q)) (Npos (Qden q)).

(** [parseInt(ds, 10)] for a non-empty string of digits. *)
Definition parseInt (ds : jsstring) : number :=
  ofRational (Obj.decimal ds) 1.

(** [parseFloat] of digits with an optional fraction. *)
Definition parseFloat (ds : jsstring) (frac : option jsstring) : number :=
  match frac with
  | None => ofRational (Obj.decimal ds) 1
  | Some fs =>
      ofRational (Obj.decimal (ds ++ fs)) (10 ^ N.of_nat (length fs))
  end.

End Num.

(** ** The regular expressions of the lint engine

    Each pattern is matched the way the backtracking matcher does it: start
    positions from left to right and, at one position, greedy quantifiers.
    For these patterns a run of digits or of white space can only be taken
    whole, since the unit that has to follow is neither a digit nor white
    space. *)

Module Re.

Definition isP (c : N) : bool := eqbCI 112 c.

Definition isX (c : N) : bool := eqbCI 120 c.

(** [px] at the head of [s], under the [i] flag or not. *)
Definition px (ci : bool) (s : jsstring) : option jsstring :=
  match s with
  | p :: x :: s' =>
      if ci then if isP p && isX x then Some s' else None
      else if (p =? 112)%N && (x =? 120)%N then Some s' else None
  | _ => None
  end.

(** A word boundary between the unit before the position and [s]. *)
Definition boundary (prevWord : bool) (s : jsstring) : bool :=
  xorb prevWord (match s with c :: _ => isWord c | [] => false end).

(** [\d+] at the head of [s]. *)
Definition digits (s : jsstring) : option (jsstring * jsstring) :=
  match Parser.span isDigit s with
  | ((_ :: _) as ds, s') => Some (ds, s')
  | _ => None
  end.

(** [(?:\.\d+)?] at the head of [s], followed by what [k] matches. *)
Definition fraction {A : Type} (s : jsstring)
  (k : option jsstring -> jsstring -> option A) : option A :=
  match s with
  | 46%N :: s' =>
      match digits s' with
      | Some (fs, s'') =>
          match k (Some fs) s'' with
          | Some a => Some a
          | None => k None s
          end
      | None => k None s
      end
  | _ => k None s
  end.

(** The leftmost position of [s] at which [here] matches; [here] is given
    whether the unit before the position is a word unit. *)
Fixpoint leftmost {A : Type} (here : bool -> jsstring -> option A)
  (prevWord : bool) (s : jsstring) : option A :=
  match here prevWord s with
  | Some a => Some a
  | None =>
      match s with
      | [] => None
      | c :: s' => leftmost here (isWord c) s'
      end
  end.

Definition isSome {A : Type} (o : option A) : bool :=
  match o with Some _ => true | None => false end.

(** [\b\d+px\b] *)
Definition pxTokenHere (ci : bool) (prevWord : bool) (s : jsstring)
  : option unit :=
  if boundary prevWord s then
    match digits s with
    | Some (_, s1) =>
        match px ci s1 with
        | Some s2 => if boundary true s2 then Some tt else None
        | None => None
        end
    | None => None
    end
  else None.

(** [/\b\d+px\b/i.test(v)], and without the [i] flag for [ci = false]. *)
Definition pxToken (ci : bool) (v : jsstring) : bool :=
  isSome (leftmost (pxTokenHere ci) false v).

(** [(\d+(?:\.\d+)?)px]: the groups and the text after the match. *)
Definition pxNumberHere (_ : bool) (s : jsstring)
  : option (jsstring * option jsstring * jsstring) :=
  match digits s with
  | Some (ds, s1) =>
      fraction s1 (fun fs s2 =>
        match px true s2 with
        | Some s3 => Some (ds, fs, s3)
        | None => None
        end)
  | None => None
  end.

(** [/(\d+(?:\.\d+)?)px/i.exec(v)] followed by [parseFloat(m[1])], [NaN]
    without a match. *)
Definition pxNumber (v : jsstring) : Num.number :=
  match leftmost pxNumberHere false v with
  | Some (ds, fs, _) => Num.parseFloat ds fs
  | None => Num.NaN
  end.

(** The loop over [/(\d+(?:\.\d+)?)px/ig]: every match in turn, the next
    search starting where the last match ended ([skip] counts the units of
    a match still to pass). *)
Fixpoint pxNumbersFrom (skip : nat) (s : jsstring) : list Num.number :=
  match s with
  | [] => []
  | _ :: s' =>
      match skip with
      | S k => pxNumbersFrom k s'
      | O =>
          match pxNumberHere false s with
          | Some (ds, fs, rest) =>
              Num.parseFloat ds fs
                :: pxNumbersFrom (length s - length rest - 1) s'
          | None => pxNumbersFrom 0 s'
          end
      end
  end.

(** [(\d+)\s*px] with the [i] flag: group 1. *)
Definition spacedPxHere (_ : bool) (s : jsstring) : option jsstring :=
  match digits s with
  | Some (ds, s1) =>
      match px true (trimStart s1) with
      | Some _ => Some ds
      | None => None
      end
  | None => None
  end.

Definition spacedPx (v : jsstring) : option jsstring :=
  leftmost spacedPxHere false v.

(** [(\d+)px] with the [i] flag: group 1. *)
Definition intPxHere (_ : bool) (s : jsstring) : option jsstring :=
  match digits s with
  | Some (ds, s1) =>
      match px true s1 with
      | Some _ => Some ds
      | None => None
      end
  | None => None
  end.

Definition intPx (v : jsstring) : option jsstring :=
  leftmost intPxHere false v.

(** [\b100vw\b] with the [i] flag. *)
Definition vw100Here (prevWord : bool) (s : jsstring) : option unit :=
  if boundary prevWord s && startsWithCI (str "100vw") s
     && boundary true (skipn 5 s)
  then Some tt else None.

Definition vw100 (v : jsstring) : bool :=
  isSome (leftmost vw100Here false v).

(** [\s+] at the head of [s]. *)
Definition spaces (s : jsstring) : option jsstring :=
  match s with
  | c :: _ => if isSpace c then Some (trimStart s) else None
  | [] => None
  end.

(** [\b0\s+0\s+] at the head of [s]. *)
Definition zeroZero (prevWord : bool) (s : jsstring) : option jsstring :=
  if boundary prevWord s then
    match s with
    | 48%N :: s1 =>
        match spaces s1 with
        | Some (48%N :: s2) => spaces s2
        | _ => None
        end
    | _ => None
    end
  else None.

(** [\b0\s+0\s+\d+px\b] with the [i] flag. *)
Definition flexRigidHere (prevWord : bool) (s : jsstring) : option unit :=
  match zeroZero prevWord s with
  | Some s1 =>
      match digits s1 with
      | Some (_, s2) =>
          match px true s2 with
          | Some s3 => if boundary true s3 then Some tt else None
          | None => None
          end
      | None => None
      end
  | None => None
  end.

Definition flexRigid (v : jsstring) : bool :=
  isSome (leftmost flexRigidHere false v).

(** [\b0\s+0\s+(\d+(?:\.\d+)?)px\b] with the [i] flag: group 1. *)
Definition flexBasisHere (prevWord : bool) (s : jsstring)
  : option (jsstring * option jsstring) :=
  match zeroZero prevWord s with
  | Some s1 =>
      match digits s1 with
      | Some (ds, s2) =>
          fraction s2 (fun fs s3 =>
            match px true s3 with
            | Some s4 => if boundary true s4 then Some (ds, fs) else None
            | None => None
            end)
      | None => None
      end
  | None => None
  end.

Definition flexBasis (v : jsstring) : option (jsstring * option jsstring) :=
  leftmost flexBasisHere false v.

(** A literal alternative matched over the whole string, [i] flag. *)
Definition equalsCI (pat s : jsstring) : bool :=
  (length pat =? length s)%nat && startsWithCI pat s.

(** The leftmost match together with its start index. *)
Fixpoint leftmostAt {A : Type} (here : bool -> jsstring -> option A)
  (prevWord : bool) (s : jsstring) : option (nat * A) :=
  match here prevWord s with
  | Some a => Some (O, a)
  | None =>
      match s with
      | [] => None
      | c :: s' =>
          match leftmostAt here (isWord c) s' with
          | Some (i, a) => Some (S i, a)
          | None => None
          end
      end
  end.

(** The text of a match that starts at index [i] of [s] and leaves [rest]. *)
Definition matched (s : jsstring) (i : nat) (rest : jsstring) : jsstring :=
  slice s i (length s - length rest).

(** [\d+(\.\d+)?\s*px] with the [i] flag: the text after the match. *)
Definition unitHere (_ : bool) (s : jsstring) : option jsstring :=
  match digits s with
  | Some (_, s1) => fraction s1 (fun _ s2 => px true (trimStart s2))
  | None => None
  end.

(** [\b\d+(\.\d+)?\s*px\b] with the [i] flag. *)
Definition boundedUnitHere (prevWord : bool) (s : jsstring)
  : option jsstring :=
  if boundary prevWord s then
    match digits s with
    | Some (_, s1) =>
        fraction s1 (fun _ s2 =>
          match px true (trimStart s2) with
          | Some s3 => if boundary true s3 then Some s3 else None
          | None => None
          end)
    | None => None
    end
  else None.

(** [name\s*(\d+(\.\d+)?)px] with the [i] flag, [name] being ["width:"] or
    ["height:"]. *)
Definition namedPxHere (name : jsstring) (_ : bool) (s : jsstring)
  : option jsstring :=
  if startsWithCI name s then
    match digits (trimStart (skipn (length name) s)) with
    | Some (_, s1) => fraction s1 (fun _ s2 => px true s2)
    | None => None
    end
  else None.

(** [s.match(re)[0]] for a regex given by its matcher at one position. *)
Definition match0 (here : bool -> jsstring -> option jsstring)
  (s : jsstring) : option jsstring :=
  match leftmostAt here false s with
  | Some (i, rest) => Some (matched s i rest)
  | None => None
  end.

(** After [property\s*:] comes [\s*[^;]*] and a bounded unit: the greedy
    class gives way from its longest run, so the unit found is the last
    one that starts within the run of units other than [";"]. *)
Fixpoint lastUnit (prevWord : bool) (s : jsstring) : option jsstring :=
  match s with
  | [] => None
  | c :: s' =>
      match (if (c =? 59)%N then None else lastUnit (isWord c) s') with
      | Some rest => Some rest
      | None => boundedUnitHere prevWord s
      end
  end.

(** The regex built from [issue.property] as
    [property\s*:\s*[^;]*\b\d+(?:\.\d+)?\s*px\b] with the [i] flag, for a
    property that is an identifier: ASCII letters, digits, ["_"] and
    ["-"], which stand for themselves in a regular expression.  The
    detectors set ['width'], ['height'] or no property.  Any other text
    would be read as a pattern, which this function does not do. *)
Definition propertyHere (prop : jsstring) (_ : bool) (s : jsstring)
  : option jsstring :=
  if startsWithCI prop s then
    match trimStart (skipn (length prop) s) with
    | 58%N :: s1 => lastUnit false s1
    | _ => None
    end
  else None.

End Re.

(** ** The ASCII visualizer ([src/ascii-visualizer]) *)

(** The issue handed to the visualizer.  A field that is absent
    ([undefined]) is [None]; [line] is [Some] exactly when
    [typeof issue.line === 'number'], and line numbers are integers, as
    the line numbers of the engine are. *)
Module Viz.

Record Issue : Type := mkIssue {
  type : option jsstring;
  severity : option jsstring;
  line : option Z;
  selector : option jsstring;
  property : option jsstring;
  value : option jsstring;
  suggestion : option jsstring;
  category : option jsstring
}.

(** [generationTime] is wall-clock time and is left out. *)
Record Visualization : Type := mkVisualization {
  ascii : jsstring;
  width : nat;
  height : nat
}.

(** A value inside a template literal. *)
Definition show (o : option jsstring) : jsstring :=
  match o with Some s => s | None => str "undefined" end.

Fixpoint unitsOfUint (u : Decimal.uint) : jsstring :=
  match u with
  | Decimal.Nil => []
  | Decimal.D0 u' => 48%N :: unitsOfUint u'
  | Decimal.D1 u' => 49%N :: unitsOfUint u'
  | Decimal.D2 u' => 50%N :: unitsOfUint u'
  | Decimal.D3 u' => 51%N :: unitsOfUint u'
  | Decimal.D4 u' => 52%N :: unitsOfUint u'
  | Decimal.D5 u' => 53%N :: unitsOfUint u'
  | Decimal.D6 u' => 54%N :: unitsOfUint u'
  | Decimal.D7 u' => 55%N :: unitsOfUint u'
  | Decimal.D8 u' => 56%N :: unitsOfUint u'
  | Decimal.D9 u' => 57%N :: unitsOfUint u'
  end.

(** [String(n)] for an integer [n] of magnitude at most [2^53]: such an
    integer is a number of JavaScript and is printed in all its decimal
    digits.  A larger number is printed from its shortest digits, with
    zeros or an exponent after them, which this function does not do. *)
Definition showInt (z : Z) : jsstring :=
  match z with
  | Zneg p => 45%N :: unitsOfUint (Pos.to_uint p)
  | _ => unitsOfUint (N.to_uint (Z.to_N z))
  end.

Definition showLine (l : option Z) : jsstring :=
  match l with Some z => showInt z | None => str "undefined" end.

End Viz.

(** [core/character-palette.js], by code unit. *)
Module CHARS.
Definition SOLID : N := 9608.
Definition MEDIUM : N := 9619.
Definition LIGHT : N := 9617.
Definition H_LINE : N := 9472.
Definition V_LINE : N := 9474.
Definition TOP_LEFT : N := 9484.
Definition TOP_RIGHT : N := 9488.
Definition BOTTOM_LEFT : N := 9492.
Definition BOTTOM_RIGHT : N := 9496.
Definition DOWN : N := 9660.
Definition RIGHT : N := 9658.
Definition LEFT : N := 9668.
Definition ELLIPSIS : N := 8230.
Definition SPACE : N := 32.
Definition DOT : N := 8226.
End CHARS.

Module EMOJI.
Definition CRITICAL : N := 10006.
Definition MEDIUM : N := 9888.
Definition LOW : N := 9432.
Definition PROBLEM : N := 10006.
Definition SOLUTION : N := 10003.
Definition ARROW : N := 8594.
End EMOJI.

(** [utils/text-formatter.js] *)
Module TextFormatter.

Inductive Align : Type := left | center | right.

(** [isEmoji] on a code point. *)
Definition isEmoji (codePoint : N) : bool :=
  ((127744 <=? codePoint) && (codePoint <=? 129535))%N
  || ((9728 <=? codePoint) && (codePoint <=? 9983))%N
  || ((9984 <=? codePoint) && (codePoint <=? 10175))%N
  || (codePoint =? 8505)%N
  || ((8596 <=? codePoint) && (codePoint <=? 8618))%N.

(** [visualLength] walks code units: [text[i]] is one unit, so the code
    point [isEmoji] sees is that unit. *)
Fixpoint visualLength (text : jsstring) : nat :=
  match text with
  | [] => 0
  | c :: rest =>
      if isEmoji c then
        match rest with
        | d :: rest' =>
            if (d =? 65039)%N then 2 + visualLength rest'
            else 2 + visualLength rest
        | [] => 2
        end
      else 1 + visualLength rest
  end.

Definition isHigh (c : N) : bool := ((55296 <=? c) && (c <=? 56319))%N.

Definition isLow (c : N) : bool := ((56320 <=? c) && (c <=? 57343))%N.

(** [for (const char of text)]: the text by code point, a surrogate pair
    being one [char]. *)
Fixpoint chars (text : jsstring) : list jsstring :=
  match text with
  | [] => []
  | c :: rest =>
      match rest with
      | d :: rest' =>
          if isHigh c && isLow d then [c; d] :: chars rest'
          else [c] :: chars rest
      | [] => [[c]]
      end
  end.

(** [char.codePointAt(0)] *)
Definition codePointAt0 (char : jsstring) : N :=
  match char with
  | [c; d] =>
      if isHigh c && isLow d
      then (65536 + (c - 55296) * 1024 + (d - 56320))%N
      else c
  | c :: _ => c
  | [] => 0%N
  end.

(** The loop of [truncate]: [result] once the next [char] no longer fits. *)
Fixpoint take (targetLength currentLength : nat) (cs : list jsstring)
  : jsstring :=
  match cs with
  | [] => []
  | char :: cs' =>
      let charLength := if isEmoji (codePointAt0 char) then 2 else 1 in
      if (targetLength <? currentLength + charLength)%nat then []
      else char ++ take targetLength (currentLength + charLength) cs'
  end.

Definition truncate (text : jsstring) (maxLength : nat) : jsstring :=
  if (visualLength text <=? maxLength)%nat then text
  else take (maxLength - 1) 0 (chars text) ++ [CHARS.ELLIPSIS].

Definition spaces (n : nat) : jsstring := repeat 32%N n.

Definition pad (text : jsstring) (width : nat) (align : Align) : jsstring :=
  let textLength := visualLength text in
  if (width <=? textLength)%nat then truncate text width
  else
    let padding := width - textLength in
    match align with
    | center =>
        let leftPad := Nat.div padding 2 in
        let rightPad := padding - leftPad in
        spaces leftPad ++ text ++ spaces rightPad
    | right => spaces padding ++ text
    | left => text ++ spaces padding
    end.

End TextFormatter.

(** [utils/layout-calculator.js] *)
Module LayoutCalculator.

(** [^(\d+(?:\.\d+)?)unit$], without the [i] flag. *)
Definition numberWith (unit0 : jsstring) (v : jsstring)
  : option (jsstring * option jsstring) :=
  match Re.digits v with
  | Some (ds, s1) =>
      Re.fraction s1 (fun fs s2 =>
        if JS.eqb s2 unit0 then Some (ds, fs) else None)
  | None => None
  end.

(** [x / 100 * k], each operation rounded to the nearest double. *)
Definition percentOf (x : Num.number) (k : Q) : Num.number :=
  match x with
  | Num.Finite q =>
      match Num.roundQ (q / 100) with
      | Num.Finite h => Num.roundQ (h * k)
      | other => other
      end
  | other => other
  end.

(** [parseValue]; [None] is [null]. *)
Definition parseValue (value : option jsstring) : option Num.number :=
  match value with
  | None => None
  | Some v =>
      if negb (truthy v) then None
      else
        match numberWith (str "px") v with
        | Some (ds, fs) => Some (Num.parseFloat ds fs)
        | None =>
            match numberWith (str "vw") v with
            | Some (ds, fs) => Some (percentOf (Num.parseFloat ds fs) 1920)
            | None =>
                match numberWith (str "%") v with
                | Some (ds, fs) =>
                    Some (percentOf (Num.parseFloat ds fs) 1200)
                | None => None
                end
            end
        end
  end.

(** [parseValue(v) || d]: [null] and [0] give way to the default. *)
Definition parseValueOr (value : option jsstring) (d : Q) : Num.number :=
  match parseValue value with
  | Some (Num.Finite q) => if Qeq_bool q 0 then Num.Finite d else Num.Finite q
  | Some Num.NaN => Num.Finite d
  | Some other => other
  | None => Num.Finite d
  end.

(** [Math.floor(x / scale)] for [x >= 0], kept as a count of units with
    [None] for an infinite one. *)
Definition floorDiv (x : Num.number) (scale : Q) : option nat :=
  match x with
  | Num.Finite q =>
      match Num.roundQ (q / scale) with
      | Num.Finite h => Some (Z.to_nat (Qfloor h))
      | _ => None
      end
  | _ => None
  end.

(** [Math.floor(x / scale)] for the constants of the generators, whose
    quotients are exact. *)
Definition floorDivQ (x scale : Q) : nat := Z.to_nat (Qfloor (x / scale)).

(** [Math.min(n, k)] for such a count. *)
Definition minCount (n : option nat) (k : nat) : nat :=
  match n with Some m => Nat.min m k | None => k end.

(** [n > k] *)
Definition exceeds (n : option nat) (k : nat) : bool :=
  match n with Some m => (k <? m)%nat | None => true end.

(** [Math.min(n - k, cap)] when [n > k]. *)
Definition excess (n : option nat) (k cap : nat) : nat :=
  match n with Some m => Nat.min (m - k) cap | None => cap end.

End LayoutCalculator.

(** [generators/base-generator.js] *)
Module BaseGenerator.

Import TextFormatter.

Definition maxWidth : nat := 60.

Definition maxHeight : nat := 20.

Record HeaderData : Type := mkHeader {
  htype : jsstring;
  hseverity : option jsstring;
  severityEmoji : N;
  hlineNo : option Z
}.

Record LayoutData : Type := mkLayout {
  label : jsstring;
  statusEmoji : N;
  content : list jsstring;
  measurements : jsstring
}.

Definition upperUnit (c : N) : N := if isLower c then (c - 32)%N else c.

(** [toUpperCase] on the display labels, which are ASCII. *)
Definition toUpperCase (s : jsstring) : jsstring := map upperUnit s.

Definition pad (text : jsstring) (width : nat) : jsstring :=
  TextFormatter.pad text width left.

Definition hrule (n : nat) : jsstring := repeat CHARS.H_LINE n.

Definition renderHeader (data : HeaderData) : list jsstring :=
  let title :=
    toUpperCase (htype data) ++ str " " ++ [CHARS.DOT] ++ str " "
    ++ [severityEmoji data] ++ str " " ++ [CHARS.DOT] ++ str " L"
    ++ Viz.showLine (hlineNo data) in
  let padding := maxWidth - 2 in
  [ [CHARS.TOP_LEFT] ++ hrule padding ++ [CHARS.TOP_RIGHT];
    [CHARS.V_LINE] ++ pad title padding ++ [CHARS.V_LINE];
    [CHARS.V_LINE] ++ hrule padding ++ [CHARS.V_LINE] ].

(** The [for] loop of [renderComparison] over [i < maxLines]. *)
Definition contentLine (halfWidth : nat) (before after : LayoutData)
  (i : nat) : jsstring :=
  let beforeLine := pad (nth i (content before) []) halfWidth in
  let afterLine := pad (nth i (content after) []) (halfWidth - 1) in
  let fullLine := beforeLine ++ str " " ++ afterLine in
  let paddedLine := pad fullLine (maxWidth - 2) in
  [CHARS.V_LINE] ++ paddedLine ++ [CHARS.V_LINE].

Definition renderComparison (before after : LayoutData) : list jsstring :=
  let halfWidth := Nat.div (maxWidth - 2) 2 in
  let labelLine :=
    pad (str "  " ++ label before) halfWidth ++ [EMOJI.ARROW]
    ++ pad (label after) (halfWidth - 2) in
  let maxLines := Nat.max (length (content before)) (length (content after)) in
  let measureLine :=
    pad (str "  " ++ [statusEmoji before] ++ str " " ++ measurements before)
      halfWidth
    ++ str " "
    ++ pad ([statusEmoji after] ++ str " " ++ measurements after)
         (halfWidth - 1) in
  let paddedMeasureLine := pad measureLine (maxWidth - 2) in
  [[CHARS.V_LINE] ++ labelLine ++ [CHARS.V_LINE]]
  ++ map (contentLine halfWidth before after) (seq 0 maxLines)
  ++ [[CHARS.V_LINE] ++ paddedMeasureLine ++ [CHARS.V_LINE]].

Definition renderFooter : list jsstring :=
  let padding := maxWidth - 2 in
  [[CHARS.BOTTOM_LEFT] ++ hrule padding ++ [CHARS.BOTTOM_RIGHT]].

Definition getSeverityEmoji (severity : option jsstring) : N :=
  match severity with
  | Some s =>
      if JS.eqb s (str "critical") then EMOJI.CRITICAL
      else if JS.eqb s (str "medium") then EMOJI.MEDIUM
      else EMOJI.LOW
  | None => EMOJI.LOW
  end.

Definition createBeforeLayout (content : list jsstring)
  (measurements : jsstring) : LayoutData :=
  mkLayout (str "BEFORE") EMOJI.PROBLEM content measurements.

Definition createAfterLayout (content : list jsstring)
  (measurements : jsstring) : LayoutData :=
  mkLayout (str "AFTER") EMOJI.SOLUTION content measurements.

(** [issue.suggestion || 'Use responsive units'] *)
Definition suggestionOf (issue : Viz.Issue) : jsstring :=
  match Viz.suggestion issue with
  | Some s => if truthy s then s else str "Use responsive units"
  | None => str "Use responsive units"
  end.

Definition standardLines (issue : Viz.Issue) (typeLabel : string)
  (beforeContent afterContent : list jsstring) : list jsstring :=
  let headerData :=
    mkHeader (str typeLabel) (Viz.severity issue)
      (getSeverityEmoji (Viz.severity issue)) (Viz.line issue) in
  let before :=
    createBeforeLayout beforeContent
      (Viz.show (Viz.property issue) ++ str ": " ++ Viz.show (Viz.value issue)) in
  let after := createAfterLayout afterContent (suggestionOf issue) in
  renderHeader headerData ++ renderComparison before after ++ renderFooter.

Definition generateStandardVisualization (issue : Viz.Issue)
  (typeLabel : string) (beforeContent afterContent : list jsstring)
  : Viz.Visualization :=
  let lines := standardLines issue typeLabel beforeContent afterContent in
  Viz.mkVisualization (join [10%N] lines)
    maxWidth (length lines).

(** A box border: two spaces, a corner, [n] horizontal lines, a corner. *)
Definition border (l r : N) (n : nat) : jsstring :=
  str "  " ++ [l] ++ hrule n ++ [r].

Definition top (n : nat) : jsstring :=
  border CHARS.TOP_LEFT CHARS.TOP_RIGHT n.

Definition bottom (n : nat) : jsstring :=
  border CHARS.BOTTOM_LEFT CHARS.BOTTOM_RIGHT n.

Definition fill (c : N) (n : nat) : jsstring := repeat c n.

End BaseGenerator.

Import BaseGenerator.

Module FixedDimensionsGenerator.

Import LayoutCalculator.

Definition renderFixedBox (elementWidth : Num.number) (containerWidth : Q)
  : list jsstring :=
  let scale := 20%Q in
  let boxWidth := floorDiv elementWidth scale in
  let viewportWidth := floorDivQ containerWidth scale in
  let overflow := exceeds boxWidth viewportWidth in
  let visibleWidth := minCount boxWidth viewportWidth in
  [ top viewportWidth;
    str "  " ++ [CHARS.V_LINE] ++ fill CHARS.SOLID visibleWidth
    ++ (if overflow
        then fill CHARS.MEDIUM (excess boxWidth viewportWidth 3)
             ++ [CHARS.RIGHT]
        else [CHARS.V_LINE]);
    bottom viewportWidth ].

Definition renderResponsiveBox (containerWidth : Q) : list jsstring :=
  let boxWidth := floorDivQ containerWidth 20 in
  [ top boxWidth;
    str "  " ++ [CHARS.V_LINE] ++ fill CHARS.SOLID boxWidth ++ [CHARS.V_LINE];
    bottom boxWidth ].

Definition generate (issue : Viz.Issue) : Viz.Visualization :=
  let fixedWidth := parseValueOr (Viz.value issue) 600 in
  let containerWidth := 400%Q in
  generateStandardVisualization issue "Fixed Dimensions"
    (renderFixedBox fixedWidth containerWidth)
    (renderResponsiveBox containerWidth).

End FixedDimensionsGenerator.

Module ViewportOverflowGenerator.

Import LayoutCalculator.

Definition renderViewportOverflow (elementWidth : Num.number)
  (viewportWidth : Q) (label : string) : list jsstring :=
  let scale := 50%Q in
  let boxWidth := floorDiv elementWidth scale in
  let vpWidth := floorDivQ viewportWidth scale in
  let overflow := exceeds boxWidth vpWidth in
  let visibleWidth := minCount boxWidth vpWidth in
  let overflowWidth := if overflow then excess boxWidth vpWidth 3 else 0 in
  [ str "  " ++ str label;
    top vpWidth;
    str "  " ++ [CHARS.V_LINE] ++ fill CHARS.SOLID visibleWidth
    ++ (if overflow
        then fill CHARS.MEDIUM overflowWidth ++ [CHARS.RIGHT]
        else [CHARS.V_LINE]);
    bottom vpWidth ].

Definition renderResponsiveViewport (viewportWidth : Q) (label : string)
  : list jsstring :=
  let vpWidth := floorDivQ viewportWidth 50 in
  [ str "  " ++ str label;
    top vpWidth;
    str "  " ++ [CHARS.V_LINE] ++ fill CHARS.SOLID vpWidth ++ [CHARS.V_LINE];
    bottom vpWidth ].

Definition generate (issue : Viz.Issue) : Viz.Visualization :=
  let elementWidth := parseValueOr (Viz.value issue) 1200 in
  generateStandardVisualization issue "Viewport Overflow"
    (renderViewportOverflow elementWidth 375 "Mobile 375px")
    (renderResponsiveViewport 375 "Mobile 375px").

End ViewportOverflowGenerator.

Module FlexFragilityGenerator.

Definition renderRigidFlex : list jsstring :=
  let containerWidth := 18 in
  let itemWidth := 6 in
  [ top containerWidth;
    str "  " ++ [CHARS.V_LINE]
    ++ fill CHARS.SOLID itemWidth ++ str " "
    ++ fill CHARS.SOLID itemWidth ++ str " "
    ++ fill CHARS.SOLID (Nat.min itemWidth (containerWidth - 14))
    ++ [CHARS.RIGHT];
    bottom containerWidth ].

Definition renderFlexibleFlex : list jsstring :=
  let containerWidth := 18 in
  let itemWidth := 6 in
  [ top containerWidth;
    str "  " ++ [CHARS.V_LINE]
    ++ fill CHARS.SOLID itemWidth ++ str " "
    ++ fill CHARS.SOLID itemWidth
    ++ fill 32%N (containerWidth - 13) ++ [CHARS.V_LINE];
    str "  " ++ [CHARS.V_LINE]
    ++ fill CHARS.SOLID itemWidth
    ++ fill 32%N (containerWidth - itemWidth) ++ [CHARS.V_LINE];
    bottom containerWidth ].

Definition generate (issue : Viz.Issue) : Viz.Visualization :=
  generateStandardVisualization issue "Flex Fragility"
    renderRigidFlex renderFlexibleFlex.

End FlexFragilityGenerator.

Module GridRigidityGenerator.

Definition renderRigidGrid : list jsstring :=
  let containerWidth := 18 in
  let colWidth := 5 in
  [ top containerWidth;
    str "  " ++ [CHARS.V_LINE]
    ++ fill CHARS.SOLID colWidth ++ str " "
    ++ fill CHARS.SOLID colWidth ++ str " "
    ++ fill CHARS.SOLID colWidth
    ++ [CHARS.RIGHT];
    bottom containerWidth ].

Definition renderResponsiveGrid : list jsstring :=
  let containerWidth := 18 in
  let colWidth := 5 in
  [ top containerWidth;
    str "  " ++ [CHARS.V_LINE]
    ++ fill CHARS.SOLID colWidth ++ str " "
    ++ fill CHARS.SOLID colWidth ++ str " "
    ++ fill CHARS.SOLID colWidth
    ++ fill 32%N (containerWidth - (colWidth * 3 + 2)) ++ [CHARS.V_LINE];
    str "  " ++ [CHARS.V_LINE]
    ++ fill CHARS.SOLID colWidth
    ++ fill 32%N (containerWidth - colWidth) ++ [CHARS.V_LINE];
    bottom containerWidth ].

Definition generate (issue : Viz.Issue) : Viz.Visualization :=
  generateStandardVisualization issue "Grid Rigidity"
    renderRigidGrid renderResponsiveGrid.

End GridRigidityGenerator.

Module FixedSpacingGenerator.

Import LayoutCalculator.

Definition spacingBox (padding : nat) : list jsstring :=
  let containerWidth := 18 in
  let contentWidth := containerWidth - padding * 2 in
  [ top containerWidth;
    str "  " ++ [CHARS.V_LINE] ++ fill CHARS.LIGHT containerWidth
    ++ [CHARS.V_LINE];
    str "  " ++ [CHARS.V_LINE]
    ++ fill CHARS.LIGHT padding
    ++ fill CHARS.SOLID contentWidth
    ++ fill CHARS.LIGHT padding
    ++ [CHARS.V_LINE];
    str "  " ++ [CHARS.V_LINE] ++ fill CHARS.LIGHT containerWidth
    ++ [CHARS.V_LINE];
    bottom containerWidth ].

Definition renderFixedSpacing (spacingValue : Num.number) : list jsstring :=
  spacingBox (minCount (floorDiv spacingValue 10) 4).

Definition renderResponsiveSpacing : list jsstring := spacingBox 2.

Definition generate (issue : Viz.Issue) : Viz.Visualization :=
  let spacingValue := parseValueOr (Viz.value issue) 40 in
  generateStandardVisualization issue "Fixed Spacing"
    (renderFixedSpacing spacingValue) renderResponsiveSpacing.

End FixedSpacingGenerator.

Module MediaInstabilityGenerator.

Definition renderUnstableMedia : list jsstring :=
  [ str "  Mobile 375px";
    top 7;
    str "  " ++ [CHARS.V_LINE] ++ fill CHARS.SOLID 7 ++ [CHARS.RIGHT]
    ++ str " breaks";
    bottom 7 ].

Definition renderStableMedia : list jsstring :=
  [ str "  Mobile 375px";
    top 7;
    str "  " ++ [CHARS.V_LINE] ++ fill CHARS.SOLID 7 ++ [CHARS.V_LINE]
    ++ str " stable";
    bottom 7 ].

Definition generate (issue : Viz.Issue) : Viz.Visualization :=
  generateStandardVisualization issue "Media Instability"
    renderUnstableMedia renderStableMedia.

End MediaInstabilityGenerator.

Module OverflowMaskingGenerator.

Definition renderMaskedOverflow : list jsstring :=
  let vpWidth := 20 in
  [ str "  body {";
    top vpWidth;
    str "  " ++ [CHARS.V_LINE] ++ fill CHARS.SOLID vpWidth ++ [CHARS.V_LINE];
    str "  " ++ [CHARS.V_LINE] ++ fill CHARS.LIGHT vpWidth
    ++ [CHARS.ELLIPSIS] ++ str " hidden";
    bottom vpWidth;
    str "  }" ].

Definition renderVisibleOverflow : list jsstring :=
  let vpWidth := 20 in
  [ str "  body {";
    top vpWidth;
    str "  " ++ [CHARS.V_LINE] ++ fill CHARS.SOLID vpWidth ++ [CHARS.V_LINE];
    str "  " ++ [CHARS.V_LINE] ++ fill CHARS.SOLID vpWidth ++ [CHARS.V_LINE];
    bottom vpWidth;
    str "  }" ].

Definition generate (issue : Viz.Issue) : Viz.Visualization :=
  generateStandardVisualization issue "Overflow Masking"
    renderMaskedOverflow renderVisibleOverflow.

End OverflowMaskingGenerator.

Module BreakpointExceededGenerator.

Definition renderExceededBreakpoint : list jsstring :=
  let breakpointWidth := 12 in
  let contentWidth := 16 in
  [ str "  @media (max: 768px)";
    top breakpointWidth;
    str "  " ++ [CHARS.V_LINE] ++ fill CHARS.SOLID breakpointWidth
    ++ fill CHARS.MEDIUM (Nat.min (contentWidth - breakpointWidth) 3)
    ++ [CHARS.RIGHT];
    bottom breakpointWidth ].

Definition renderAdjustedBreakpoint : list jsstring :=
  let breakpointWidth := 16 in
  [ str "  @media (max: 1024px)";
    top breakpointWidth;
    str "  " ++ [CHARS.V_LINE] ++ fill CHARS.SOLID breakpointWidth
    ++ [CHARS.V_LINE];
    bottom breakpointWidth ].

Definition generate (issue : Viz.Issue) : Viz.Visualization :=
  generateStandardVisualization issue "Breakpoint Exceeded"
    renderExceededBreakpoint renderAdjustedBreakpoint.

End BreakpointExceededGenerator.

Module AbsoluteRigidityGenerator.

Definition positioned (offset : nat) : list jsstring :=
  let containerWidth := 18 in
  let elementWidth := 6 in
  [ top containerWidth;
    str "  " ++ [CHARS.V_LINE] ++ fill 32%N containerWidth ++ [CHARS.V_LINE];
    str "  " ++ [CHARS.V_LINE]
    ++ fill 32%N offset
    ++ fill CHARS.SOLID elementWidth
    ++ fill 32%N (containerWidth - offset - elementWidth)
    ++ [CHARS.V_LINE];
    str "  " ++ [CHARS.V_LINE] ++ fill 32%N containerWidth ++ [CHARS.V_LINE];
    bottom containerWidth ].

Definition renderAbsolutePositioning : list jsstring := positioned 10.

Definition renderFlexiblePositioning : list jsstring := positioned 6.

Definition generate (issue : Viz.Issue) : Viz.Visualization :=
  generateStandardVisualization issue "Absolute Rigidity"
    renderAbsolutePositioning renderFlexiblePositioning.

End AbsoluteRigidityGenerator.

Module BoxInconsistencyGenerator.

Definition renderContentBox : list jsstring :=
  let contentWidth := 12 in
  let padding := 2 in
  let totalWidth := contentWidth + padding * 2 in
  [ top totalWidth ++ [CHARS.RIGHT];
    str "  " ++ [CHARS.V_LINE] ++ fill CHARS.LIGHT totalWidth ++ [CHARS.V_LINE];
    str "  " ++ [CHARS.V_LINE]
    ++ fill CHARS.LIGHT padding
    ++ fill CHARS.SOLID contentWidth
    ++ fill CHARS.LIGHT padding
    ++ [CHARS.V_LINE];
    str "  " ++ [CHARS.V_LINE] ++ fill CHARS.LIGHT totalWidth ++ [CHARS.V_LINE];
    bottom totalWidth ++ [CHARS.RIGHT] ].

Definition renderBorderBox : list jsstring :=
  let totalWidth := 12 in
  let padding := 2 in
  let contentWidth := totalWidth - padding * 2 in
  [ top totalWidth;
    str "  " ++ [CHARS.V_LINE] ++ fill CHARS.LIGHT totalWidth ++ [CHARS.V_LINE];
    str "  " ++ [CHARS.V_LINE]
    ++ fill CHARS.LIGHT padding
    ++ fill CHARS.SOLID contentWidth
    ++ fill CHARS.LIGHT padding
    ++ [CHARS.V_LINE];
    str "  " ++ [CHARS.V_LINE] ++ fill CHARS.LIGHT totalWidth ++ [CHARS.V_LINE];
    bottom totalWidth ].

Definition generate (issue : Viz.Issue) : Viz.Visualization :=
  generateStandardVisualization issue "Box Inconsistency"
    renderContentBox renderBorderBox.

End BoxInconsistencyGenerator.

Module OverflowHorizontalGenerator.

Import LayoutCalculator.

Definition renderHorizontalOverflow (elementWidth : Num.number)
  (containerWidth : Q) : list jsstring :=
  let scale := 20%Q in
  let boxWidth := floorDiv elementWidth scale in
  let vpWidth := floorDivQ containerWidth scale in
  let visibleWidth := minCount boxWidth vpWidth in
  let hasOverflow := exceeds boxWidth vpWidth in
  let scrollbarWidth := Nat.max 3 (Nat.div vpWidth 3) in
  [ top vpWidth;
    str "  " ++ [CHARS.V_LINE] ++ fill CHARS.SOLID visibleWidth
    ++ (if hasOverflow then [CHARS.RIGHT] else [CHARS.V_LINE]) ]
  ++ (if hasOverflow
      then [ str "  " ++ [CHARS.V_LINE] ++ fill CHARS.MEDIUM scrollbarWidth
             ++ fill 32%N (vpWidth - scrollbarWidth) ++ [CHARS.V_LINE] ]
      else [])
  ++ [ bottom vpWidth ].

Definition renderContainedContent (containerWidth : Q) : list jsstring :=
  let vpWidth := floorDivQ containerWidth 20 in
  [ top vpWidth;
    str "  " ++ [CHARS.V_LINE] ++ fill CHARS.SOLID vpWidth ++ [CHARS.V_LINE];
    bottom vpWidth ].

Definition generate (issue : Viz.Issue) : Viz.Visualization :=
  let elementWidth := parseValueOr (Viz.value issue) 800 in
  let containerWidth := 400%Q in
  generateStandardVisualization issue "Horizontal Overflow"
    (renderHorizontalOverflow elementWidth containerWidth)
    (renderContainedContent containerWidth).

End OverflowHorizontalGenerator.

Module NowrapFixedGenerator.

Definition renderNowrapOverflow : list jsstring :=
  let containerWidth := 16 in
  [ top containerWidth;
    str "  " ++ [CHARS.V_LINE] ++ str "Long text conte"
    ++ [CHARS.ELLIPSIS] ++ [CHARS.RIGHT];
    bottom containerWidth ].

Definition renderWrappedText : list jsstring :=
  let containerWidth := 16 in
  [ top containerWidth;
    str "  " ++ [CHARS.V_LINE] ++ str "Long text conte" ++ [CHARS.V_LINE];
    str "  " ++ [CHARS.V_LINE] ++ str "nt wraps here  " ++ [CHARS.V_LINE];
    bottom containerWidth ].

Definition generate (issue : Viz.Issue) : Viz.Visualization :=
  generateStandardVisualization issue "Nowrap Fixed"
    renderNowrapOverflow renderWrappedText.

End NowrapFixedGenerator.

(** [core/visualizer.js] *)
Module AsciiVisualizer.

(** A generator object: [generate] returns a visualization or throws an
    [Error] with a message. *)
Definition Generator : Type := Viz.Issue -> result Viz.Visualization.

(** What [require] of a generator module does: the class is obtained, or
    the module text fails to parse and [require] throws.  The class bodies
    of [viewport-overflow.js], [fixed-spacing.js] and
    [overflow-horizontal.js] carry statements outside any method, after
    [generate]. *)
Inductive Module_ : Type :=
| Class (generate : Viz.Issue -> Viz.Visualization)
| Malformed (error : jsstring).

Definition syntaxError : jsstring := str "SyntaxError: Unexpected token".

Definition modules : list (jsstring * Module_) :=
  [ (str "fixed-dimensions", Class FixedDimensionsGenerator.generate);
    (str "viewport-overflow", Malformed syntaxError);
    (str "flex-fragility", Class FlexFragilityGenerator.generate);
    (str "grid-rigidity", Class GridRigidityGenerator.generate);
    (str "fixed-spacing", Malformed syntaxError);
    (str "media-instability", Class MediaInstabilityGenerator.generate);
    (str "overflow-masking", Class OverflowMaskingGenerator.generate);
    (str "breakpoint-exceeded", Class BreakpointExceededGenerator.generate);
    (str "absolute-rigidity", Class AbsoluteRigidityGenerator.generate);
    (str "box-inconsistency", Class BoxInconsistencyGenerator.generate);
    (str "overflow-horizontal", Malformed syntaxError);
    (str "nowrap-fixed", Class NowrapFixedGenerator.generate) ].

(** A factory of [registerGeneratorFactories], called. *)
Definition instantiate (m : Module_) : result Generator :=
  match m with
  | Class generate => Ok (fun issue => Ok (generate issue))
  | Malformed e => Throw e
  end.

(** [generatorFactories.get(type)] *)
Definition factory (type : jsstring) : option Module_ :=
  Obj.get modules type.

(** The mutable part of the visualizer: [generatorInstances]. *)
Definition Instances : Type := list (jsstring * Generator).

Definition registerGenerator (instances : Instances) (type : jsstring)
  (generator : Generator) : Instances :=
  Obj.set instances type generator.

(** [[...new Set(types)]]: each type once, where it comes first. *)
Fixpoint distinct (seen types : list jsstring) : list jsstring :=
  match types with
  | [] => []
  | type :: types' =>
      if existsb (JS.eqb type) seen then distinct seen types'
      else type :: distinct (type :: seen) types'
  end.

Definition getSupportedTypes (instances : Instances) : list jsstring :=
  distinct [] (map fst modules ++ map fst instances).

Definition isValidIssue (issue : Viz.Issue) : bool :=
  truthyOpt (Viz.type issue) && truthyOpt (Viz.severity issue)
  && Re.isSome (Viz.line issue) && truthyOpt (Viz.selector issue)
  && truthyOpt (Viz.property issue) && truthyOpt (Viz.value issue).

Definition generateFallback (issue : Viz.Issue) : Viz.Visualization :=
  let ascii :=
    str "[" ++ Viz.show (Viz.type issue) ++ str "] visualization not available" in
  Viz.mkVisualization ascii (length ascii) 1.

Definition padLine (text : jsstring) (width : nat) : jsstring :=
  if (width <=? length text)%nat
  then firstn (width - 1) text ++ [CHARS.ELLIPSIS]
  else text ++ repeat 32%N (width - length text).

Definition errorLines (message : jsstring) : list jsstring :=
  [ [9484%N] ++ repeat 9472%N 56 ++ [9488%N];
    [9474%N] ++ str " " ++ [9888%N; 65039%N] ++ str "  Visualization Error"
    ++ repeat 32%N 32 ++ [9474%N];
    [9500%N] ++ repeat 9472%N 56 ++ [9508%N];
    [9474%N] ++ str " " ++ padLine message 56 ++ str " " ++ [9474%N];
    [9492%N] ++ repeat 9472%N 56 ++ [9496%N] ].

Definition generateErrorVisualization (message : jsstring)
  : Viz.Visualization :=
  Viz.mkVisualization (join [10%N] (errorLines message)) 60 5.

(** [generate]: the outcome for the caller and the instances afterwards. *)
Definition generate (instances : Instances) (issue : Viz.Issue)
  : result Viz.Visualization * Instances :=
  if negb (isValidIssue issue)
  then (Ok (generateErrorVisualization (str "Invalid issue data")), instances)
  else
    let type := Viz.show (Viz.type issue) in
    let instantiated : result Instances :=
      if Obj.has instances type then Ok instances
      else match factory type with
           | Some m => g <- instantiate m ;; Ok (Obj.set instances type g)
           | None => Ok instances
           end in
    match instantiated with
    | Throw e => (Throw e, instances)
    | Ok instances' =>
        match Obj.get instances' type with
        | None => (Ok (generateFallback issue), instances')
        | Some generator =>
            match generator issue with
            | Ok result0 => (Ok result0, instances')
            | Throw message =>
                (Ok (generateErrorVisualization
                       (str "Generation failed: " ++ message)), instances')
            end
        end
    end.

End AsciiVisualizer.

(** ** The lint engine ([src/engine/lint-engine.js]) *)

Module LintEngine.

Import Parser.

Record Config : Type := mkConfig {
  mode : jsstring;
  fixedWidthThreshold : Q;
  fixedHeightThreshold : Q;
  fixedSpacingThreshold : Q;
  ignoreSelectors : list jsstring
}.

(** The defaults of the constructor. *)
Definition defaultConfig : Config :=
  mkConfig (str "strict") (320 # 1) (320 # 1) (24 # 1) [].

Record Issue : Type := mkIssue {
  issue : jsstring;
  explanation : jsstring;
  viewportImpact : jsstring;
  severity : jsstring;
  correction : jsstring;
  property : option jsstring;
  value : option jsstring;
  selector : option jsstring
}.

Record Range : Type := mkRange {
  startLine : nat;
  startChar : nat;
  endLine : nat;
  endChar : nat
}.

(** An issue after [mapIssuesToLines], or as [detectIssuesFromText]
    builds it (which sets no [suggestion]). *)
Record Located : Type := mkLocated {
  base : Issue;
  suggestion : option jsstring;
  lineNumber : nat;
  range : Range
}.

Record Document : Type := mkDocument {
  languageId : jsstring;
  getText : jsstring
}.

(** [x || 0] for a finite number [x]. *)
Definition orZero (x : Q) : Q := if Qeq_bool x 0 then 0%Q else x.

(** [x || d] for strings. *)
Definition orElse (x d : jsstring) : jsstring := if truthy x then x else d.

Definition typeErrorPush : jsstring :=
  str "TypeError: push is not a function".

(** [if (!o[k]) o[k] = []; o[k].push(a)] on a plain object: under an
    inherited name, [o[k]] is the inherited member, which is truthy and
    has no [push]. *)
Definition pushTo {A : Type} (o : Obj.t (list A)) (k : jsstring) (a : A)
  : result (Obj.t (list A)) :=
  if Obj.inherited k then Throw typeErrorPush
  else
    Ok (Obj.set o k
          (match Obj.get o k with Some l => l ++ [a] | None => [a] end)).

Fixpoint collect {A B : Type} (f : A -> result (list B)) (l : list A)
  : result (list B) :=
  match l with
  | [] => Ok []
  | a :: l' => x <- f a ;; y <- collect f l' ;; Ok (x ++ y)
  end.

Definition getOr {A : Type} (o : Obj.t A) (k : jsstring) (d : A) : A :=
  match Obj.get o k with Some a => a | None => d end.

(** *** From an engine issue to a visualizer issue *)

(** The [typeMap] literal shared by the three copies of
    [mapToVisualizerIssue]. *)
Definition typeMap : Obj.t jsstring :=
  map (fun kv => (str (fst kv), str (snd kv)))
    [ ("Fixed width", "fixed-dimensions");
      ("Fixed height", "fixed-dimensions");
      ("Fixed box dimensions", "fixed-dimensions");
      ("Fixed minimum dimension", "fixed-dimensions");
      ("Viewport width overflow", "viewport-overflow");
      ("Horizontal overflow risk", "overflow-horizontal");
      ("Cumulative horizontal overflow", "overflow-horizontal");
      ("No-wrap fixed width", "nowrap-fixed");
      ("Non-wrapping fixed flex basis", "flex-fragility");
      ("Flex container without wrap", "flex-fragility");
      ("Rigid flex item", "flex-fragility");
      ("Rigid grid tracks", "grid-rigidity");
      ("Fixed pixel spacing", "fixed-spacing");
      ("Media query instability", "media-instability");
      ("Body overflow masking", "overflow-masking");
      ("Fixed width exceeds breakpoint", "breakpoint-exceeded");
      ("Absolute positioning rigidity", "absolute-rigidity");
      ("Mixed box-sizing", "box-inconsistency") ]%string.

Definition typeErrorIncludes : jsstring :=
  str "TypeError: type.includes is not a function".

(** [type.includes('flex') ? 'flex' : ...] *)
Definition categoryOf (type : jsstring) : jsstring :=
  if includes type (str "flex") then str "flex"
  else if includes type (str "grid") then str "grid"
  else if includes type (str "overflow") then str "overflow"
  else str "other".

Definition orDefault (o : option jsstring) (d : string) : jsstring :=
  match o with
  | Some s => if truthy s then s else str d
  | None => str d
  end.

(** The object literal returned once [type] is known. *)
Definition visualizerIssue (i : Located) (type : jsstring) : Viz.Issue :=
  Viz.mkIssue (Some type)
    (Some (orElse (severity (base i)) (str "medium")))
    (Some (Z.of_nat (lineNumber i)))
    (Some (orDefault (selector (base i)) "element"))
    (Some (orDefault (property (base i)) "width"))
    (Some (orDefault (value (base i)) "600px"))
    (Some (if truthy (correction (base i)) then correction (base i)
           else orDefault (suggestion i) "Use responsive units"))
    (Some (categoryOf type)).

(** [LintEngine.mapToVisualizerIssue]: [typeMap[issue.issue] ||
    'fixed-dimensions'].  Under a name inherited from [Object.prototype]
    the lookup yields a function, on which [includes] is not defined. *)
Definition mapToVisualizerIssue (i : Located) : result Viz.Issue :=
  if Obj.inherited (issue (base i)) then Throw typeErrorIncludes
  else
    Ok (visualizerIssue i
          (match Obj.get typeMap (issue (base i)) with
           | Some type => type
           | None => str "fixed-dimensions"
           end)).

Section Engine.

Variable toLowerCase : jsstring -> jsstring.

Variable config : Config.

Definition modeName : jsstring :=
  toLowerCase (orElse (mode config) (str "strict")).

Definition shouldReportFixedValue (type : jsstring) (numericValue : Num.number)
  : bool :=
  if JS.eqb modeName (str "strict") then true
  else if negb (Num.isFinite numericValue) then true
  else if JS.eqb type (str "width") || JS.eqb type (str "grid-track")
          || JS.eqb type (str "flex-basis")
  then Num.gt numericValue (Num.Finite (orZero (fixedWidthThreshold config)))
  else if JS.eqb type (str "height")
  then Num.gt numericValue (Num.Finite (orZero (fixedHeightThreshold config)))
  else if JS.eqb type (str "spacing")
  then Num.gt numericValue (Num.Finite (orZero (fixedSpacingThreshold config)))
  else true.

(** The guard at the head of six detectors:
    [ignoreSelectors.some(p => sel.toLowerCase().includes(String(p || '').toLowerCase()))]. *)
Definition ignoredInDetector (r : Rule) : bool :=
  existsb (fun p => includes (toLowerCase (Parser.selector r)) (toLowerCase p))
    (ignoreSelectors config).

Definition text (v : option jsstring) : jsstring :=
  match v with Some s => s | None => [] end.

Definition decl (r : Rule) (name : string) : option jsstring :=
  Obj.get (declarations r) (str name).

(** [v && /\b\d+px\b/i.test(v)] *)
Definition fixedPx (v : option jsstring) : bool :=
  match v with
  | Some s => truthy s && Re.pxToken true s
  | None => false
  end.

(** [v && /pat/i.test(v)] *)
Definition hasWord (v : option jsstring) (pat : string) : bool :=
  match v with
  | Some s => truthy s && testCI (str pat) s
  | None => false
  end.

Definition when {A : Type} (c : bool) (l : list A) : list A :=
  if c then l else [].

Definition perRule (guarded : bool) (f : Rule -> list Issue)
  (rs : list Rule) : list Issue :=
  flat_map (fun r => if guarded && ignoredInDetector r then [] else f r) rs.

Definition fixedDimensionsOf (r : Rule) : list Issue :=
  let w := decl r "width" in
  let h := decl r "height" in
  let mw := decl r "min-width" in
  let mh := decl r "min-height" in
  when (fixedPx w
        && shouldReportFixedValue (str "width") (Re.pxNumber (text w)))
    [mkIssue (str "Fixed width")
       (str "Fixed pixel width reduces responsiveness")
       (str "Constrained layout on smaller viewports")
       (str "medium")
       (str "Use relative units or max-width")
       (Some (str "width")) w (Some (Parser.selector r))]
  ++ when (fixedPx h
           && shouldReportFixedValue (str "height") (Re.pxNumber (text h)))
    [mkIssue (str "Fixed height")
       (str "Fixed pixel height can cause overflow")
       (str "Vertical clipping on shorter viewports")
       (str "medium")
       (str "Use min-height or auto with constraints")
       (Some (str "height")) h (Some (Parser.selector r))]
  ++ when (fixedPx w && fixedPx h)
    [mkIssue (str "Fixed box dimensions")
       (str "Fixed width and height create rigid boxes")
       (str "Breaks responsive scaling across devices")
       (str "critical")
       (str "Prefer fluid dimensions with min/max constraints")
       None None (Some (Parser.selector r))]
  ++ when (fixedPx mw || fixedPx mh)
    [mkIssue (str "Fixed minimum dimension")
       (str "Rigid minimum size blocks content reflow")
       (str "Triggers overflow below threshold viewports")
       (str "medium")
       (str "Use percentages or clamp with responsive units")
       None None (Some (Parser.selector r))].

Definition detectFixedDimensions (rs : list Rule) : list Issue :=
  perRule true fixedDimensionsOf rs.

(** [borderBoxCount] and [contentBoxCount] *)
Definition countBox (pat : string) (rs : list Rule) : nat :=
  length (filter (fun r => hasWord (decl r "box-sizing") pat) rs).

Definition detectBoxModel (rs : list Rule) : list Issue :=
  when (negb (countBox "border-box" rs =? 0)%nat
        && negb (countBox "content-box" rs =? 0)%nat)
    [mkIssue (str "Mixed box-sizing")
       (str "Mixed box-sizing leads to inconsistent sizing calculations")
       (str "Inconsistent widths across components")
       (str "medium")
       (str "Standardize on border-box for layout consistency")
       None None (Some (str "*"))].

Definition overflowHorizontalOf (r : Rule) : list Issue :=
  let w := decl r "width" in
  let mw := decl r "min-width" in
  let ow := decl r "overflow-x" in
  let mL := decl r "margin-left" in
  let mR := decl r "margin-right" in
  let pL := decl r "padding-left" in
  let pR := decl r "padding-right" in
  let nowrap := decl r "white-space" in
  let fixedPads := length (filter fixedPx [mL; mR; pL; pR]) in
  when (hasWord ow "visible" && (fixedPx w || fixedPx mw))
    [mkIssue (str "Horizontal overflow risk")
       (str "Visible overflow with fixed width can exceed viewport")
       (str "Horizontal scrollbars on small screens")
       (str "medium")
       (str "Set overflow-x hidden or use max-width")
       None None (Some (Parser.selector r))]
  ++ when ((2 <=? fixedPads)%nat && fixedPx w)
    [mkIssue (str "Cumulative horizontal overflow")
       (str "Fixed width with fixed paddings can exceed viewport")
       (str "Content clipped or scrolls horizontally")
       (str "medium")
       (str "Use responsive paddings and width constraints")
       None None (Some (Parser.selector r))]
  ++ when (hasWord nowrap "nowrap" && (fixedPx w || fixedPx mw))
    [mkIssue (str "No-wrap fixed width")
       (str "No wrapping with fixed width increases overflow risk")
       (str "Text overflows on narrow screens")
       (str "low")
       (str "Allow wrapping or make width responsive")
       None None (Some (Parser.selector r))].

Definition detectOverflowHorizontal (rs : list Rule) : list Issue :=
  perRule true overflowHorizontalOf rs.

(** [bySelector] *)
Definition groupBySelector (rs : list Rule) : result (Obj.t (list Rule)) :=
  fold_left (fun acc r => o <- acc ;; pushTo o (Parser.selector r) r)
    rs (Ok []).

(** [propsMap] of the blocks of one selector; an entry keeps the value. *)
Definition propsOf (blocks : list Rule) : result (Obj.t (list jsstring)) :=
  fold_left
    (fun acc b =>
       fold_left
         (fun acc' k =>
            o <- acc' ;; pushTo o k (text (Obj.get (declarations b) k)))
         (Obj.keys (declarations b)) acc)
    blocks (Ok []).

(** [new Set(entries.map(e => e.value)).size > 1] *)
Definition diverges (values : list jsstring) : bool :=
  (1 <? length (nodup (list_eq_dec N.eq_dec) values))%nat.

Definition mediaConflictOf (bySelector : Obj.t (list Rule)) (sel : jsstring)
  : result (list Issue) :=
  propsMap <- propsOf (getOr bySelector sel []) ;;
  Ok (when (existsb (fun k => diverges (getOr propsMap k []))
              (Obj.keys propsMap))
        [mkIssue (str "Media query instability")
           (str "Property values diverge between base and breakpoints")
           (str "Layout shifts unpredictably across viewports")
           (str "medium")
           (str "Unify values or constrain ranges to avoid divergence")
           None None (Some sel)]).

Definition detectMediaConflicts (rs : list Rule) : result (list Issue) :=
  bySelector <- groupBySelector rs ;;
  collect (mediaConflictOf bySelector) (Obj.keys bySelector).

Definition overflowMaskBodyOf (r : Rule) : list Issue :=
  when (JS.eqb (toLowerCase (trim (Parser.selector r))) (str "body")
        && hasWord (decl r "overflow-x") "hidden")
    [mkIssue (str "Body overflow masking")
       (str "Hiding horizontal overflow can mask structural leaks")
       (str "Content clipped without visible scrollbars")
       (str "medium")
       (str "Prefer fixing causes; avoid global overflow-x: hidden")
       None None (Some (Parser.selector r))].

Definition detectOverflowMaskBody (rs : list Rule) : list Issue :=
  perRule false overflowMaskBodyOf rs.

Definition vwWidthRiskOf (r : Rule) : list Issue :=
  when (match decl r "width" with
        | Some w => truthy w && Re.vw100 w
        | None => false
        end)
    [mkIssue (str "Viewport width overflow")
       (str "100vw includes scrollbar width causing overflow")
       (str "Horizontal scroll or clipped edges on desktops")
       (str "medium")
       (str "Use 100% or calc(100vw - var(scrollbar))")
       None None (Some (Parser.selector r))].

Definition detectVwWidthRisk (rs : list Rule) : list Issue :=
  perRule false vwWidthRiskOf rs.

(** [r.at && r.at.type === 'media'] *)
Definition inMedia (r : Rule) : option AtRule :=
  match at_ r with
  | Some a => if JS.eqb (type a) (str "media") then Some a else None
  | None => None
  end.

Definition breakpointIssue (sel : jsstring) : Issue :=
  mkIssue (str "Fixed width exceeds breakpoint")
    (str "Width in px inside max-width media exceeds the breakpoint")
    (str "Guaranteed overflow below breakpoint")
    (str "critical")
    (str "Use fluid width or cap with max-width " ++ [8804%N]
       ++ str " breakpoint")
    None None (Some sel).

Definition breakpointFixedWidthOf (r : Rule) : list Issue :=
  match inMedia r with
  | None => []
  | Some a =>
      match Re.spacedPx (condition a) with
      | None => []
      | Some m1 =>
          let breakpoint := Num.parseInt m1 in
          match decl r "width" with
          | Some w =>
              match (if truthy w then Re.intPx w else None) with
              | Some px1 =>
                  when (Num.gt (Num.parseInt px1) breakpoint)
                    [breakpointIssue (Parser.selector r)]
              | None => []
              end
          | None => []
          end
      end
  end.

Definition detectBreakpointFixedWidth (rs : list Rule) : list Issue :=
  perRule false breakpointFixedWidthOf rs.

(** The first loop of [detectMediaWidthInstability]: [baseMap] and
    [mediaMap]. *)
Definition widthMaps (rs : list Rule)
  : result (Obj.t jsstring * Obj.t (list jsstring)) :=
  fold_left
    (fun acc r =>
       maps <- acc ;;
       let (baseMap, mediaMap) := (maps : Obj.t jsstring * Obj.t (list jsstring)) in
       match decl r "width" with
       | Some w =>
           if truthy w then
             match inMedia r with
             | Some _ =>
                 mediaMap' <- pushTo mediaMap (Parser.selector r) w ;;
                 Ok (baseMap, mediaMap')
             | None => Ok (Obj.assign baseMap (Parser.selector r) w, mediaMap)
             end
           else Ok maps
       | None => Ok maps
       end)
    rs (Ok ([], [])).

Definition widthInstabilityOf (baseMap : Obj.t jsstring)
  (mediaMap : Obj.t (list jsstring)) (sel : jsstring) : list Issue :=
  match Obj.get baseMap sel with
  | None => []
  | Some baseW =>
      if negb (truthy baseW) then []
      else
        let bpx := Re.intPx baseW in
        when (existsb
                (fun mw =>
                   match bpx, Re.intPx mw with
                   | Some b1, Some m1 => negb (JS.eqb b1 m1)
                   | _, _ => false
                   end)
                (getOr mediaMap sel []))
          [mkIssue (str "Media query instability")
             (str "Fixed px width changes across base and media queries")
             (str "Layout width fluctuates unpredictably")
             (str "medium")
             (str "Use fluid widths or harmonize breakpoint widths")
             None None (Some sel)]
  end.

Definition detectMediaWidthInstability (rs : list Rule)
  : result (list Issue) :=
  maps <- widthMaps rs ;;
  Ok (flat_map (widthInstabilityOf (fst maps) (snd maps))
        (Obj.keys (snd maps))).

Definition flexNumber (basis flex : option jsstring) : Num.number :=
  if truthyOpt basis then Re.pxNumber (text basis)
  else if truthyOpt flex then
    match Re.flexBasis (text flex) with
    | Some (ds, fs) => Num.parseFloat ds fs
    | None => Num.NaN
    end
  else Num.NaN.

Definition flexFragilityOf (r : Rule) : list Issue :=
  if negb (hasWord (decl r "display") "flex") then []
  else
    let wrap := decl r "flex-wrap" in
    let basis := decl r "flex-basis" in
    let flex := decl r "flex" in
    let grow := decl r "flex-grow" in
    let shrink := decl r "flex-shrink" in
    when (hasWord wrap "nowrap"
          && (fixedPx basis || (truthyOpt flex && Re.flexRigid (text flex)))
          && shouldReportFixedValue (str "flex-basis") (flexNumber basis flex))
      [mkIssue (str "Non-wrapping fixed flex basis")
         (str "No wrap with fixed basis causes overflow and rigidity")
         (str "Items overflow container on small screens")
         (str "critical")
         (str "Enable wrapping or use responsive flex-basis")
         None None (Some (Parser.selector r))]
    ++ when (negb (truthyOpt wrap))
      [mkIssue (str "Flex container without wrap")
         (str "Flex containers default to nowrap, risking overflow")
         (str "Children overflow on narrow screens")
         (str "medium")
         (str "Set flex-wrap: wrap when widths are rigid")
         None None (Some (Parser.selector r))]
    ++ when (match grow, shrink with
             | Some g, Some s => JS.eqb g (str "0") && JS.eqb s (str "0")
             | _, _ => false
             end
             && fixedPx basis
             && shouldReportFixedValue (str "flex-basis")
                  (Re.pxNumber (text basis)))
      [mkIssue (str "Rigid flex item")
         (str "No growth or shrink with fixed basis reduces flexibility")
         (str "Poor reflow under varying viewport widths")
         (str "medium")
         (str "Allow shrink or use relative basis")
         None None (Some (Parser.selector r))].

Definition detectFlexFragility (rs : list Rule) : list Issue :=
  perRule true flexFragilityOf rs.

(** [extractNums] *)
Definition extractNums (v : option jsstring) : list Num.number :=
  if truthyOpt v then Re.pxNumbersFrom 0 (text v) else [].

(** [v && /\b\d+px\b/.test(v)]: no [i] flag in this detector. *)
Definition fixedPxExact (v : option jsstring) : bool :=
  match v with
  | Some s => truthy s && Re.pxToken false s
  | None => false
  end.

Definition gridRigidityOf (r : Rule) : list Issue :=
  if negb (hasWord (decl r "display") "grid") then []
  else
    let tcols := decl r "grid-template-columns" in
    let acol := decl r "grid-auto-columns" in
    let trows := decl r "grid-template-rows" in
    let report :=
      if JS.eqb modeName (str "pragmatic") then
        existsb (shouldReportFixedValue (str "grid-track"))
          (extractNums tcols ++ extractNums trows ++ extractNums acol)
      else true in
    when ((fixedPxExact tcols || fixedPxExact trows || fixedPxExact acol)
          && report)
      [mkIssue (str "Rigid grid tracks")
         (str "Fixed pixel tracks reduce grid adaptability")
         (str "Grid fails to reflow on narrow or wide screens")
         (str "medium")
         (str "Use fr units or minmax with responsive bounds")
         None None (Some (Parser.selector r))].

Definition detectGridRigidity (rs : list Rule) : list Issue :=
  perRule true gridRigidityOf rs.

Definition absoluteContainmentOf (r : Rule) : list Issue :=
  if negb (hasWord (decl r "position") "absolute") then []
  else
    when (fixedPx (decl r "left") || fixedPx (decl r "right")
          || fixedPx (decl r "top") || fixedPx (decl r "bottom")
          || fixedPx (decl r "width"))
      [mkIssue (str "Absolute positioning rigidity")
         (str "Absolute positions with fixed pixels reduce adaptability")
         (str "Elements misalign under viewport changes")
         (str "medium")
         (str "Prefer relative offsets or responsive units")
         None None (Some (Parser.selector r))].

Definition detectAbsoluteContainment (rs : list Rule) : list Issue :=
  perRule true absoluteContainmentOf rs.

Definition layoutPrefixes : list jsstring :=
  map str ["width"; "height"; "margin"; "padding"; "left"; "right"; "top";
           "bottom"; "flex"; "grid"]%string.

Definition spacingNames : list jsstring :=
  map str ["margin"; "padding"; "gap"]%string.

Definition antiPatternsOfKey (r : Rule) (k : jsstring) : list Issue :=
  let v := text (Obj.get (declarations r) k) in
  when (testCI (str "!important") v
        && existsb (fun p => startsWithCI p k) layoutPrefixes)
    [mkIssue (str "Layout property with !important")
       (str "Important flags on layout hinder responsive overrides")
       (str "Difficult to adapt across breakpoints")
       (str "low")
       (str "Remove !important and use specificity or cascade")
       None None (Some (Parser.selector r))]
  ++ when (existsb (fun p => Re.equalsCI p k) spacingNames
           && Re.pxToken true v
           && shouldReportFixedValue (str "spacing") (Re.pxNumber v))
    [mkIssue (str "Fixed pixel spacing")
       (str "Fixed spacing can break scaling")
       (str "Compressed or expanded layout across devices")
       (str "low")
       (str "Use responsive units or clamp")
       None None (Some (Parser.selector r))].

Definition antiPatternsOf (r : Rule) : list Issue :=
  flat_map (antiPatternsOfKey r) (Obj.keys (declarations r)).

Definition detectAntiPatterns (rs : list Rule) : list Issue :=
  perRule true antiPatternsOf rs.

(** *** Line mapping *)

(** The index of the first element that satisfies [p]. *)
Fixpoint findIndex {A : Type} (p : A -> bool) (l : list A) : option nat :=
  match l with
  | [] => None
  | a :: l' =>
      if p a then Some O
      else match findIndex p l' with Some i => Some (S i) | None => None end
  end.

(** [ln.indexOf(pat, from)] *)
Definition indexOfFrom (ln pat : jsstring) (from : nat) : option nat :=
  match indexOf (skipn from ln) pat with
  | Some i => Some (from + i)
  | None => None
  end.

(** The body of the search loop of [mapIssuesToLines] on one line: the
    columns to highlight when the line has a match. *)
Definition locateIn (prop : option jsstring) (ln : jsstring)
  : option (nat * nat) :=
  let byProperty :=
    match prop with
    | Some p => if truthy p then Re.match0 (Re.propertyHere p) ln else None
    | None => None
    end in
  let found :=
    match byProperty with
    | Some m => Some m
    | None => Re.match0 Re.boundedUnitHere ln
    end in
  match found with
  | None => None
  | Some full =>
      let index := match indexOf ln full with Some i => i | None => O end in
      match Re.match0 Re.boundedUnitHere full with
      | Some unit0 =>
          let unitIndex :=
            match indexOfFrom ln unit0 index with
            | Some i => i
            | None => O
            end in
          Some (unitIndex, unitIndex + length unit0)
      | None => Some (index, index + length full)
      end
  end.

(** [for (let i = lineNumber; i <= endBlockLine; i++)] over the lines from
    [lineNumber] on, [count] of them. *)
Fixpoint searchLines (prop : option jsstring) (lines : list jsstring)
  (i count : nat) : option (nat * (nat * nat)) :=
  match count with
  | O => None
  | S count' =>
      match locateIn prop (nth i lines []) with
      | Some cols => Some (i, cols)
      | None => searchLines prop lines (S i) count'
      end
  end.

Definition mapIssueToLine (lines : list jsstring) (i : Issue) : Located :=
  let sel := match selector i with Some s => s | None => str "undefined" end in
  let lineNumber :=
    match findIndex (fun ln => includes ln sel) lines with
    | Some n => n
    | None => O
    end in
  let endBlockLine :=
    match findIndex (fun ln => includes ln (str "}")) (skipn lineNumber lines)
    with
    | Some n => lineNumber + n
    | None => Nat.min (length lines - 1) (lineNumber + 10)
    end in
  let suggestion := Some (correction i) in
  match searchLines (property i) lines lineNumber
          (S endBlockLine - lineNumber) with
  | Some (targetLine, (startChar, endChar)) =>
      mkLocated i suggestion targetLine
        (mkRange targetLine startChar targetLine endChar)
  | None =>
      mkLocated i suggestion lineNumber
        (mkRange lineNumber 0 lineNumber
           (Nat.max 1 (length (nth lineNumber lines []))))
  end.

Definition mapIssuesToLines (issues : list Issue) (document : Document)
  : list Located :=
  map (mapIssueToLine (split 10 (getText document))) issues.

(** *** The text fallback *)

Definition typeErrorNull : jsstring :=
  str "TypeError: Cannot read properties of null".

Definition textIssue (name : string) (kind expl impact corr : string)
  (i : nat) (ln : jsstring) : result (list Located) :=
  match Re.match0 (Re.namedPxHere (str name ++ [58%N])) ln with
  | None => Ok []
  | Some m0 =>
      match Re.match0 Re.unitHere m0 with
      | None => Throw typeErrorNull
      | Some unit0 =>
          let unitIndex :=
            match indexOf ln unit0 with Some n => n | None => O end in
          Ok [mkLocated
                (mkIssue (str kind) (str expl) (str impact) (str "medium")
                   (str corr) (Some (str name)) (Some m0) None)
                None i (mkRange i unitIndex i (unitIndex + length unit0))]
      end
  end.

Definition textIssuesOfLine (i : nat) (ln : jsstring) : result (list Located) :=
  w <- textIssue "width" "Fixed width"
         "Fixed pixel width reduces responsiveness"
         "Constrained layout on smaller viewports"
         "Use relative units or max-width" i ln ;;
  h <- textIssue "height" "Fixed height"
         "Fixed pixel height can cause overflow"
         "Vertical clipping on shorter viewports"
         "Use min-height or auto with constraints" i ln ;;
  Ok (w ++ h).

Fixpoint textLoop (i : nat) (lines : list jsstring) : result (list Located) :=
  match lines with
  | [] => Ok []
  | ln :: lines' =>
      here <- textIssuesOfLine i ln ;;
      more <- textLoop (S i) lines' ;;
      Ok (here ++ more)
  end.

Definition detectIssuesFromText (css : jsstring) (document : Document)
  : result (list Located) :=
  textLoop 0 (split 10 css).

(** *** [detectIssues] *)

(** The patterns of the filter applied before the detectors run. *)
Definition upfrontPatterns : list jsstring :=
  map toLowerCase (filter (fun s => truthy (trim s)) (ignoreSelectors config)).

Definition upfrontFilter (rs : list Rule) : list Rule :=
  match upfrontPatterns with
  | [] => rs
  | patterns =>
      filter
        (fun r =>
           negb (existsb
                   (fun p => includes (toLowerCase (Parser.selector r)) p)
                   patterns))
        rs
  end.

(** The twelve detectors in the order of the [detectors] array, on the
    rules that passed the filter. *)
Definition runDetectors (rs : list Rule) : result (list Issue) :=
  let d1 := detectFixedDimensions rs in
  let d2 := detectBoxModel rs in
  let d3 := detectOverflowHorizontal rs in
  d4 <- detectMediaConflicts rs ;;
  let d5 := detectOverflowMaskBody rs in
  let d6 := detectVwWidthRisk rs in
  let d7 := detectBreakpointFixedWidth rs in
  d8 <- detectMediaWidthInstability rs ;;
  let d9 := detectFlexFragility rs in
  let d10 := detectGridRigidity rs in
  let d11 := detectAbsoluteContainment rs in
  let d12 := detectAntiPatterns rs in
  Ok (d1 ++ d2 ++ d3 ++ d4 ++ d5 ++ d6 ++ d7 ++ d8 ++ d9 ++ d10 ++ d11
        ++ d12).

Definition usesTextFallback (document : Document) : bool :=
  JS.eqb (languageId document) (str "less")
  || JS.eqb (languageId document) (str "sass").

Definition detectIssues (css : jsstring) (document : Document)
  : result (list Located) :=
  if usesTextFallback document then detectIssuesFromText css document
  else
    let parsed := parseRules toLowerCase css in
    issues <- runDetectors (upfrontFilter (rules parsed)) ;;
    Ok (mapIssuesToLines issues document).

End Engine.

End LintEngine.

(** ** The hover provider ([src/extension/hover-provider.js]) *)

Module HoverProvider.

Definition getCategoryFromType (type : jsstring) : jsstring :=
  if includes type (str "flex") then str "flex"
  else if includes type (str "grid") then str "grid"
  else if includes type (str "overflow") then str "overflow"
  else str "other".

(** The same table and the same default as in the engine. *)
Definition mapToVisualizerIssue (i : LintEngine.Located)
  : result Viz.Issue :=
  if Obj.inherited (LintEngine.issue (LintEngine.base i))
  then Throw LintEngine.typeErrorIncludes
  else
    let type :=
      match Obj.get LintEngine.typeMap (LintEngine.issue (LintEngine.base i))
      with
      | Some type => type
      | None => str "fixed-dimensions"
      end in
    Ok (LintEngine.visualizerIssue i type).

End HoverProvider.

(** ** The classifier of the panel filters ([src/engine/issue-classifier.js]) *)

Module IssueClassifier.

Section Classifier.

Variable toLowerCase : jsstring -> jsstring.

(** [IssueClassifier.getType]; [None] stands for an argument that is not
    a string. *)
Definition getType (issueName : option jsstring) : jsstring :=
  match issueName with
  | None => str "other"
  | Some name =>
      if negb (truthy name) then str "other"
      else
        let n := toLowerCase name in
        if includes n (str "flex") || includes n (str "basis")
        then str "flex"
        else if includes n (str "grid") then str "grid"
        else if includes n (str "overflow") || includes n (str "viewport")
                || includes n (str "100vw")
        then str "overflow"
        else str "other"
  end.

End Classifier.

End IssueClassifier.

(** ** The statistics model (the file that defines [buildStatsModel]) *)

Module StatsModel.

(** Its [typeMap] has one more entry,
    ['Layout property with !important': null]; [None] stands for [null]. *)
Definition typeMap : Obj.t (option jsstring) :=
  map (fun kv => (fst kv, Some (snd kv))) LintEngine.typeMap
  ++ [(str "Layout property with !important", None)].

(** [mapToVisualizerIssue]: [null] when the kind has no type. *)
Definition mapToVisualizerIssue (i : LintEngine.Located)
  : result (option Viz.Issue) :=
  if Obj.inherited (LintEngine.issue (LintEngine.base i))
  then Throw LintEngine.typeErrorIncludes
  else
    match Obj.get typeMap (LintEngine.issue (LintEngine.base i)) with
    | Some (Some type) =>
        if truthy type then Ok (Some (LintEngine.visualizerIssue i type))
        else Ok None
    | _ => Ok None
    end.

(** The [visualization] field of one item of [buildStatsModel]. *)
Definition visualizationOf (instances : AsciiVisualizer.Instances)
  (i : LintEngine.Located) : option jsstring :=
  match mapToVisualizerIssue i with
  | Ok (Some visualizerIssue) =>
      match fst (AsciiVisualizer.generate instances visualizerIssue) with
      | Ok viz => Some (Viz.ascii viz)
      | Throw _ => None
      end
  | _ => None
  end.

(** The [counts] and [typeCounts] objects of [buildStatsModel]. *)
Record Counts : Type := mkCounts {
  critical : nat;
  medium : nat;
  low : nat
}.

Record TypeCounts : Type := mkTypeCounts {
  flex : nat;
  grid : nat;
  overflow : nat;
  other : nat
}.

(** One element of [items]. *)
Record Item : Type := mkItem {
  idx : nat;
  title : jsstring;
  sev : jsstring;
  line : nat;
  type : jsstring;
  explanation : jsstring;
  viewportImpact : jsstring;
  suggestion : jsstring;
  visualization : option jsstring
}.

Record Model : Type := mkModel {
  counts : Counts;
  typeCounts : TypeCounts;
  items : list Item
}.

(** [counts[s]++] when [counts[s] !== undefined].  Under any other name
    none of the three counters changes. *)
Definition countSeverity (c : Counts) (s : jsstring) : Counts :=
  if JS.eqb s (str "critical")
  then mkCounts (S (critical c)) (medium c) (low c)
  else if JS.eqb s (str "medium")
  then mkCounts (critical c) (S (medium c)) (low c)
  else if JS.eqb s (str "low")
  then mkCounts (critical c) (medium c) (S (low c))
  else c.

(** [typeCounts[t]++] when [typeCounts[t] !== undefined]. *)
Definition countType (c : TypeCounts) (t : jsstring) : TypeCounts :=
  if JS.eqb t (str "flex")
  then mkTypeCounts (S (flex c)) (grid c) (overflow c) (other c)
  else if JS.eqb t (str "grid")
  then mkTypeCounts (flex c) (S (grid c)) (overflow c) (other c)
  else if JS.eqb t (str "overflow")
  then mkTypeCounts (flex c) (grid c) (S (overflow c)) (other c)
  else if JS.eqb t (str "other")
  then mkTypeCounts (flex c) (grid c) (overflow c) (S (other c))
  else c.

Section Stats.

Variable toLowerCase : jsstring -> jsstring.

(** The [getType] method of the [classifier] argument, when it has one. *)
Variable classifier : option (option jsstring -> jsstring).

(** The local [getType] of [buildStatsModel]. *)
Definition getType (name : jsstring) : jsstring :=
  match classifier with
  | Some classifierGetType => classifierGetType (Some name)
  | None =>
      let n := toLowerCase name in
      if includes n (str "flex") || includes n (str "basis") then str "flex"
      else if includes n (str "grid") then str "grid"
      else if includes n (str "overflow") || includes n (str "viewport")
              || includes n (str "100vw")
      then str "overflow"
      else str "other"
  end.

(** [String(i.severity || '').toLowerCase()] *)
Definition severityOf (i : LintEngine.Located) : jsstring :=
  toLowerCase (LintEngine.severity (LintEngine.base i)).

(** The body of the counting loop. *)
Definition countIssue (acc : Counts * TypeCounts) (i : LintEngine.Located)
  : Counts * TypeCounts :=
  (countSeverity (fst acc) (severityOf i),
   countType (snd acc) (getType (LintEngine.issue (LintEngine.base i)))).

(** The [try] block of one item, on the visualizer shared by all items:
    the [visualization] field and the instances afterwards. *)
Definition visualize (instances : AsciiVisualizer.Instances)
  (i : LintEngine.Located) : option jsstring * AsciiVisualizer.Instances :=
  match mapToVisualizerIssue i with
  | Ok (Some visualizerIssue) =>
      let (outcome, instances') :=
        AsciiVisualizer.generate instances visualizerIssue in
      (match outcome with
       | Ok viz => Some (Viz.ascii viz)
       | Throw _ => None
       end, instances')
  | _ => (None, instances)
  end.

(** [(issues || []).map((i, idx) => ...)] *)
Fixpoint itemsFrom (index : nat) (instances : AsciiVisualizer.Instances)
  (issues : list LintEngine.Located) : list Item :=
  match issues with
  | [] => []
  | i :: rest =>
      let (visualization0, instances') := visualize instances i in
      mkItem index
        (LintEngine.issue (LintEngine.base i))
        (severityOf i)
        (LintEngine.lineNumber i)
        (getType (LintEngine.issue (LintEngine.base i)))
        (LintEngine.explanation (LintEngine.base i))
        (LintEngine.viewportImpact (LintEngine.base i))
        (if truthyOpt (LintEngine.suggestion i)
         then Viz.show (LintEngine.suggestion i)
         else LintEngine.correction (LintEngine.base i))
        visualization0
      :: itemsFrom (S index) instances' rest
  end.

Definition buildStatsModel (issues : list LintEngine.Located) : Model :=
  let totals :=
    fold_left countIssue issues
      (mkCounts 0 0 0, mkTypeCounts 0 0 0 0) in
  mkModel (fst totals) (snd totals) (itemsFrom 0 [] issues).

End Stats.

End StatsModel.

(** ** The template cache and engine (the file that defines [TemplateCache]) *)

Module TemplateCache.

(** A [Map] from strings to strings, in insertion order. *)
Definition Entries : Type := Obj.t jsstring.

(** [Map.prototype.delete] *)
Fixpoint delete (m : Entries) (key : jsstring) : Entries :=
  match m with
  | [] => []
  | (k, v) :: m' => if JS.eqb key k then m' else (k, v) :: delete m' key
  end.

Record t : Type := mkCache { cache : Entries; maxSize : nat }.


(** [get]: the value, or [undefined], and the cache afterwards. *)
Definition get (c : t) (key : jsstring) : option jsstring * t :=
  if negb (Obj.has (cache c) key) then (None, c)
  else
    match Obj.get (cache c) key with
    | Some value =>
        (Some value,
         mkCache (Obj.set (delete (cache c) key) key value) (maxSize c))
    | None => (None, c)
    end.

Definition set (c : t) (key value : jsstring) : t :=
  let m1 := if Obj.has (cache c) key then delete (cache c) key else cache c in
  let m2 :=
    if (maxSize c <=? length m1)%nat then
      match m1 with
      | (firstKey, _) :: _ => delete m1 firstKey
      | [] => m1
      end
    else m1 in
  mkCache (Obj.set m2 key value) (maxSize c).

Definition has (c : t) (key : jsstring) : bool := Obj.has (cache c) key.

Definition clear (c : t) : t := mkCache [] (maxSize c).


End TemplateCache.

Module TemplateEngine.


Definition clearCache (c : TemplateCache.t) : TemplateCache.t :=
  TemplateCache.clear c.

End TemplateEngine.

(** ** Notions used in the statements *)

(** An issue carries the selector of one of the rules [rs]. *)
Definition belongsTo (rs : list Parser.Rule) (i : LintEngine.Issue) : Prop :=
  exists r, In r rs /\ LintEngine.selector i = Some (Parser.selector r).

(** The width [truncate] charges for a list of [char]s. *)
Definition charge (cs : list jsstring) : nat :=
  fold_right
    (fun char n =>
       (if TextFormatter.isEmoji (TextFormatter.codePointAt0 char)
        then 2 else 1) + n)
    0 cs.

(** The [char]s the loop of [truncate] keeps; [TextFormatter.take] is
    their concatenation. *)
Fixpoint kept (targetLength currentLength : nat) (cs : list jsstring)
  : list jsstring :=
  match cs with
  | [] => []
  | char :: cs' =>
      let charLength :=
        if TextFormatter.isEmoji (TextFormatter.codePointAt0 char)
        then 2 else 1 in
      if (targetLength <? currentLength + charLength)%nat then []
      else char :: kept targetLength (currentLength + charLength) cs'
  end.

(** A code unit as a [char] of its own. *)
Definition single (c : N) : jsstring := [c].

(** [c] does not form a surrogate pair with the unit after it. *)
Definition noPair (c : N) (s : jsstring) : Prop :=
  match s with
  | [] => True
  | d :: _ => TextFormatter.isHigh c && TextFormatter.isLow d = false
  end.


(** The two measurement texts of a diagram, before padding. *)
Definition beforeText (issue : Viz.Issue) : jsstring :=
  str "  " ++ [EMOJI.PROBLEM] ++ str " "
  ++ (Viz.show (Viz.property issue) ++ str ": " ++ Viz.show (Viz.value issue)).

Definition afterText (issue : Viz.Issue) : jsstring :=
  [EMOJI.SOLUTION] ++ str " " ++ BaseGenerator.suggestionOf issue.


(** A rule as it is written: the selector text, the declarations between
    braces. *)
Definition ruleText (block : jsstring * jsstring) : jsstring :=
  fst block ++ str "{" ++ snd block ++ str "}".

Definition sheetText (blocks : list (jsstring * jsstring)) : jsstring :=
  concat (map ruleText blocks).

(** The rule [parseRules] is expected to read from [ruleText block]. *)
Definition ruleOf (toLowerCase : jsstring -> jsstring)
  (at0 : option Parser.AtRule) (block : jsstring * jsstring) : Parser.Rule :=
  Parser.mkRule (trim (fst block))
    (Parser.parseDeclarations toLowerCase (snd block)) at0.

(** The issue kinds the detectors emit: the keys of [typeMap] and one
    more. *)
Definition knownKinds : list jsstring :=
  map fst LintEngine.typeMap ++ [str "Layout property with !important"].

Definition wellFormedIssue (i : LintEngine.Issue) : bool :=
  existsb (JS.eqb (LintEngine.issue i)) knownKinds
  && existsb (JS.eqb (LintEngine.severity i))
       (map str ["critical"; "medium"; "low"]%string)
  && Re.isSome (LintEngine.selector i).

(** No selector and no declaration name of the rules is the name of a
    member of [Object.prototype]. *)
Definition plainNames (rs : list Parser.Rule) : Prop :=
  forall r, In r rs ->
    Obj.inherited (Parser.selector r) = false
    /\ forall k, In k (map fst (Parser.declarations r)) ->
                 Obj.inherited k = false.

(** The two loops of [propsOf]: over the declaration names of a block,
    and over the blocks. *)
Definition pushKey (b : Parser.Rule)
  (acc : result (Obj.t (list jsstring))) (k : jsstring)
  : result (Obj.t (list jsstring)) :=
  o <- acc ;;
  LintEngine.pushTo o k (LintEngine.text (Obj.get (Parser.declarations b) k)).

Definition pushKeys (acc : result (Obj.t (list jsstring))) (b : Parser.Rule)
  : result (Obj.t (list jsstring)) :=
  fold_left (pushKey b) (Obj.keys (Parser.declarations b)) acc.

(** An issue of the text fallback for the line [ln] at index [i]: what
    [textIssue] builds when the pattern of [name] matches. *)
Definition textReport (name kind : string) (i : nat) (ln : jsstring)
  (loc : LintEngine.Located) : Prop :=
  LintEngine.issue (LintEngine.base loc) = str kind
  /\ LintEngine.severity (LintEngine.base loc) = str "medium"
  /\ LintEngine.property (LintEngine.base loc) = Some (str name)
  /\ LintEngine.value (LintEngine.base loc)
     = Re.match0 (Re.namedPxHere (str name ++ [58%N])) ln
  /\ LintEngine.value (LintEngine.base loc) <> None
  /\ LintEngine.selector (LintEngine.base loc) = None
  /\ LintEngine.suggestion loc = None
  /\ LintEngine.lineNumber loc = i
  /\ LintEngine.startLine (LintEngine.range loc) = i
  /\ LintEngine.endLine (LintEngine.range loc) = i.

(** The issue the text fallback reports for [Scenario.lessCss]. *)
Definition lessIssue : LintEngine.Located :=
  LintEngine.mkLocated
    (LintEngine.mkIssue (str "Fixed width")
       (str "Fixed pixel width reduces responsiveness")
       (str "Constrained layout on smaller viewports")
       (str "medium") (str "Use relative units or max-width")
       (Some (str "width")) (Some (str "width: 10px")) None)
    None 0 (LintEngine.mkRange 0 15 0 19).

(** A text without a high surrogate and without a line feed. *)
Definition plainUnit (c : N) : bool :=
  negb (TextFormatter.isHigh c) && negb (c =? 10)%N.

Definition plainText (s : jsstring) : bool := forallb plainUnit s.

(** The [generate] methods of the twelve generator classes, as written. *)
Definition generateMethods : list (Viz.Issue -> Viz.Visualization) :=
  [ FixedDimensionsGenerator.generate; ViewportOverflowGenerator.generate;
    FlexFragilityGenerator.generate; GridRigidityGenerator.generate;
    FixedSpacingGenerator.generate; MediaInstabilityGenerator.generate;
    OverflowMaskingGenerator.generate; BreakpointExceededGenerator.generate;
    AbsoluteRigidityGenerator.generate; BoxInconsistencyGenerator.generate;
    OverflowHorizontalGenerator.generate; NowrapFixedGenerator.generate ].

(** The instances a visualizer can hold when only [generate] has filled
    them: generators made by the factories of their types. *)
Definition loadedInstances (instances : AsciiVisualizer.Instances) : Prop :=
  forall type g,
    Obj.get instances type = Some g ->
    exists gen,
      AsciiVisualizer.factory type = Some (AsciiVisualizer.Class gen)
      /\ g = (fun issue => Ok (gen issue)).

(** An issue whose [property] is absent or an identifier: ASCII letters,
    digits, ["_"] and ["-"].  Such a text stands for itself in a regular
    expression.  The detectors set ['width'], ['height'] or no property. *)
Definition identifierProperty (i : LintEngine.Issue) : bool :=
  match LintEngine.property i with
  | Some p => forallb (fun c => isWord c || (c =? 45)%N) p
  | None => true
  end.

(** A style sheet as it is written: rules, and media blocks that are
    closed, each after a gap of white space. *)
Inductive Item : Type :=
| Plain (block : jsstring * jsstring)
| Media (gap cond : jsstring) (inner : list (jsstring * jsstring)).













(** ** Inputs of the scenarios *)

Module Scenario.

(** [String.prototype.toLowerCase] on text whose units are all ASCII. *)
Definition toLowerCaseAscii (s : jsstring) : jsstring := map lowerUnit s.

Definition cardCss : jsstring :=
  str ".card { width: 500px; height: 300px; }".

Definition contentCss : jsstring :=
  str "@media (max-width: 768px) { .content { width: 900px; } }".

Definition narrowCss : jsstring :=
  str "@media (max-width: 768px) { .content { width: 700px; } }".

Definition baseCss : jsstring := str ".content { width: 900px; }".

Definition fractionalCss : jsstring :=
  str "@media (max-width: 768px) { .content { width: 900.5px; } }".

Definition mixedCss : jsstring :=
  str ".a { box-sizing: border-box; } .skip { box-sizing: content-box; }".

Definition lessCss : jsstring := str ".card { width: 10px; }".

Definition danglingCss : jsstring := str "a { x: 1 } b { y: 2".

Definition openMediaCss : jsstring :=
  str "a { x: 1 } @media screen { .c { width: 9px; } b { y: 2 ".

Definition importantCss : jsstring := str ".a { margin: 0 !important; }".

Definition pragmaticConfig : LintEngine.Config :=
  LintEngine.mkConfig (str "pragmatic") (320 # 1) (320 # 1) (24 # 1)
    [str "card"].

Definition skippingConfig : LintEngine.Config :=
  LintEngine.mkConfig (str "strict") (320 # 1) (320 # 1) (24 # 1)
    [str "skip"].

Definition document (languageId : string) (text : jsstring)
  : LintEngine.Document :=
  LintEngine.mkDocument (str languageId) text.

Definition vizIssue (type severity : string) (line : Z)
  (selector property : string) (value : jsstring) (suggestion category : string)
  : Viz.Issue :=
  Viz.mkIssue (Some (str type)) (Some (str severity)) (Some line)
    (Some (str selector)) (Some (str property)) (Some value)
    (Some (str suggestion)) (Some (str category)).

(** The issue of Scenario 5 and of the integration test. *)
Definition cardIssue : Viz.Issue :=
  vizIssue "fixed-dimensions" "critical" 42 ".card" "width" (str "600px")
    "max-width: 100%" "other".

(** The [grid-rigidity] issue of the integration test. *)
Definition gridIssue : Viz.Issue :=
  vizIssue "grid-rigidity" "medium" 35 ".grid" "grid-template-columns"
    (str "repeat(4, 200px)") "repeat(auto-fit, minmax(200px, 1fr))" "grid".

(** The [viewport-overflow] issue of the integration test. *)
Definition heroIssue : Viz.Issue :=
  vizIssue "viewport-overflow" "critical" 15 "#hero" "width" (str "1200px")
    "max-width: 100vw" "overflow".

(** A width value written over thirteen lines, as
    [.a { width: a<12 line breaks>1px; }] gives it. *)
Definition brokenValue : jsstring :=
  str "a" ++ repeat 10%N 12 ++ str "1px".

Definition brokenCss : jsstring :=
  str ".a { width: " ++ brokenValue ++ str "; }".

Definition brokenIssue : Viz.Issue :=
  vizIssue "fixed-dimensions" "medium" 12 ".a" "width" brokenValue
    "Use relative units or max-width" "other".

(** The issue [detectAntiPatterns] emits for [importantCss], located. *)
Definition importantIssue : LintEngine.Located :=
  LintEngine.mkLocated
    (LintEngine.mkIssue (str "Layout property with !important")
       (str "Important flags on layout hinder responsive overrides")
       (str "Difficult to adapt across breakpoints")
       (str "low")
       (str "Remove !important and use specificity or cascade")
       None None (Some (str ".a")))
    (Some (str "Remove !important and use specificity or cascade"))
    0 (LintEngine.mkRange 0 0 0 28).

(** The lines of a diagram, as the size test counts them. *)
Definition linesOf (v : Viz.Visualization) : list jsstring :=
  split 10 (Viz.ascii v).

End Scenario.

(** * Properties *)

Unset Implicit Arguments.

(** ** Strings *)

Lemma eqb_refl (a : jsstring) : JS.eqb a a = true.
Proof.
  induction a as [|x a IH]; simpl; [reflexivity|].
  now rewrite N.eqb_refl, IH.
Qed.

Lemma eqb_eq (a b : jsstring) : JS.eqb a b = true <-> a = b.
Proof.
  split; [|intros ->; apply eqb_refl].
  revert b; induction a as [|x a IH]; intros [|y b]; simpl; try discriminate.
  - reflexivity.
  - intros H. apply andb_true_iff in H as [Hx Hab].
    apply N.eqb_eq in Hx. now rewrite Hx, (IH b Hab).
Qed.

(** ** The threshold policy *)

Lemma gtQ_lt (a b : Q) : Num.gtQ a b = true <-> (b < a)%Q.
Proof.
  unfold Num.gtQ. rewrite negb_true_iff.
  split.
  - intros H. apply Qnot_le_lt. intros Hle.
    apply Qle_bool_iff in Hle. congruence.
  - intros H. destruct (Qle_bool a b) eqn:E; [|reflexivity].
    apply Qle_bool_iff in E. exfalso. exact (Qlt_not_le _ _ H E).
Qed.

Lemma orZero_eq (x : Q) : (LintEngine.orZero x == x)%Q.
Proof.
  unfold LintEngine.orZero. destruct (Qeq_bool x 0) eqn:E.
  - apply Qeq_bool_iff in E. now symmetry.
  - reflexivity.
Qed.

Lemma gt_threshold (q t : Q) :
  Num.gt (Num.Finite q) (Num.Finite (LintEngine.orZero t)) = true
  <-> (t < q)%Q.
Proof.
  simpl. rewrite gtQ_lt. now rewrite orZero_eq.
Qed.

Lemma gt_threshold_self (t : Q) :
  Num.gt (Num.Finite t) (Num.Finite (LintEngine.orZero t)) = false.
Proof.
  destruct (Num.gt _ _) eqn:E; [|reflexivity].
  apply gt_threshold in E. exfalso. exact (Qlt_irrefl _ E).
Qed.

Section ThresholdPolicy.

Variable toLowerCase : jsstring -> jsstring.

Hypothesis toLowerCase_ascii :
  forall s, Forall (fun c => (c < 128)%N) s -> toLowerCase s = map lowerUnit s.

Ltac ascii_literal := repeat constructor.

Lemma modeName_strict (cfg : LintEngine.Config) :
  LintEngine.mode cfg = str "strict" ->
  LintEngine.modeName toLowerCase cfg = str "strict".
Proof.
  intros H. unfold LintEngine.modeName. rewrite H. simpl.
  rewrite toLowerCase_ascii by ascii_literal. reflexivity.
Qed.

Lemma modeName_pragmatic (cfg : LintEngine.Config) :
  LintEngine.mode cfg = str "pragmatic" ->
  LintEngine.modeName toLowerCase cfg = str "pragmatic".
Proof.
  intros H. unfold LintEngine.modeName. rewrite H. simpl.
  rewrite toLowerCase_ascii by ascii_literal. reflexivity.
Qed.

(** C1.  In strict mode [shouldReportFixedValue] answers [true] for every
    kind and every value; in pragmatic mode it answers [true] for every
    value that is not finite, and for a finite value [q] it answers [true]
    exactly when [q] is strictly above the threshold of the kind: the
    width threshold for [width], [flex-basis] and [grid-track], the height
    threshold for [height], the spacing threshold for [spacing].  A value
    equal to the threshold is not reported. *)
Theorem shouldReportFixedValue_threshold (cfg : LintEngine.Config) :
  let report := LintEngine.shouldReportFixedValue toLowerCase cfg in
  (LintEngine.mode cfg = str "strict" ->
   forall kind v, report kind v = true)
  /\ (LintEngine.mode cfg = str "pragmatic" ->
      (forall kind v, Num.isFinite v = false -> report kind v = true)
      /\ (forall kind q,
            In kind [str "width"; str "flex-basis"; str "grid-track"] ->
            (report kind (Num.Finite q) = true
             <-> (LintEngine.fixedWidthThreshold cfg < q)%Q)
            /\ report kind (Num.Finite (LintEngine.fixedWidthThreshold cfg))
               = false)
      /\ (forall q,
            (report (str "height") (Num.Finite q) = true
             <-> (LintEngine.fixedHeightThreshold cfg < q)%Q)
            /\ report (str "height")
                 (Num.Finite (LintEngine.fixedHeightThreshold cfg)) = false)
      /\ (forall q,
            (report (str "spacing") (Num.Finite q) = true
             <-> (LintEngine.fixedSpacingThreshold cfg < q)%Q)
            /\ report (str "spacing")
                 (Num.Finite (LintEngine.fixedSpacingThreshold cfg)) = false)).
Proof.
  intros report. subst report. unfold LintEngine.shouldReportFixedValue.
  split.
  - intros Hmode kind v. now rewrite (modeName_strict cfg Hmode).
  - intros Hmode. rewrite (modeName_pragmatic cfg Hmode).
    change (JS.eqb (str "pragmatic") (str "strict")) with false. cbv iota.
    split; [|split; [|split]].
    + intros kind v Hv. now rewrite Hv.
    + intros kind q Hkind. simpl Num.isFinite. cbv iota.
      assert (Hk : JS.eqb kind (str "width") || JS.eqb kind (str "grid-track")
                   || JS.eqb kind (str "flex-basis") = true).
      { destruct Hkind as [<-|[<-|[<-|[]]]]; reflexivity. }
      rewrite Hk. split; [apply gt_threshold | apply gt_threshold_self].
    + intros q. simpl Num.isFinite. cbv iota.
      change (JS.eqb (str "height") (str "width")
              || JS.eqb (str "height") (str "grid-track")
              || JS.eqb (str "height") (str "flex-basis")) with false.
      change (JS.eqb (str "height") (str "height")) with true. cbv iota.
      split; [apply gt_threshold | apply gt_threshold_self].
    + intros q. simpl Num.isFinite. cbv iota.
      change (JS.eqb (str "spacing") (str "width")
              || JS.eqb (str "spacing") (str "grid-track")
              || JS.eqb (str "spacing") (str "flex-basis")) with false.
      change (JS.eqb (str "spacing") (str "height")) with false.
      change (JS.eqb (str "spacing") (str "spacing")) with true. cbv iota.
      split; [apply gt_threshold | apply gt_threshold_self].
Qed.

End ThresholdPolicy.

Lemma shouldReportFixedValue_threshold_witness :
  LintEngine.shouldReportFixedValue Scenario.toLowerCaseAscii
    Scenario.pragmaticConfig (str "width") (Num.Finite (321 # 1)) = true
  /\ LintEngine.shouldReportFixedValue Scenario.toLowerCaseAscii
       Scenario.pragmaticConfig (str "width") (Num.Finite (320 # 1)) = false.
Proof.
  pose proof (shouldReportFixedValue_threshold Scenario.toLowerCaseAscii
                (fun s _ => eq_refl) Scenario.pragmaticConfig) as [_ H].
  destruct (H eq_refl) as (_ & Hwidth & _).
  destruct (Hwidth (str "width") (321 # 1)%Q (or_introl eq_refl)) as [Hiff Hat].
  split.
  - apply Hiff. reflexivity.
  - exact Hat.
Defined.

(** ** The detectors on the scenarios *)

(** C2.  For [.card { width: 500px; height: 300px; }] in strict mode, the
    default, [detectFixedDimensions] emits exactly three issues: "Fixed
    width" (medium), "Fixed height" (medium) and "Fixed box dimensions"
    (critical), each with selector [.card]. *)
Theorem detectFixedDimensions_card :
  let rs :=
    Parser.rules (Parser.parseRules Scenario.toLowerCaseAscii Scenario.cardCss) in
  let issues :=
    LintEngine.detectFixedDimensions Scenario.toLowerCaseAscii
      LintEngine.defaultConfig rs in
  LintEngine.mode LintEngine.defaultConfig = str "strict"
  /\ map (fun i => (LintEngine.issue i, LintEngine.severity i,
                    LintEngine.selector i)) issues
     = [ (str "Fixed width", str "medium", Some (str ".card"));
         (str "Fixed height", str "medium", Some (str ".card"));
         (str "Fixed box dimensions", str "critical", Some (str ".card")) ]
  /\ length issues = 3.
Proof.
  vm_compute. repeat split; reflexivity.
Qed.

(** C3, on the code.  For Scenario 2 [detectBreakpointFixedWidth] emits one
    critical "Fixed width exceeds breakpoint" issue for [.content], and it
    emits nothing for the same rule outside a media block or with a width
    of [700px].  For a width of [900.5px] under the same [768px]
    breakpoint it emits nothing either: [(\d+)px] reads the width as [5],
    while [detectFixedDimensions] reads it as [900.5]. *)
Theorem detectBreakpointFixedWidth_scenarios :
  let detect css :=
    LintEngine.detectBreakpointFixedWidth Scenario.toLowerCaseAscii
      LintEngine.defaultConfig
      (Parser.rules (Parser.parseRules Scenario.toLowerCaseAscii css)) in
  detect Scenario.contentCss = [LintEngine.breakpointIssue (str ".content")]
  /\ LintEngine.severity (LintEngine.breakpointIssue (str ".content"))
     = str "critical"
  /\ detect Scenario.baseCss = []
  /\ detect Scenario.narrowCss = []
  /\ detect Scenario.fractionalCss = []
  /\ Re.intPx (str "900.5px") = Some (str "5")
  /\ Qeq_bool
       (match Re.pxNumber (str "900.5px") with
        | Num.Finite q => q
        | _ => 0%Q
        end) (1801 # 2)%Q = true.
Proof.
  vm_compute. repeat split; reflexivity.
Qed.

(** ** The conversion of issues *)

(** C9, on the code.  For the kind "Layout property with !important" the
    statistics model answers [null], so no diagram is made, while the
    engine and the hover provider substitute the type [fixed-dimensions]
    and a diagram of that type is generated. *)
Theorem mapToVisualizerIssue_unmapped :
  StatsModel.mapToVisualizerIssue Scenario.importantIssue = Ok None
  /\ StatsModel.visualizationOf [] Scenario.importantIssue = None
  /\ (exists v,
        LintEngine.mapToVisualizerIssue Scenario.importantIssue = Ok v
        /\ Viz.type v = Some (str "fixed-dimensions")
        /\ exists diagram,
             fst (AsciiVisualizer.generate [] v) = Ok diagram
             /\ Viz.height diagram = 9)
  /\ HoverProvider.mapToVisualizerIssue Scenario.importantIssue
     = LintEngine.mapToVisualizerIssue Scenario.importantIssue.
Proof.
  repeat split; try reflexivity.
  eexists. repeat split; try reflexivity.
  eexists. split; vm_compute; reflexivity.
Qed.

(** ** The visualizer *)

(** C7, on the code.  For the [viewport-overflow] issue of the integration
    test, a valid issue, [generate] does not return: the factory runs
    before the [try] block and [require] of the generator module throws.
    The same holds for [fixed-spacing] and [overflow-horizontal]. *)
Theorem generate_throws_on_malformed_module :
  AsciiVisualizer.isValidIssue Scenario.heroIssue = true
  /\ AsciiVisualizer.generate [] Scenario.heroIssue
     = (Throw AsciiVisualizer.syntaxError, [])
  /\ forall type,
       In type ["viewport-overflow"; "fixed-spacing"; "overflow-horizontal"]%string ->
       fst (AsciiVisualizer.generate []
              (Scenario.vizIssue type "medium" 1 ".test" "width" (str "100px")
                 "test" "other"))
       = Throw AsciiVisualizer.syntaxError.
Proof.
  split; [reflexivity|]. split; [reflexivity|].
  intros type [<-|[<-|[<-|[]]]]; reflexivity.
Qed.

(** C5, on the code.  The diagram of a valid [fixed-dimensions] issue whose
    value holds twelve line breaks has 21 lines, while its [height] field
    says 9. *)
Theorem generate_more_than_twenty_lines :
  AsciiVisualizer.isValidIssue Scenario.brokenIssue = true
  /\ exists diagram,
       fst (AsciiVisualizer.generate [] Scenario.brokenIssue) = Ok diagram
       /\ length (Scenario.linesOf diagram) = 21
       /\ Viz.height diagram = 9.
Proof.
  split; [reflexivity|].
  eexists. split; [reflexivity|]. split; vm_compute; reflexivity.
Qed.

(** ** Regular expressions: what a match tells about the text *)

Lemma span_app (p : N -> bool) (s a b : jsstring) :
  Parser.span p s = (a, b) -> s = a ++ b.
Proof.
  revert a b; induction s as [|c s IH]; simpl; intros a b H.
  - now inversion H.
  - destruct (p c).
    + destruct (Parser.span p s) as [a' b'] eqn:E.
      inversion H; subst. simpl. f_equal. now apply IH.
    + now inversion H.
Qed.

Lemma span_all (p : N -> bool) (s a b : jsstring) :
  Parser.span p s = (a, b) -> Forall (fun c => p c = true) a.
Proof.
  revert a b; induction s as [|c s IH]; simpl; intros a b H.
  - inversion H. constructor.
  - destruct (p c) eqn:Hc.
    + destruct (Parser.span p s) as [a' b'] eqn:E.
      inversion H; subst. constructor; [assumption|]. eapply IH. reflexivity.
    + inversion H. constructor.
Qed.

Lemma span_stop (p : N -> bool) (s a b : jsstring) (c : N) :
  Parser.span p s = (a, c :: b) -> p c = false.
Proof.
  revert a; induction s as [|d s IH]; simpl; intros a H.
  - inversion H.
  - destruct (p d) eqn:Hd.
    + destruct (Parser.span p s) as [a' b'] eqn:E.
      inversion H; subst. eapply IH. reflexivity.
    + inversion H; subst. assumption.
Qed.

Lemma span_until (p : N -> bool) (a b : jsstring) :
  Forall (fun c => p c = true) a ->
  match b with c :: _ => p c = false | [] => True end ->
  Parser.span p (a ++ b) = (a, b).
Proof.
  intros Ha Hb. induction Ha as [|c a Hc Ha IH]; simpl.
  - destruct b as [|c b]; [reflexivity|]. simpl. now rewrite Hb.
  - now rewrite Hc, IH.
Qed.

Lemma digits_spec (s ds s1 : jsstring) :
  Re.digits s = Some (ds, s1) ->
  s = ds ++ s1 /\ ds <> [] /\ Forall (fun c => isDigit c = true) ds
  /\ match s1 with c :: _ => isDigit c = false | [] => True end.
Proof.
  unfold Re.digits. destruct (Parser.span isDigit s) as [a b] eqn:E.
  destruct a as [|d a]; [discriminate|]. intros H. inversion H; subst.
  repeat split.
  - now apply span_app in E.
  - discriminate.
  - now apply span_all in E.
  - destruct s1 as [|c s1]; [exact I|]. now apply span_stop in E.
Qed.

Lemma digits_until (ds s1 : jsstring) :
  ds <> [] -> Forall (fun c => isDigit c = true) ds ->
  match s1 with c :: _ => isDigit c = false | [] => True end ->
  Re.digits (ds ++ s1) = Some (ds, s1).
Proof.
  intros Hne Hds Hs1. unfold Re.digits. rewrite (span_until isDigit ds s1 Hds Hs1).
  destruct ds; [contradiction|reflexivity].
Qed.

Lemma px_spec (ci : bool) (s rest : jsstring) :
  Re.px ci s = Some rest ->
  exists p x, s = p :: x :: rest /\ Re.px ci [p; x] = Some [].
Proof.
  destruct s as [|p [|x s]]; simpl; try discriminate.
  destruct ci.
  - destruct (Re.isP p && Re.isX x) eqn:E; [|discriminate].
    intros H; inversion H; subst. exists p, x. now rewrite E.
  - destruct ((p =? 112)%N && (x =? 120)%N) eqn:E; [|discriminate].
    intros H; inversion H; subst. exists p, x. now rewrite E.
Qed.

Lemma px_not_digit (p x : N) (rest : jsstring) :
  Re.px true (p :: x :: rest) <> None ->
  isDigit p = false /\ isSpace p = false /\ p <> 46%N.
Proof.
  simpl. destruct (Re.isP p) eqn:Hp; simpl; [|congruence].
  intros _. unfold Re.isP, eqbCI in Hp. apply N.eqb_eq in Hp.
  unfold lowerUnit in Hp. simpl in Hp.
  destruct (isUpper p) eqn:Hu.
  - assert (p = 80%N) by lia. subst. repeat split; try reflexivity. discriminate.
  - subst p. repeat split; try reflexivity. discriminate.
Qed.

(** The text matched from the first digit on is a match of the unit
    pattern on its own. *)
Lemma unit_inside_named (u ds s1 rest : jsstring) :
  Re.digits u = Some (ds, s1) ->
  Re.fraction s1 (fun _ s2 => Re.px true s2) = Some rest ->
  exists m, u = m ++ rest /\ forall pw, Re.unitHere pw m = Some [].
Proof.
  intros Hd Hf. apply digits_spec in Hd as (Hu & Hne & Hds & Hstop).
  assert (Hplain : forall s, Re.px true s = Some rest ->
            s1 = s -> exists m, u = m ++ rest /\ forall pw, Re.unitHere pw m = Some []).
  { intros s Hpx <-. apply px_spec in Hpx as (p & x & -> & Hpx).
    destruct (px_not_digit p x [] ltac:(rewrite Hpx; discriminate))
      as (Hpd & Hps & Hp46).
    exists (ds ++ [p; x]). split.
    - rewrite Hu, <- app_assoc. reflexivity.
    - intros pw. unfold Re.unitHere.
      rewrite (digits_until ds [p; x] Hne Hds Hpd).
      unfold Re.fraction.
      destruct p as [|pp]; [discriminate|].
      destruct (N.eq_dec (N.pos pp) 46) as [E|E]; [contradiction|].
      assert (Hk : Re.px true (trimStart [N.pos pp; x]) = Some []).
      { simpl trimStart. rewrite Hps. exact Hpx. }
      destruct pp as [pp|pp|]; try exact Hk;
        repeat (destruct pp as [pp|pp|]; try exact Hk); contradiction. }
  unfold Re.fraction in Hf.
  destruct s1 as [|c s1']; [now apply (Hplain [])|].
  destruct (N.eq_dec c 46) as [->|Hc].
  - destruct (Re.digits s1') as [[fs s2]|] eqn:Hfd.
    + destruct (Re.px true s2) as [r|] eqn:Hpx.
      * inversion Hf; subst r. clear Hplain.
        apply digits_spec in Hfd as (Hs1' & Hfne & Hfs & _).
        apply px_spec in Hpx as (p & x & -> & Hpx).
        destruct (px_not_digit p x [] ltac:(rewrite Hpx; discriminate))
          as (Hpd & Hps & Hp46).
        exists (ds ++ 46%N :: fs ++ [p; x]). split.
        -- rewrite Hu, Hs1'. rewrite <- !app_assoc. simpl.
           rewrite <- !app_assoc. reflexivity.
        -- intros pw. unfold Re.unitHere.
           rewrite (digits_until ds (46%N :: fs ++ [p; x]) Hne Hds eq_refl).
           unfold Re.fraction.
           rewrite (digits_until fs [p; x] Hfne Hfs Hpd).
           simpl trimStart. rewrite Hps. now rewrite Hpx.
      * now apply (Hplain (46%N :: s1')).
    + now apply (Hplain (46%N :: s1')).
  - assert (Hf' : Re.px true (c :: s1') = Some rest).
    { destruct c as [|pc]; [exact Hf|].
      destruct pc as [pc|pc|]; try exact Hf;
        repeat (destruct pc as [pc|pc|]; try exact Hf); contradiction. }
    now apply (Hplain (c :: s1')).
Qed.

Lemma leftmostAt_spec {A : Type} (here : bool -> jsstring -> option A)
  (s : jsstring) :
  forall pw i a,
    Re.leftmostAt here pw s = Some (i, a) ->
    i <= length s /\ exists pw', here pw' (skipn i s) = Some a.
Proof.
  induction s as [|c s IH]; intros pw i a; simpl.
  - destruct (here pw []) eqn:E; [|discriminate].
    intros H; inversion H; subst. split; [lia|]. now exists pw.
  - destruct (here pw (c :: s)) eqn:E.
    + intros H; inversion H; subst. split; [lia|]. now exists pw.
    + destruct (Re.leftmostAt here (isWord c) s) as [[j b]|] eqn:E';
        [|discriminate].
      intros H; inversion H; subst.
      destruct (IH _ _ _ E') as [Hle Hex]. split; [simpl; lia|exact Hex].
Qed.

Lemma leftmostAt_finds {A : Type} (here : bool -> jsstring -> option A)
  (pre m : jsstring) (a : A) :
  (forall pw, here pw m = Some a) ->
  forall pw, Re.leftmostAt here pw (pre ++ m) <> None.
Proof.
  intros Hm. induction pre as [|c pre IH]; intros pw; simpl.
  - destruct m as [|c m]; simpl; now rewrite (Hm pw).
  - destruct (here pw (c :: pre ++ m)); [discriminate|].
    specialize (IH (isWord c)).
    destruct (Re.leftmostAt here (isWord c) (pre ++ m)) as [[j b]|];
      [discriminate|contradiction].
Qed.

Lemma trimStart_suffix (s : jsstring) : exists w, s = w ++ trimStart s.
Proof.
  induction s as [|c s [w IH]]; simpl.
  - now exists [].
  - destruct (isSpace c).
    + exists (c :: w). simpl. now f_equal.
    + now exists [].
Qed.

(** [w[0].match(unit)] never yields [null] on the text of a match of the
    width or height pattern. *)
Lemma unit_of_named_match (name ln m0 : jsstring) :
  Re.match0 (Re.namedPxHere name) ln = Some m0 ->
  Re.match0 Re.unitHere m0 <> None.
Proof.
  unfold Re.match0.
  destruct (Re.leftmostAt (Re.namedPxHere name) false ln) as [[i rest]|] eqn:E;
    [|discriminate].
  intros H; inversion H; subst m0; clear H.
  apply leftmostAt_spec in E as [Hi [pw Hhere]].
  unfold Re.namedPxHere in Hhere.
  destruct (startsWithCI name (skipn i ln)); [|discriminate].
  set (si := skipn i ln) in *.
  destruct (Re.digits (trimStart (skipn (length name) si)))
    as [[ds s1]|] eqn:Hd; [|discriminate].
  destruct (unit_inside_named _ _ _ _ Hd Hhere) as (m & Hu & Hm).
  destruct (trimStart_suffix (skipn (length name) si)) as [w Hw].
  assert (Hsi : exists pre, si = pre ++ m ++ rest).
  { exists (firstn (length name) si ++ w).
    rewrite <- (firstn_skipn (length name) si) at 1.
    rewrite Hw at 1. rewrite Hu. now rewrite <- app_assoc. }
  destruct Hsi as [pre Hsi].
  assert (Hl : length si = length ln - i) by (subst si; apply length_skipn).
  assert (Hm0 : Re.matched ln i rest = pre ++ m).
  { unfold Re.matched, slice. fold si.
    clearbody si. subst si.
    rewrite !length_app in Hl.
    replace (length ln - length rest - i) with (length (pre ++ m))
      by (rewrite length_app; lia).
    rewrite app_assoc.
    now rewrite firstn_app, firstn_all, Nat.sub_diag, firstn_0, app_nil_r. }
  rewrite Hm0.
  pose proof (leftmostAt_finds Re.unitHere pre m [] Hm false) as Hfound.
  destruct (Re.leftmostAt Re.unitHere false (pre ++ m)) as [[j r]|];
    [discriminate|contradiction].
Qed.

(** ** The text fallback *)

Lemma textIssue_emits (name kind expl impact corr : string) (i : nat)
  (ln : jsstring) :
  exists l,
    LintEngine.textIssue name kind expl impact corr i ln = Ok l
    /\ (Re.match0 (Re.namedPxHere (str name ++ [58%N])) ln = None -> l = [])
    /\ forall m0,
         Re.match0 (Re.namedPxHere (str name ++ [58%N])) ln = Some m0 ->
         exists loc,
           l = [loc]
           /\ LintEngine.issue (LintEngine.base loc) = str kind
           /\ LintEngine.severity (LintEngine.base loc) = str "medium"
           /\ LintEngine.value (LintEngine.base loc) = Some m0
           /\ LintEngine.lineNumber loc = i.
Proof.
  unfold LintEngine.textIssue.
  destruct (Re.match0 (Re.namedPxHere (str name ++ [58%N])) ln) as [m0|] eqn:E.
  - pose proof (unit_of_named_match _ _ _ E) as Hu.
    destruct (Re.match0 Re.unitHere m0) as [unit0|]; [|contradiction].
    eexists. split; [reflexivity|]. split; [discriminate|].
    intros m Hm; inversion Hm; subst m.
    eexists. repeat split; reflexivity.
  - exists []. split; [reflexivity|]. split; [reflexivity|]. discriminate.
Qed.

Lemma textLoop_emits (lines : list jsstring) :
  forall start,
  exists issues,
    LintEngine.textLoop start lines = Ok issues
    /\ forall i ln,
         nth_error lines i = Some ln ->
         (forall m0,
            Re.match0 (Re.namedPxHere (str "width:")) ln = Some m0 ->
            exists loc,
              In loc issues
              /\ LintEngine.issue (LintEngine.base loc) = str "Fixed width"
              /\ LintEngine.severity (LintEngine.base loc) = str "medium"
              /\ LintEngine.value (LintEngine.base loc) = Some m0
              /\ LintEngine.lineNumber loc = start + i)
         /\ (forall m0,
               Re.match0 (Re.namedPxHere (str "height:")) ln = Some m0 ->
               exists loc,
                 In loc issues
                 /\ LintEngine.issue (LintEngine.base loc) = str "Fixed height"
                 /\ LintEngine.severity (LintEngine.base loc) = str "medium"
                 /\ LintEngine.value (LintEngine.base loc) = Some m0
                 /\ LintEngine.lineNumber loc = start + i).
Proof.
  induction lines as [|ln0 lines IH]; intros start; simpl.
  - exists []. split; [reflexivity|]. intros [|i] ln H; discriminate.
  - unfold LintEngine.textIssuesOfLine.
    destruct (textIssue_emits "width" "Fixed width"
                "Fixed pixel width reduces responsiveness"
                "Constrained layout on smaller viewports"
                "Use relative units or max-width" start ln0)
      as (w & Hw & _ & Hwm).
    destruct (textIssue_emits "height" "Fixed height"
                "Fixed pixel height can cause overflow"
                "Vertical clipping on shorter viewports"
                "Use min-height or auto with constraints" start ln0)
      as (h & Hh & _ & Hhm).
    destruct (IH (S start)) as (more & Hmore & Hall).
    rewrite Hw, Hh. simpl. rewrite Hmore. simpl.
    exists ((w ++ h) ++ more). split; [reflexivity|].
    intros [|i] ln Hnth; simpl in Hnth.
    + inversion Hnth; subst ln0. split; intros m0 Hm0.
      * destruct (Hwm m0 Hm0) as (loc & -> & Hrest).
        exists loc. split; [simpl; now left|].
        now rewrite Nat.add_0_r.
      * destruct (Hhm m0 Hm0) as (loc & -> & Hrest).
        exists loc. split; [apply in_or_app; left; apply in_or_app;
                             right; now left|].
        now rewrite Nat.add_0_r.
    + destruct (Hall i ln Hnth) as [Hwi Hhi]. split; intros m0 Hm0.
      * destruct (Hwi m0 Hm0) as (loc & Hin & Hrest).
        exists loc. split; [apply in_or_app; now right|].
        now rewrite <- plus_n_Sm.
      * destruct (Hhi m0 Hm0) as (loc & Hin & Hrest).
        exists loc. split; [apply in_or_app; now right|].
        now rewrite <- plus_n_Sm.
Qed.

(** C10.  For a [less] or [sass] document [detectIssues] is
    [detectIssuesFromText], whatever the configuration: it returns a list
    in which every line that matches the width (height) pattern has a
    medium "Fixed width" ("Fixed height") issue at its line number, the
    value being the matched text.  So [.card { width: 10px; }] is flagged
    in pragmatic mode with a width threshold of 320 and with [card] among
    the ignored selectors. *)
Theorem detectIssues_text_fallback
  (toLowerCase : jsstring -> jsstring) (config : LintEngine.Config)
  (css text : jsstring) :
  (forall languageId,
     In languageId ["less"; "sass"]%string ->
     LintEngine.detectIssues toLowerCase config css
       (Scenario.document languageId text)
     = LintEngine.detectIssuesFromText css (Scenario.document languageId text))
  /\ (forall document,
      exists issues,
        LintEngine.detectIssuesFromText css document = Ok issues
        /\ forall i ln,
             nth_error (split 10 css) i = Some ln ->
             (forall m0,
                Re.match0 (Re.namedPxHere (str "width:")) ln = Some m0 ->
                exists loc,
                  In loc issues
                  /\ LintEngine.issue (LintEngine.base loc) = str "Fixed width"
                  /\ LintEngine.severity (LintEngine.base loc) = str "medium"
                  /\ LintEngine.value (LintEngine.base loc) = Some m0
                  /\ LintEngine.lineNumber loc = i)
             /\ (forall m0,
                   Re.match0 (Re.namedPxHere (str "height:")) ln = Some m0 ->
                   exists loc,
                     In loc issues
                     /\ LintEngine.issue (LintEngine.base loc)
                        = str "Fixed height"
                     /\ LintEngine.severity (LintEngine.base loc) = str "medium"
                     /\ LintEngine.value (LintEngine.base loc) = Some m0
                     /\ LintEngine.lineNumber loc = i))
  /\ (exists loc,
        LintEngine.detectIssues toLowerCase Scenario.pragmaticConfig
          Scenario.lessCss (Scenario.document "less" Scenario.lessCss)
        = Ok [loc]
        /\ LintEngine.issue (LintEngine.base loc) = str "Fixed width"
        /\ LintEngine.value (LintEngine.base loc) = Some (str "width: 10px")
        /\ LintEngine.lineNumber loc = 0).
Proof.
  split; [|split].
  - intros languageId [<-|[<-|[]]]; reflexivity.
  - intros document. unfold LintEngine.detectIssuesFromText.
    destruct (textLoop_emits (split 10 css) 0) as (issues & Hok & Hall).
    exists issues. split; [exact Hok|]. exact Hall.
  - eexists. split; [reflexivity|]. repeat split; reflexivity.
Qed.

(** ** The ignore list *)

Lemma insertIndex_in (k x : jsstring) (l : list jsstring) :
  In k (Obj.insertIndex x l) -> k = x \/ In k l.
Proof.
  induction l as [|y l IH]; simpl.
  - intros [<-|[]]. now left.
  - destruct (Obj.decimal x <=? Obj.decimal y)%N; simpl.
    + intros [<-|H]; [now left|now right].
    + intros [<-|H]; [right; now left|].
      destruct (IH H) as [->|Hin]; [now left|right; now right].
Qed.

Lemma sortIndices_in (k : jsstring) (l : list jsstring) :
  In k (Obj.sortIndices l) -> In k l.
Proof.
  induction l as [|x l IH]; simpl; [tauto|].
  intros H. apply insertIndex_in in H as [->|H]; [now left|right; now apply IH].
Qed.

Lemma keys_in {V : Type} (o : Obj.t V) (k : jsstring) :
  In k (Obj.keys o) -> In k (map fst o).
Proof.
  unfold Obj.keys. intros H. apply in_app_or in H as [H|H].
  - apply sortIndices_in in H. now apply filter_In in H as [H _].
  - now apply filter_In in H as [H _].
Qed.

Lemma set_keys {V : Type} (o : Obj.t V) (k k' : jsstring) (v : V) :
  In k (map fst (Obj.set o k' v)) -> k = k' \/ In k (map fst o).
Proof.
  induction o as [|[k0 v0] o IH]; simpl.
  - intros [<-|[]]. now left.
  - destruct (JS.eqb k' k0) eqn:E; simpl.
    + apply eqb_eq in E. subst k0. intros [<-|H]; [now left|right; now right].
    + intros [<-|H]; [right; now left|].
      destruct (IH H) as [->|Hin]; [now left|right; now right].
Qed.

Lemma fold_left_inv {A B : Type} (f : A -> B -> A) (P : A -> Prop)
  (l : list B) :
  forall a, P a -> (forall a b, In b l -> P a -> P (f a b)) ->
            P (fold_left f l a).
Proof.
  induction l as [|b l IH]; intros a Ha Hstep; simpl; [exact Ha|].
  apply IH.
  - apply Hstep; [now left|exact Ha].
  - intros a' b' Hb'. apply Hstep. now right.
Qed.

Lemma pushTo_keys {A : Type} (o o' : Obj.t (list A)) (k k' : jsstring) (a : A) :
  LintEngine.pushTo o k' a = Ok o' ->
  In k (map fst o') -> k = k' \/ In k (map fst o).
Proof.
  unfold LintEngine.pushTo. destruct (Obj.inherited k'); [discriminate|].
  intros H; inversion H; subst o'. apply set_keys.
Qed.

Section IgnoreList.

Variable toLowerCase : jsstring -> jsstring.

Variable config : LintEngine.Config.

Lemma perRule_belongs (guarded : bool)
  (f : Parser.Rule -> list LintEngine.Issue) (rs : list Parser.Rule) :
  (forall r i, In i (f r) -> LintEngine.selector i = Some (Parser.selector r)) ->
  forall i, In i (LintEngine.perRule toLowerCase config guarded f rs) ->
            belongsTo rs i.
Proof.
  intros Hf i Hi. unfold LintEngine.perRule in Hi.
  apply in_flat_map in Hi as (r & Hr & Hi).
  destruct (guarded && LintEngine.ignoredInDetector toLowerCase config r);
    [contradiction|].
  exists r. split; [exact Hr|now apply Hf].
Qed.

Ltac own_selector :=
  repeat match goal with
         | H : In _ (_ ++ _) |- _ => apply in_app_or in H; destruct H
         | H : In _ (LintEngine.when ?c _) |- _ =>
             unfold LintEngine.when in H; destruct c; simpl in H
         | H : In _ [] |- _ => contradiction
         | H : In _ [_] |- _ => destruct H as [H|[]]
         | H : _ \/ _ |- _ => destruct H
         | H : False |- _ => contradiction
         end;
  subst; reflexivity.

Lemma fixedDimensionsOf_selector (r : Parser.Rule) (i : LintEngine.Issue) :
  In i (LintEngine.fixedDimensionsOf toLowerCase config r) ->
  LintEngine.selector i = Some (Parser.selector r).
Proof. unfold LintEngine.fixedDimensionsOf. intros H. own_selector. Qed.

Lemma overflowHorizontalOf_selector (r : Parser.Rule) (i : LintEngine.Issue) :
  In i (LintEngine.overflowHorizontalOf r) ->
  LintEngine.selector i = Some (Parser.selector r).
Proof. unfold LintEngine.overflowHorizontalOf. intros H. own_selector. Qed.

Lemma overflowMaskBodyOf_selector (r : Parser.Rule) (i : LintEngine.Issue) :
  In i (LintEngine.overflowMaskBodyOf toLowerCase r) ->
  LintEngine.selector i = Some (Parser.selector r).
Proof. unfold LintEngine.overflowMaskBodyOf. intros H. own_selector. Qed.

Lemma vwWidthRiskOf_selector (r : Parser.Rule) (i : LintEngine.Issue) :
  In i (LintEngine.vwWidthRiskOf r) ->
  LintEngine.selector i = Some (Parser.selector r).
Proof. unfold LintEngine.vwWidthRiskOf. intros H. own_selector. Qed.

Lemma breakpointFixedWidthOf_selector (r : Parser.Rule)
  (i : LintEngine.Issue) :
  In i (LintEngine.breakpointFixedWidthOf r) ->
  LintEngine.selector i = Some (Parser.selector r).
Proof.
  unfold LintEngine.breakpointFixedWidthOf.
  destruct (LintEngine.inMedia r); [|contradiction].
  destruct (Re.spacedPx _); [|contradiction].
  destruct (LintEngine.decl r "width") as [w|]; [|contradiction].
  destruct (if truthy w then Re.intPx w else None); [|contradiction].
  intros H. own_selector.
Qed.

Lemma flexFragilityOf_selector (r : Parser.Rule) (i : LintEngine.Issue) :
  In i (LintEngine.flexFragilityOf toLowerCase config r) ->
  LintEngine.selector i = Some (Parser.selector r).
Proof.
  unfold LintEngine.flexFragilityOf.
  destruct (negb _); [contradiction|]. intros H. own_selector.
Qed.

Lemma gridRigidityOf_selector (r : Parser.Rule) (i : LintEngine.Issue) :
  In i (LintEngine.gridRigidityOf toLowerCase config r) ->
  LintEngine.selector i = Some (Parser.selector r).
Proof.
  unfold LintEngine.gridRigidityOf.
  destruct (negb _); [contradiction|]. intros H. own_selector.
Qed.

Lemma absoluteContainmentOf_selector (r : Parser.Rule)
  (i : LintEngine.Issue) :
  In i (LintEngine.absoluteContainmentOf r) ->
  LintEngine.selector i = Some (Parser.selector r).
Proof.
  unfold LintEngine.absoluteContainmentOf.
  destruct (negb _); [contradiction|]. intros H. own_selector.
Qed.

Lemma antiPatternsOf_selector (r : Parser.Rule) (i : LintEngine.Issue) :
  In i (LintEngine.antiPatternsOf toLowerCase config r) ->
  LintEngine.selector i = Some (Parser.selector r).
Proof.
  unfold LintEngine.antiPatternsOf. intros H.
  apply in_flat_map in H as (k & _ & H).
  unfold LintEngine.antiPatternsOfKey in H. own_selector.
Qed.

Lemma groupBySelector_keys (rs : list Parser.Rule) (o : Obj.t (list Parser.Rule)) :
  LintEngine.groupBySelector rs = Ok o ->
  forall k, In k (map fst o) -> exists r, In r rs /\ Parser.selector r = k.
Proof.
  unfold LintEngine.groupBySelector.
  apply (fold_left_inv
           (fun acc r => o <- acc ;; LintEngine.pushTo o (Parser.selector r) r)
           (fun acc => forall o, acc = Ok o ->
                       forall k, In k (map fst o) ->
                                 exists r, In r rs /\ Parser.selector r = k)).
  - intros o' H; inversion H; subst. intros k [].
  - intros acc r Hr Hacc o' Hstep k Hk.
    destruct acc as [o0|e]; simpl in Hstep; [|discriminate].
    destruct (pushTo_keys _ _ k _ _ Hstep Hk) as [->|Hin].
    + now exists r.
    + exact (Hacc o0 eq_refl k Hin).
Qed.

Lemma detectMediaConflicts_belongs (rs : list Parser.Rule)
  (issues : list LintEngine.Issue) :
  LintEngine.detectMediaConflicts rs = Ok issues ->
  forall i, In i issues -> belongsTo rs i.
Proof.
  unfold LintEngine.detectMediaConflicts.
  destruct (LintEngine.groupBySelector rs) as [o|e] eqn:Hgroup; simpl;
    [|discriminate].
  pose proof (groupBySelector_keys rs o Hgroup) as Hkeys.
  assert (Hsub : forall k, In k (Obj.keys o) ->
                           exists r, In r rs /\ Parser.selector r = k).
  { intros k Hk. apply Hkeys. now apply keys_in. }
  clear Hkeys Hgroup. revert issues Hsub.
  induction (Obj.keys o) as [|sel sels IH]; simpl; intros issues Hsub.
  - intros H; inversion H; subst. intros i [].
  - unfold LintEngine.mediaConflictOf at 1.
    destruct (LintEngine.propsOf (LintEngine.getOr o sel [])) as [pm|e]; simpl;
      [|discriminate].
    destruct (LintEngine.collect (LintEngine.mediaConflictOf o) sels)
      as [more|e] eqn:Hmore; simpl; [|discriminate].
    intros H; inversion H; subst issues. intros i Hi.
    apply in_app_or in Hi as [Hi|Hi].
    + unfold LintEngine.when in Hi. destruct (existsb _ _); [|contradiction].
      destruct Hi as [<-|[]].
      destruct (Hsub sel (or_introl eq_refl)) as (r & Hr & Hsel).
      exists r. split; [exact Hr|]. simpl. now rewrite Hsel.
    + apply (IH more); [|reflexivity|exact Hi].
      intros k Hk. apply Hsub. now right.
Qed.

Lemma widthMaps_keys (rs : list Parser.Rule)
  (maps : Obj.t jsstring * Obj.t (list jsstring)) :
  LintEngine.widthMaps rs = Ok maps ->
  forall k, In k (map fst (snd maps)) ->
            exists r, In r rs /\ Parser.selector r = k.
Proof.
  unfold LintEngine.widthMaps.
  apply (fold_left_inv _
           (fun acc => forall maps, acc = Ok maps ->
                       forall k, In k (map fst (snd maps)) ->
                                 exists r, In r rs /\ Parser.selector r = k)).
  - intros maps' H; inversion H; subst. intros k [].
  - intros acc r Hr Hacc maps' Hstep k Hk.
    destruct acc as [[baseMap mediaMap]|e]; simpl in Hstep; [|discriminate].
    specialize (Hacc _ eq_refl).
    destruct (LintEngine.decl r "width") as [w|];
      [|inversion Hstep; subst; now apply Hacc].
    destruct (truthy w); [|inversion Hstep; subst; now apply Hacc].
    destruct (LintEngine.inMedia r);
      [|inversion Hstep; subst; now apply Hacc].
    destruct (LintEngine.pushTo mediaMap (Parser.selector r) w)
      as [mediaMap'|e] eqn:Hpush; simpl in Hstep; [|discriminate].
    inversion Hstep; subst maps'. simpl in Hk.
    destruct (pushTo_keys _ _ k _ _ Hpush Hk) as [->|Hin].
    + now exists r.
    + now apply Hacc.
Qed.

Lemma detectMediaWidthInstability_belongs (rs : list Parser.Rule)
  (issues : list LintEngine.Issue) :
  LintEngine.detectMediaWidthInstability rs = Ok issues ->
  forall i, In i issues -> belongsTo rs i.
Proof.
  unfold LintEngine.detectMediaWidthInstability.
  destruct (LintEngine.widthMaps rs) as [maps|e] eqn:Hmaps; simpl;
    [|discriminate].
  intros H; inversion H; subst issues. intros i Hi.
  apply in_flat_map in Hi as (sel & Hsel & Hi).
  apply keys_in in Hsel.
  destruct (widthMaps_keys rs maps Hmaps sel Hsel) as (r & Hr & Hrsel).
  exists r. split; [exact Hr|].
  unfold LintEngine.widthInstabilityOf in Hi.
  destruct (Obj.get (fst maps) sel) as [baseW|]; [|contradiction].
  destruct (negb (truthy baseW)); [contradiction|].
  unfold LintEngine.when in Hi. destruct (existsb _ _); [|contradiction].
  destruct Hi as [<-|[]]. simpl. now rewrite Hrsel.
Qed.

(** A rule whose selector holds a non-blank entry does not pass the
    filter. *)
Lemma upfrontFilter_removes (rs : list Parser.Rule) (r : Parser.Rule)
  (p : jsstring) :
  In p (LintEngine.ignoreSelectors config) ->
  truthy (trim p) = true ->
  includes (toLowerCase (Parser.selector r)) (toLowerCase p) = true ->
  ~ In r (LintEngine.upfrontFilter toLowerCase config rs).
Proof.
  intros Hp Hblank Hincl Hin.
  assert (Hpat : In (toLowerCase p)
                   (LintEngine.upfrontPatterns toLowerCase config)).
  { unfold LintEngine.upfrontPatterns. apply in_map.
    apply filter_In. now split. }
  unfold LintEngine.upfrontFilter in Hin.
  destruct (LintEngine.upfrontPatterns toLowerCase config) as [|q qs] eqn:E;
    [contradiction|].
  apply filter_In in Hin as [_ Hkeep].
  apply negb_true_iff in Hkeep.
  assert (Hex : existsb
                  (fun p0 => includes (toLowerCase (Parser.selector r)) p0)
                  (q :: qs) = true).
  { apply existsb_exists. exists (toLowerCase p). now split. }
  congruence.
Qed.

Lemma upfrontFilter_sub (rs : list Parser.Rule) (r : Parser.Rule) :
  In r (LintEngine.upfrontFilter toLowerCase config rs) -> In r rs.
Proof.
  unfold LintEngine.upfrontFilter.
  destruct (LintEngine.upfrontPatterns toLowerCase config); [tauto|].
  intros H. now apply filter_In in H as [H _].
Qed.

Lemma runDetectors_belongs (rs : list Parser.Rule)
  (issues : list LintEngine.Issue) :
  LintEngine.runDetectors toLowerCase config rs = Ok issues ->
  forall i, In i issues ->
            In i (LintEngine.detectBoxModel rs) \/ belongsTo rs i.
Proof.
  unfold LintEngine.runDetectors.
  destruct (LintEngine.detectMediaConflicts rs) as [d4|e] eqn:H4; simpl;
    [|discriminate].
  destruct (LintEngine.detectMediaWidthInstability rs) as [d8|e] eqn:H8; simpl;
    [|discriminate].
  intros H; inversion H; subst issues; clear H. intros i Hi.
  repeat (apply in_app_or in Hi as [Hi|Hi]).
  - right. revert Hi. apply perRule_belongs, fixedDimensionsOf_selector.
  - now left.
  - right. revert Hi. apply perRule_belongs, overflowHorizontalOf_selector.
  - right. now apply (detectMediaConflicts_belongs rs d4).
  - right. revert Hi. apply perRule_belongs, overflowMaskBodyOf_selector.
  - right. revert Hi. apply perRule_belongs, vwWidthRiskOf_selector.
  - right. revert Hi. apply perRule_belongs, breakpointFixedWidthOf_selector.
  - right. now apply (detectMediaWidthInstability_belongs rs d8).
  - right. revert Hi. apply perRule_belongs, flexFragilityOf_selector.
  - right. revert Hi. apply perRule_belongs, gridRigidityOf_selector.
  - right. revert Hi. apply perRule_belongs, absoluteContainmentOf_selector.
  - right. revert Hi. apply perRule_belongs, antiPatternsOf_selector.
Qed.

End IgnoreList.

Lemma mapIssuesToLines_base (issues : list LintEngine.Issue)
  (document : LintEngine.Document) :
  map LintEngine.base (LintEngine.mapIssuesToLines issues document) = issues.
Proof.
  unfold LintEngine.mapIssuesToLines. rewrite map_map.
  rewrite <- (map_id issues) at 2. apply map_ext. intros i.
  unfold LintEngine.mapIssueToLine.
  destruct (LintEngine.searchLines _ _ _ _) as [[targetLine [s e]]|];
    reflexivity.
Qed.

(** C4, as the code has it.  Outside the text fallback [detectIssues]
    filters the parsed rules once, before any detector runs, and hands the
    remaining rules to all twelve detectors.  A rule whose selector holds,
    case-insensitively, a non-blank entry of [ignoreSelectors] is not
    among them.  Every issue of the result carries the selector of a
    remaining rule or is the document-level issue of [detectBoxModel], and
    that issue is decided on the remaining rules alone. *)
Theorem detectIssues_ignores_upfront
  (toLowerCase : jsstring -> jsstring) (config : LintEngine.Config)
  (css : jsstring) (document : LintEngine.Document) :
  let rs := Parser.rules (Parser.parseRules toLowerCase css) in
  let kept := LintEngine.upfrontFilter toLowerCase config rs in
  (LintEngine.usesTextFallback document = false ->
   LintEngine.detectIssues toLowerCase config css document
   = (issues <- LintEngine.runDetectors toLowerCase config kept ;;
      Ok (LintEngine.mapIssuesToLines issues document)))
  /\ (forall r p,
        In p (LintEngine.ignoreSelectors config) ->
        truthy (trim p) = true ->
        includes (toLowerCase (Parser.selector r)) (toLowerCase p) = true ->
        ~ In r kept)
  /\ (forall r, In r kept -> In r rs)
  /\ (forall located,
        LintEngine.usesTextFallback document = false ->
        LintEngine.detectIssues toLowerCase config css document = Ok located ->
        (forall loc,
           In loc located ->
           In (LintEngine.base loc) (LintEngine.detectBoxModel kept)
           \/ belongsTo kept (LintEngine.base loc))
        /\ (forall i,
              In i (LintEngine.detectBoxModel kept) ->
              In i (map LintEngine.base located))).
Proof.
  intros rs kept.
  assert (Hdef : LintEngine.usesTextFallback document = false ->
                 LintEngine.detectIssues toLowerCase config css document
                 = (issues <- LintEngine.runDetectors toLowerCase config kept ;;
                    Ok (LintEngine.mapIssuesToLines issues document))).
  { intros Hcss. unfold LintEngine.detectIssues. now rewrite Hcss. }
  split; [exact Hdef|]. split; [|split].
  - intros r p. apply upfrontFilter_removes.
  - intros r. apply upfrontFilter_sub.
  - intros located Hcss Hrun. rewrite (Hdef Hcss) in Hrun.
    destruct (LintEngine.runDetectors toLowerCase config kept)
      as [issues|e] eqn:Hissues; simpl in Hrun; [|discriminate].
    inversion Hrun; subst located; clear Hrun.
    pose proof (mapIssuesToLines_base issues document) as Hbase.
    split.
    + intros loc Hloc.
      apply (runDetectors_belongs toLowerCase config kept issues Hissues).
      rewrite <- Hbase. now apply in_map.
    + intros i Hi. rewrite Hbase.
      unfold LintEngine.runDetectors in Hissues.
      destruct (LintEngine.detectMediaConflicts kept); simpl in Hissues;
        [|discriminate].
      destruct (LintEngine.detectMediaWidthInstability kept);
        simpl in Hissues; [|discriminate].
      inversion Hissues; subst issues.
      apply in_or_app; right. apply in_or_app; now left.
Qed.

(** C4 as stated fails: with [skip] among the ignored selectors the rule
    [.skip { box-sizing: content-box; }] is ignored, its declaration would
    make the document mixed, and yet [detectIssues] reports nothing. *)
Lemma ignored_box_sizing_not_counted :
  let rs :=
    Parser.rules
      (Parser.parseRules Scenario.toLowerCaseAscii Scenario.mixedCss) in
  map Parser.selector rs = [str ".a"; str ".skip"]
  /\ map (fun i => (LintEngine.issue i, LintEngine.selector i))
       (LintEngine.detectBoxModel rs)
     = [(str "Mixed box-sizing", Some (str "*"))]
  /\ LintEngine.detectIssues Scenario.toLowerCaseAscii Scenario.skippingConfig
       Scenario.mixedCss (Scenario.document "css" Scenario.mixedCss)
     = Ok [].
Proof.
  vm_compute. repeat split; reflexivity.
Qed.

(** ** The parser always returns *)

Lemma startsWith_app (pat s : jsstring) :
  startsWith pat s = true -> s = pat ++ skipn (length pat) s.
Proof.
  revert s; induction pat as [|p pat IH]; intros s; simpl; [reflexivity|].
  destruct s as [|c s]; [discriminate|].
  intros H. apply andb_true_iff in H as [Hc Hs].
  apply N.eqb_eq in Hc. subst c. f_equal. now apply IH.
Qed.

Lemma cut_spec (pat s b a : jsstring) :
  cut pat s = Some (b, a) -> s = b ++ pat ++ a.
Proof.
  revert b a; induction s as [|c s IH]; intros b a.
  - simpl. destruct (startsWith pat []) eqn:E; [|discriminate].
    intros H; inversion H; subst. now apply startsWith_app in E.
  - simpl. destruct (startsWith pat (c :: s)) eqn:E.
    + intros H; inversion H; subst. now apply startsWith_app in E.
    + destruct (cut pat s) as [[b' a']|] eqn:E'; [|discriminate].
      intros H; inversion H; subst. simpl. f_equal. now apply IH.
Qed.








(** *** A rule block without its closing brace *)











(** ** What a diagram holds of its issue *)

Lemma startsWith_prefix (x post : jsstring) : startsWith x (x ++ post) = true.
Proof.
  induction x as [|c x IH]; simpl; [reflexivity|].
  now rewrite N.eqb_refl, IH.
Qed.

Lemma cut_unfold (pat s : jsstring) :
  cut pat s =
  if startsWith pat s then Some ([], skipn (length pat) s)
  else match s with
       | [] => None
       | c :: s' =>
           match cut pat s' with
           | Some (b, a) => Some (c :: b, a)
           | None => None
           end
       end.
Proof. destruct s; reflexivity. Qed.

Lemma cut_finds (x pre post : jsstring) : cut x (pre ++ x ++ post) <> None.
Proof.
  induction pre as [|c pre IH].
  - rewrite cut_unfold. simpl app. rewrite startsWith_prefix. discriminate.
  - rewrite cut_unfold. simpl app.
    destruct (startsWith x (c :: pre ++ x ++ post)); [discriminate|].
    destruct (cut x (pre ++ x ++ post)) as [[b a]|]; [discriminate|].
    congruence.
Qed.

Lemma includes_intro (x pre post : jsstring) :
  includes (pre ++ x ++ post) x = true.
Proof.
  unfold includes.
  pose proof (cut_finds x pre post) as H.
  destruct (cut x (pre ++ x ++ post)); congruence.
Qed.


Lemma includes_in_join (sep x l : jsstring) (ls : list jsstring) :
  In l ls -> includes l x = true -> includes (join sep ls) x = true.
Proof.
  intros Hin Hx. unfold includes in Hx.
  destruct (cut x l) as [[b a]|] eqn:E; [|discriminate].
  apply cut_spec in E. subst l. clear Hx.
  induction ls as [|l0 ls IH]; [contradiction|].
  destruct Hin as [->|Hin].
  - destruct ls as [|l1 ls]; simpl.
    + apply includes_intro.
    + rewrite <- !app_assoc. apply includes_intro.
  - specialize (IH Hin). unfold includes in IH.
    destruct (cut x (join sep ls)) as [[b' a']|] eqn:E; [|discriminate].
    apply cut_spec in E.
    destruct ls as [|l1 ls]; [contradiction|].
    change (join sep (l0 :: l1 :: ls)) with (l0 ++ sep ++ join sep (l1 :: ls)).
    rewrite E.
    replace (l0 ++ sep ++ b' ++ x ++ a') with ((l0 ++ sep ++ b') ++ x ++ a')
      by now rewrite <- !app_assoc.
    apply includes_intro.
Qed.


Lemma includes_app_l (s t x : jsstring) :
  includes s x = true -> includes (s ++ t) x = true.
Proof.
  unfold includes at 1. destruct (cut x s) as [[b a]|] eqn:E; [|discriminate].
  intros _. apply cut_spec in E. subst s.
  rewrite <- !app_assoc. apply includes_intro.
Qed.

Lemma includes_app_r (s t x : jsstring) :
  includes t x = true -> includes (s ++ t) x = true.
Proof.
  unfold includes at 1. destruct (cut x t) as [[b a]|] eqn:E; [|discriminate].
  intros _. apply cut_spec in E. subst t.
  rewrite app_assoc. apply includes_intro.
Qed.

Import TextFormatter.


Lemma visualLength_cons2 (c d : N) (r : jsstring) :
  visualLength (c :: d :: r) =
  if isEmoji c
  then if (d =? 65039)%N then 2 + visualLength r
       else 2 + visualLength (d :: r)
  else 1 + visualLength (d :: r).
Proof. reflexivity. Qed.



Lemma visualLength_spaces (k : nat) : visualLength (spaces k) = k.
Proof.
  induction k as [|k IH]; [reflexivity|].
  change (spaces (S k)) with (32%N :: spaces k).
  change (visualLength (32%N :: spaces k)) with (1 + visualLength (spaces k)).
  lia.
Qed.







Lemma chars_cons2 (c d : N) (r : jsstring) :
  chars (c :: d :: r) =
  if isHigh c && isLow d then [c; d] :: chars r else [c] :: chars (d :: r).
Proof. reflexivity. Qed.


Lemma chars_alone (c : N) (s : jsstring) :
  noPair c s -> chars (c :: s) = [c] :: chars s.
Proof.
  destruct s as [|d s]; [reflexivity|].
  simpl noPair. intros H. now rewrite chars_cons2, H.
Qed.

Lemma chars_single (c : N) (s : jsstring) :
  isHigh c = false -> chars (c :: s) = [c] :: chars s.
Proof.
  intros H. apply chars_alone. destruct s; simpl; [exact I|now rewrite H].
Qed.





Lemma chars_plain_app (pre s : jsstring) :
  Forall (fun c => isHigh c = false) pre ->
  chars (pre ++ s) = map single pre ++ chars s.
Proof.
  induction 1 as [|c pre Hc _ IH]; [reflexivity|].
  change ((c :: pre) ++ s) with (c :: (pre ++ s)).
  rewrite chars_single by assumption. now rewrite IH.
Qed.

Lemma take_cons (t cur : nat) (char : jsstring) (cs : list jsstring) :
  take t cur (char :: cs) =
  if (t <? cur + (if isEmoji (codePointAt0 char) then 2 else 1))%nat then []
  else char ++ take t (cur + (if isEmoji (codePointAt0 char) then 2 else 1)) cs.
Proof. reflexivity. Qed.

Lemma take_kept (cs : list jsstring) :
  forall t cur, take t cur cs = concat (kept t cur cs).
Proof.
  induction cs as [|char cs IH]; intros t cur; [reflexivity|].
  rewrite take_cons. simpl kept.
  destruct (t <? cur + _)%nat; [reflexivity|].
  simpl concat. now rewrite IH.
Qed.

Lemma charge_kept (cs : list jsstring) :
  forall t cur, charge (kept t cur cs) <= t - cur.
Proof.
  induction cs as [|char cs IH]; intros t cur; simpl; [lia|].
  destruct (Nat.ltb_spec t (cur + (if isEmoji (codePointAt0 char) then 2 else 1)));
    simpl; [lia|].
  specialize (IH t (cur + (if isEmoji (codePointAt0 char) then 2 else 1))).
  lia.
Qed.








Lemma kept_cons (t cur : nat) (char : jsstring) (cs : list jsstring) :
  kept t cur (char :: cs) =
  if (t <? cur + (if isEmoji (codePointAt0 char) then 2 else 1))%nat then []
  else char :: kept t (cur + (if isEmoji (codePointAt0 char) then 2 else 1)) cs.
Proof. reflexivity. Qed.








Import BaseGenerator.

Lemma includes_refl (x : jsstring) : includes x x = true.
Proof.
  replace x with ([] ++ x ++ []) at 1 by (simpl; apply app_nil_r).
  apply includes_intro.
Qed.











Lemma ascii_standard (issue : Viz.Issue) (typeLabel : string)
  (beforeContent afterContent : list jsstring) :
  Viz.ascii (generateStandardVisualization issue typeLabel
               beforeContent afterContent)
  = join [10%N] (standardLines issue typeLabel beforeContent afterContent).
Proof. reflexivity. Qed.


Lemma get_set_same {V : Type} (o : Obj.t V) (k : jsstring) (v : V) :
  Obj.get (Obj.set o k v) k = Some v.
Proof.
  induction o as [|[k' v'] o IH]; simpl.
  - now rewrite eqb_refl.
  - destruct (JS.eqb k k') eqn:E; simpl.
    + now rewrite eqb_refl.
    + now rewrite E.
Qed.



(** ** Where the inputs above come from *)

(** The issue with the line breaks is what the engine reports for the
    style sheet [brokenCss] and hands to the visualizer. *)
Lemma brokenIssue_from_stylesheet :
  exists loc more,
    LintEngine.detectIssues Scenario.toLowerCaseAscii LintEngine.defaultConfig
      Scenario.brokenCss (Scenario.document "css" Scenario.brokenCss)
    = Ok (loc :: more)
    /\ LintEngine.mapToVisualizerIssue loc = Ok Scenario.brokenIssue.
Proof. eexists. eexists. split; vm_compute; reflexivity. Qed.

(** The issue without a diagram type is what the engine reports for the
    style sheet [importantCss]. *)
Lemma importantIssue_from_stylesheet :
  LintEngine.detectIssues Scenario.toLowerCaseAscii LintEngine.defaultConfig
    Scenario.importantCss (Scenario.document "css" Scenario.importantCss)
  = Ok [Scenario.importantIssue].
Proof. vm_compute. reflexivity. Qed.

(** Two malformed style sheets: a rule block that is not closed yields no
    rule; a media block that is not closed keeps the rules closed inside
    it. *)
Lemma parseRules_malformed_examples :
  let selectors css :=
    map (fun r => (Parser.selector r, Parser.at_ r))
      (Parser.rules (Parser.parseRules Scenario.toLowerCaseAscii css)) in
  selectors Scenario.danglingCss = [(str "a", None)]
  /\ selectors Scenario.openMediaCss
     = [ (str "a", None);
         (str ".c", Some (Parser.mkAt (str "media") (str "screen"))) ].
Proof. split; vm_compute; reflexivity. Qed.

(** ** The text formatter on its own *)

Lemma visualLength_lower_aux (n : nat) :
  forall s : jsstring, length s <= n ->
    length s <= visualLength s <= 2 * length s.
Proof.
  induction n as [|n IH]; intros s Hn.
  - destruct s; [simpl; lia|simpl in Hn; lia].
  - destruct s as [|c s]; [simpl; lia|]. simpl in Hn.
    destruct s as [|d s].
    + simpl. destruct (isEmoji c); lia.
    + rewrite visualLength_cons2. simpl in Hn.
      pose proof (IH s ltac:(lia)) as H1.
      pose proof (IH (d :: s) ltac:(simpl; lia)) as H2.
      simpl length in *.
      destruct (isEmoji c); [|lia].
      destruct (d =? 65039)%N; lia.
Qed.

(** X1.  The visual length of a text is at least its number of code units
    and at most twice that number: an emoji unit counts two columns, a
    variation selector after an emoji none of its own, any other unit
    one. *)
Theorem visualLength_bounds (text : jsstring) :
  length text <= visualLength text <= 2 * length text.
Proof. now apply (visualLength_lower_aux (length text)). Qed.

Lemma visualLength_app_aux (n : nat) :
  forall a b : jsstring, length a <= n ->
    match b with d :: _ => d <> 65039%N | [] => True end ->
    visualLength (a ++ b) = visualLength a + visualLength b.
Proof.
  induction n as [|n IH]; intros a b Hn Hb.
  - destruct a; [reflexivity|simpl in Hn; lia].
  - destruct a as [|c a]; [reflexivity|]. simpl in Hn.
    destruct a as [|d a].
    + simpl. destruct (isEmoji c); [|lia].
      destruct b as [|d b]; [simpl; lia|].
      destruct (N.eqb_spec d 65039) as [->|_]; [contradiction|lia].
    + change ((c :: d :: a) ++ b) with (c :: d :: (a ++ b)).
      rewrite (visualLength_cons2 c d (a ++ b)), (visualLength_cons2 c d a).
      simpl in Hn.
      rewrite (IH a b) by (assumption || lia).
      change (d :: a ++ b) with ((d :: a) ++ b).
      rewrite (IH (d :: a) b) by (assumption || simpl; lia).
      destruct (isEmoji c); [|lia].
      destruct (d =? 65039)%N; lia.
Qed.

Lemma visualLength_app_spaces (t : jsstring) (k : nat) :
  visualLength (t ++ spaces k) = visualLength t + k.
Proof.
  rewrite (visualLength_app_aux (length t)); [|lia|].
  - now rewrite visualLength_spaces.
  - destruct k; simpl; [exact I|discriminate].
Qed.

Lemma visualLength_spaces_app (t : jsstring) (k : nat) :
  visualLength (spaces k ++ t) = k + visualLength t.
Proof.
  induction k as [|k IH]; [reflexivity|].
  change (spaces (S k) ++ t) with (32%N :: (spaces k ++ t)).
  change (visualLength (32%N :: (spaces k ++ t)))
    with (1 + visualLength (spaces k ++ t)).
  lia.
Qed.

(** X2.  A text narrower than the width is padded with spaces to exactly
    that width and kept whole: on the right for [left], on the left for
    [right], and for [center] with the smaller half on the left. *)
Theorem pad_exact_width (text : jsstring) (width : nat) (align : Align) :
  visualLength text < width ->
  let padding := width - visualLength text in
  visualLength (TextFormatter.pad text width align) = width
  /\ TextFormatter.pad text width align
     = match align with
       | left => text ++ spaces padding
       | right => spaces padding ++ text
       | center =>
           spaces (Nat.div padding 2) ++ text
           ++ spaces (padding - Nat.div padding 2)
       end.
Proof.
  intros H padding.
  assert (Hpad : TextFormatter.pad text width align
     = match align with
       | left => text ++ spaces padding
       | right => spaces padding ++ text
       | center =>
           spaces (Nat.div padding 2) ++ text
           ++ spaces (padding - Nat.div padding 2)
       end).
  { unfold TextFormatter.pad.
    destruct (Nat.leb_spec width (visualLength text)); [lia|].
    destruct align; reflexivity. }
  split; [|exact Hpad].
  rewrite Hpad.
  pose proof (Nat.Div0.div_le_upper_bound padding 2 padding ltac:(lia)).
  destruct align.
  - rewrite visualLength_app_spaces. subst padding. lia.
  - rewrite visualLength_spaces_app, visualLength_app_spaces.
    subst padding. lia.
  - rewrite visualLength_spaces_app. subst padding. lia.
Qed.

Lemma pad_exact_width_witness :
  visualLength (TextFormatter.pad (str "ab") 5 center) = 5
  /\ TextFormatter.pad (str "ab") 5 center = str " ab  ".
Proof.
  apply (pad_exact_width (str "ab") 5 center). vm_compute. lia.
Defined.

Lemma concat_chars (s : jsstring) : concat (chars s) = s.
Proof.
  assert (H : forall n s, length s <= n -> concat (chars s) = s).
  { clear s. induction n as [|n IH]; intros s Hn.
    - destruct s; [reflexivity|simpl in Hn; lia].
    - destruct s as [|c s]; [reflexivity|]. simpl in Hn.
      destruct s as [|d s]; [reflexivity|].
      rewrite chars_cons2. simpl in Hn.
      destruct (isHigh c && isLow d); rewrite concat_cons.
      + now rewrite (IH s) by lia.
      + now rewrite (IH (d :: s)) by (simpl; lia). }
  now apply (H (length s)).
Qed.

Lemma kept_firstn (cs : list jsstring) :
  forall t cur,
    exists k,
      kept t cur cs = firstn k cs
      /\ (k < length cs -> t < cur + charge (firstn (S k) cs)).
Proof.
  induction cs as [|char cs IH]; intros t cur.
  - exists 0. split; [reflexivity|]. simpl. lia.
  - rewrite kept_cons.
    destruct (Nat.ltb_spec t
                (cur + (if isEmoji (codePointAt0 char) then 2 else 1)))
      as [Hlt|Hge].
    + exists 0. split; [reflexivity|]. intros _.
      cbn [firstn charge fold_right]. lia.
    + destruct (IH t (cur + (if isEmoji (codePointAt0 char) then 2 else 1)))
        as (k & Hk & Hnext).
      exists (S k). split.
      * cbn [firstn]. now rewrite Hk.
      * intros Hlen. cbn [length] in Hlen.
        specialize (Hnext ltac:(lia)).
        change (firstn (S (S k)) (char :: cs))
          with (char :: firstn (S k) cs).
        cbn [charge fold_right]. fold (charge (firstn (S k) cs)). lia.
Qed.

(** X3.  [truncate] returns a text that fits as it is.  Of a wider text it
    returns its first [k] code points, a surrogate pair being one code
    point, followed by an ellipsis: the text is cut between two code
    points.  The code points kept are charged, two columns for an emoji
    and one for any other, at most the maximum less one, although they
    are as many as fit: with the next one the charge exceeds that. *)
Theorem truncate_prefix (text : jsstring) (maxLength : nat) :
  (visualLength text <= maxLength -> truncate text maxLength = text)
  /\ (maxLength < visualLength text ->
      exists k,
        truncate text maxLength
        = concat (firstn k (chars text)) ++ [CHARS.ELLIPSIS]
        /\ text
           = concat (firstn k (chars text)) ++ concat (skipn k (chars text))
        /\ charge (firstn k (chars text)) <= maxLength - 1
        /\ (k < length (chars text) ->
            maxLength - 1 < charge (firstn (S k) (chars text)))).
Proof.
  unfold truncate. split; intros H.
  - destruct (Nat.leb_spec (visualLength text) maxLength); [reflexivity|lia].
  - destruct (Nat.leb_spec (visualLength text) maxLength); [lia|].
    destruct (kept_firstn (chars text) (maxLength - 1) 0) as (k & Hk & Hnext).
    exists k. split; [|split; [|split]].
    + now rewrite take_kept, Hk.
    + rewrite <- concat_app, firstn_skipn. symmetry. apply concat_chars.
    + rewrite <- Hk.
      pose proof (charge_kept (chars text) (maxLength - 1) 0). lia.
    + intros Hlen. specialize (Hnext Hlen). lia.
Qed.

Lemma length_take_le (cs : list jsstring) :
  forall t cur,
    Forall (fun char => length char <= 1) cs ->
    length (take t cur cs) <= t - cur.
Proof.
  induction cs as [|char cs IH]; intros t cur Hcs; [simpl; lia|].
  inversion Hcs as [|? ? Hc Hcs']; subst.
  rewrite take_cons.
  destruct (Nat.ltb_spec t (cur + (if isEmoji (codePointAt0 char) then 2 else 1)));
    [simpl; lia|].
  rewrite length_app.
  specialize (IH t (cur + (if isEmoji (codePointAt0 char) then 2 else 1)) Hcs').
  destruct (isEmoji (codePointAt0 char)); lia.
Qed.

Lemma length_take_double (cs : list jsstring) :
  forall t cur,
    Forall (fun char => length char <= 2) cs ->
    length (take t cur cs) <= 2 * (t - cur).
Proof.
  induction cs as [|char cs IH]; intros t cur Hcs; [simpl; lia|].
  inversion Hcs as [|? ? Hc Hcs']; subst.
  rewrite take_cons.
  destruct (Nat.ltb_spec t (cur + (if isEmoji (codePointAt0 char) then 2 else 1)));
    [simpl; lia|].
  rewrite length_app.
  specialize (IH t (cur + (if isEmoji (codePointAt0 char) then 2 else 1)) Hcs').
  destruct (isEmoji (codePointAt0 char)); lia.
Qed.

Lemma chars_at_most_two (s : jsstring) :
  Forall (fun char => length char <= 2) (chars s).
Proof.
  assert (H : forall n s, length s <= n ->
                Forall (fun char => length char <= 2) (chars s)).
  { clear s. induction n as [|n IH]; intros s Hn.
    - destruct s; [constructor|simpl in Hn; lia].
    - destruct s as [|c s]; [constructor|]. simpl in Hn.
      destruct s as [|d s]; [repeat constructor|].
      rewrite chars_cons2. simpl in Hn.
      destruct (isHigh c && isLow d); constructor;
        try (simpl; lia); apply IH; simpl; lia. }
  now apply (H (length s)).
Qed.

Lemma chars_no_pair (s : jsstring) :
  Forall (fun c => isHigh c = false) s -> chars s = map single s.
Proof.
  intros H. rewrite <- (app_nil_r s) at 1.
  rewrite chars_plain_app by assumption. simpl. apply app_nil_r.
Qed.

Lemma length_spaces (k : nat) : length (spaces k) = k.
Proof. apply repeat_length. Qed.

(** X4.  For a width of at least one, what [pad] returns has at most twice
    the width less one code units, and at most the width when the text
    holds no high surrogate. *)
Theorem pad_length_bound (text : jsstring) (width : nat) (align : Align) :
  1 <= width ->
  length (TextFormatter.pad text width align) <= 2 * width - 1
  /\ (Forall (fun c => isHigh c = false) text ->
      length (TextFormatter.pad text width align) <= width).
Proof.
  intros Hw.
  pose proof (visualLength_lower_aux (length text) text (le_n _)) as [Hlo _].
  unfold TextFormatter.pad.
  destruct (Nat.leb_spec width (visualLength text)) as [H|H].
  - unfold truncate.
    destruct (Nat.leb_spec (visualLength text) width) as [H'|H'].
    + split; intros; lia.
    + split; [|intros Hplain]; rewrite length_app; simpl length.
      * pose proof (length_take_double (chars text) (width - 1) 0
                      (chars_at_most_two text)). lia.
      * rewrite chars_no_pair by assumption.
        pose proof (length_take_le (map single text) (width - 1) 0) as Hl.
        assert (Hs : Forall (fun char => length char <= 1) (map single text)).
        { apply Forall_forall. intros char Hin.
          apply in_map_iff in Hin as (c & <- & _). simpl. lia. }
        specialize (Hl Hs). lia.
  - pose proof (Nat.Div0.div_le_upper_bound (width - visualLength text) 2
                  (width - visualLength text) ltac:(lia)).
    assert (Hlen : length
      match align with
      | left => text ++ spaces (width - visualLength text)
      | center =>
          spaces (Nat.div (width - visualLength text) 2) ++ text
          ++ spaces (width - visualLength text
                     - Nat.div (width - visualLength text) 2)
      | right => spaces (width - visualLength text) ++ text
      end <= width).
    { destruct align; rewrite ?length_app, ?length_spaces; lia. }
    split; intros; cbv zeta;
      [eapply Nat.le_trans; [exact Hlen|lia] | exact Hlen].
Qed.

Lemma pad_length_bound_witness :
  length (TextFormatter.pad (str "a long text") 5 left) <= 2 * 5 - 1
  /\ (Forall (fun c => isHigh c = false) (str "a long text") ->
      length (TextFormatter.pad (str "a long text") 5 left) <= 5).
Proof. apply (pad_length_bound (str "a long text") 5 left). lia. Defined.

(** ** The template cache *)

Lemma eqb_sym (a b : jsstring) : JS.eqb a b = JS.eqb b a.
Proof.
  destruct (JS.eqb a b) eqn:E.
  - apply eqb_eq in E. subst. symmetry. apply eqb_refl.
  - destruct (JS.eqb b a) eqn:E'; [|reflexivity].
    apply eqb_eq in E'. subst. now rewrite eqb_refl in E.
Qed.

Lemma eqb_neq (a b : jsstring) : JS.eqb a b = false <-> a <> b.
Proof.
  split.
  - intros E ->. now rewrite eqb_refl in E.
  - intros H. destruct (JS.eqb a b) eqn:E; [|reflexivity].
    now apply eqb_eq in E.
Qed.

Lemma get_none_keys {V : Type} (o : Obj.t V) (k : jsstring) :
  Obj.get o k = None <-> ~ In k (map fst o).
Proof.
  induction o as [|[k0 v0] o IH]; simpl; [tauto|].
  destruct (JS.eqb k k0) eqn:E.
  - apply eqb_eq in E. subst. split; [discriminate|]. intros H. tauto.
  - apply eqb_neq in E. rewrite IH. split; [intros H [->|]; tauto|tauto].
Qed.

Lemma set_absent {V : Type} (o : Obj.t V) (k : jsstring) (v : V) :
  Obj.get o k = None -> Obj.set o k v = o ++ [(k, v)].
Proof.
  induction o as [|[k0 v0] o IH]; simpl; [reflexivity|].
  destruct (JS.eqb k k0); [discriminate|].
  intros H. now rewrite IH.
Qed.

Lemma get_set_other {V : Type} (o : Obj.t V) (k k' : jsstring) (v : V) :
  k' <> k -> Obj.get (Obj.set o k v) k' = Obj.get o k'.
Proof.
  intros Hk. apply eqb_neq in Hk.
  induction o as [|[k0 v0] o IH]; simpl.
  - now rewrite Hk.
  - destruct (JS.eqb k k0) eqn:E; simpl.
    + apply eqb_eq in E. subst k0. now rewrite Hk.
    + now rewrite IH.
Qed.

Lemma get_delete_other (m : TemplateCache.Entries) (k k' : jsstring) :
  k' <> k ->
  Obj.get (TemplateCache.delete m k) k' = Obj.get m k'.
Proof.
  intros Hk. apply eqb_neq in Hk.
  induction m as [|[k0 v0] m IH]; simpl; [reflexivity|].
  destruct (JS.eqb k k0) eqn:E; simpl.
  - apply eqb_eq in E. subst k0. now rewrite Hk.
  - now rewrite IH.
Qed.

Lemma delete_keys (m : TemplateCache.Entries) (k x : jsstring) :
  In x (map fst (TemplateCache.delete m k)) -> In x (map fst m).
Proof.
  induction m as [|[k0 v0] m IH]; simpl; [tauto|].
  destruct (JS.eqb k k0); simpl; [tauto|]. intros [H|H]; auto.
Qed.

Lemma delete_NoDup (m : TemplateCache.Entries) (k : jsstring) :
  NoDup (map fst m) -> NoDup (map fst (TemplateCache.delete m k)).
Proof.
  induction m as [|[k0 v0] m IH]; simpl; [auto|].
  intros H. inversion H as [|? ? Hn Hm]; subst.
  destruct (JS.eqb k k0); simpl; [assumption|].
  constructor; [|now apply IH].
  intros Hin. apply Hn. now apply delete_keys in Hin.
Qed.

Lemma get_delete_same (m : TemplateCache.Entries) (k : jsstring) :
  NoDup (map fst m) -> Obj.get (TemplateCache.delete m k) k = None.
Proof.
  induction m as [|[k0 v0] m IH]; simpl; [reflexivity|].
  intros H. inversion H as [|? ? Hn Hm]; subst.
  destruct (JS.eqb k k0) eqn:E; simpl.
  - apply eqb_eq in E. subst k0. now apply get_none_keys.
  - rewrite E. now apply IH.
Qed.

Lemma delete_length (m : TemplateCache.Entries) (k : jsstring) :
  length (TemplateCache.delete m k)
  = if Obj.has m k then length m - 1 else length m.
Proof.
  unfold Obj.has.
  induction m as [|[k0 v0] m IH]; simpl; [reflexivity|].
  destruct (JS.eqb k k0); simpl; [lia|].
  rewrite IH. destruct (Obj.get m k) eqn:E; [|reflexivity].
  destruct m; [discriminate|simpl; lia].
Qed.

Lemma delete_absent (m : TemplateCache.Entries) (k : jsstring) :
  Obj.get m k = None -> TemplateCache.delete m k = m.
Proof.
  induction m as [|[k0 v0] m IH]; simpl; [reflexivity|].
  destruct (JS.eqb k k0); [discriminate|]. intros H. now rewrite IH.
Qed.

Lemma append_NoDup (m : TemplateCache.Entries) (k v : jsstring) :
  NoDup (map fst m) -> Obj.get m k = None ->
  NoDup (map fst (m ++ [(k, v)])).
Proof.
  intros Hm Hk. apply get_none_keys in Hk.
  rewrite map_app. simpl.
  apply NoDup_app; [assumption|repeat constructor; simpl; tauto|].
  intros x Hx [<-|[]]. contradiction.
Qed.

(** What [set] leaves in a cache whose keys are distinct and whose size
    is within the capacity. *)
Lemma set_cache (c : TemplateCache.t) (key value : jsstring) :
  NoDup (map fst (TemplateCache.cache c)) ->
  length (TemplateCache.cache c) <= TemplateCache.maxSize c ->
  1 <= TemplateCache.maxSize c ->
  TemplateCache.cache (TemplateCache.set c key value)
  = (if TemplateCache.has c key
     then TemplateCache.delete (TemplateCache.cache c) key
     else if (length (TemplateCache.cache c) <? TemplateCache.maxSize c)%nat
          then TemplateCache.cache c
          else tl (TemplateCache.cache c))
    ++ [(key, value)].
Proof.
  intros Hnd Hlen Hmax. unfold TemplateCache.set, TemplateCache.has.
  cbn [TemplateCache.cache].
  destruct (Obj.has (TemplateCache.cache c) key) eqn:Hhas.
  - pose proof (delete_length (TemplateCache.cache c) key) as Hl.
    rewrite Hhas in Hl.
    assert (Hpos : 1 <= length (TemplateCache.cache c)).
    { unfold Obj.has in Hhas.
      destruct (TemplateCache.cache c); [discriminate|simpl; lia]. }
    destruct (Nat.leb_spec (TemplateCache.maxSize c)
                (length (TemplateCache.delete (TemplateCache.cache c) key)));
      [lia|].
    apply set_absent. now apply get_delete_same.
  - assert (Hk : Obj.get (TemplateCache.cache c) key = None).
    { unfold Obj.has in Hhas.
      destruct (Obj.get (TemplateCache.cache c) key); [discriminate|easy]. }
    destruct (Nat.leb_spec (TemplateCache.maxSize c)
                (length (TemplateCache.cache c))) as [Hfull|Hroom].
    + destruct (Nat.ltb_spec (length (TemplateCache.cache c))
                  (TemplateCache.maxSize c)); [lia|].
      destruct (TemplateCache.cache c) as [|[firstKey v0] rest] eqn:Ec;
        [simpl in Hfull; lia|].
      simpl TemplateCache.delete. rewrite eqb_refl. simpl tl.
      apply set_absent.
      simpl in Hk. destruct (JS.eqb key firstKey); [discriminate|exact Hk].
    + destruct (Nat.ltb_spec (length (TemplateCache.cache c))
                  (TemplateCache.maxSize c)); [|lia].
      now apply set_absent.
Qed.

(** X5.  In a cache with distinct keys, at most [maxSize] entries and a
    capacity of at least one, [set] puts the entry last: an entry of the
    same key is removed first; otherwise, when the cache is full, the
    first (oldest) entry is dropped and nothing else.  The keys stay
    distinct and the size within the capacity. *)
Theorem set_evicts_oldest (c : TemplateCache.t) (key value : jsstring) :
  NoDup (map fst (TemplateCache.cache c)) ->
  length (TemplateCache.cache c) <= TemplateCache.maxSize c ->
  1 <= TemplateCache.maxSize c ->
  let c' := TemplateCache.set c key value in
  TemplateCache.cache c'
  = (if TemplateCache.has c key
     then TemplateCache.delete (TemplateCache.cache c) key
     else if (length (TemplateCache.cache c) <? TemplateCache.maxSize c)%nat
          then TemplateCache.cache c
          else tl (TemplateCache.cache c))
    ++ [(key, value)]
  /\ NoDup (map fst (TemplateCache.cache c'))
  /\ length (TemplateCache.cache c') <= TemplateCache.maxSize c'
  /\ TemplateCache.maxSize c' = TemplateCache.maxSize c.
Proof.
  intros Hnd Hlen Hmax c'.
  pose proof (set_cache c key value Hnd Hlen Hmax) as Hc.
  fold c' in Hc. split; [exact Hc|].
  rewrite Hc. unfold TemplateCache.has.
  pose proof (delete_length (TemplateCache.cache c) key) as Hl.
  destruct (Obj.has (TemplateCache.cache c) key) eqn:Hhas.
  - repeat split.
    + apply append_NoDup; [now apply delete_NoDup|now apply get_delete_same].
    + rewrite length_app, Hl. simpl.
      unfold Obj.has in Hhas.
      destruct (TemplateCache.cache c); [discriminate|simpl in *; lia].
  - assert (Hk : Obj.get (TemplateCache.cache c) key = None).
    { unfold Obj.has in Hhas.
      destruct (Obj.get (TemplateCache.cache c) key); [discriminate|easy]. }
    destruct (Nat.ltb_spec (length (TemplateCache.cache c))
                (TemplateCache.maxSize c)).
    + repeat split.
      * now apply append_NoDup.
      * rewrite length_app. simpl. lia.
    + destruct (TemplateCache.cache c) as [|[firstKey v0] rest] eqn:Ec;
        [simpl in *; lia|].
      simpl tl. simpl in Hnd, Hk, Hlen.
      inversion Hnd; subst.
      destruct (JS.eqb key firstKey); [discriminate|].
      repeat split.
      * now apply append_NoDup.
      * rewrite length_app. simpl. lia.
Qed.

Lemma set_evicts_oldest_witness :
  TemplateCache.cache
    (TemplateCache.set
       (TemplateCache.mkCache [(str "a", str "1"); (str "b", str "2")] 2)
       (str "c") (str "3"))
  = [(str "b", str "2"); (str "c", str "3")].
Proof.
  apply (set_evicts_oldest
           (TemplateCache.mkCache [(str "a", str "1"); (str "b", str "2")] 2)
           (str "c") (str "3")).
  - repeat constructor; simpl; intuition discriminate.
  - simpl. lia.
  - simpl. lia.
Defined.

(** X6.  Whatever the cache, a value that was [set] is there: [has]
    answers [true] and [get] returns the value. *)
Theorem get_after_set (c : TemplateCache.t) (key value : jsstring) :
  TemplateCache.has (TemplateCache.set c key value) key = true
  /\ fst (TemplateCache.get (TemplateCache.set c key value) key) = Some value.
Proof.
  unfold TemplateCache.has, TemplateCache.get, TemplateCache.set, Obj.has.
  cbn [TemplateCache.cache].
  rewrite !get_set_same. split; reflexivity.
Qed.

(** X7.  [get] of a key that is present returns its value and moves the
    entry to the end, behind every other entry; [get] of an absent key
    returns [undefined] and leaves the cache as it is.  No lookup changes
    either way. *)
Theorem get_moves_to_end (c : TemplateCache.t) (key : jsstring) :
  NoDup (map fst (TemplateCache.cache c)) ->
  (forall value,
     Obj.get (TemplateCache.cache c) key = Some value ->
     TemplateCache.get c key
     = (Some value,
        TemplateCache.mkCache
          (TemplateCache.delete (TemplateCache.cache c) key ++ [(key, value)])
          (TemplateCache.maxSize c)))
  /\ (Obj.get (TemplateCache.cache c) key = None ->
      TemplateCache.get c key = (None, c))
  /\ (forall k,
        Obj.get (TemplateCache.cache (snd (TemplateCache.get c key))) k
        = Obj.get (TemplateCache.cache c) k)
  /\ NoDup (map fst (TemplateCache.cache (snd (TemplateCache.get c key))))
  /\ length (TemplateCache.cache (snd (TemplateCache.get c key)))
     = length (TemplateCache.cache c).
Proof.
  intros Hnd. unfold TemplateCache.get, Obj.has.
  destruct (Obj.get (TemplateCache.cache c) key) as [value|] eqn:E;
    cbn [negb fst snd TemplateCache.cache].
  - pose proof (set_absent (TemplateCache.delete (TemplateCache.cache c) key)
                  key value (get_delete_same _ key Hnd)) as Hset.
    rewrite Hset. repeat split.
    + intros v Hv. now inversion Hv.
    + discriminate.
    + intros k. rewrite <- Hset.
      destruct (JS.eqb k key) eqn:Ek.
      * apply eqb_eq in Ek. subst k. now rewrite get_set_same.
      * apply eqb_neq in Ek.
        rewrite get_set_other by assumption.
        now apply get_delete_other.
    + apply append_NoDup; [now apply delete_NoDup|now apply get_delete_same].
    + rewrite length_app, delete_length. unfold Obj.has. rewrite E.
      destruct (TemplateCache.cache c); [discriminate|simpl; lia].
  - repeat split; try reflexivity; try assumption. discriminate.
Qed.

Lemma get_moves_to_end_witness :
  TemplateCache.get
    (TemplateCache.mkCache [(str "a", str "1"); (str "b", str "2")] 2)
    (str "a")
  = (Some (str "1"),
     TemplateCache.mkCache [(str "b", str "2"); (str "a", str "1")] 2).
Proof.
  apply (get_moves_to_end
           (TemplateCache.mkCache [(str "a", str "1"); (str "b", str "2")] 2)
           (str "a")).
  - repeat constructor; simpl; intuition discriminate.
  - reflexivity.
Defined.



(** ** The visualizer: when it throws, what it caches *)

(** X9.  [generate] throws in one case only: the issue is valid, no
    generator is instantiated for its type yet, and the module of the
    type's generator class fails to load; the error is that of the module
    and the instances are left as they were.  In particular an exception
    of a generator that is instantiated never reaches the caller. *)
Theorem generate_throws_iff (instances : AsciiVisualizer.Instances)
  (issue : Viz.Issue) (e : jsstring) :
  (fst (AsciiVisualizer.generate instances issue) = Throw e
   <-> AsciiVisualizer.isValidIssue issue = true
       /\ Obj.has instances (Viz.show (Viz.type issue)) = false
       /\ AsciiVisualizer.factory (Viz.show (Viz.type issue))
          = Some (AsciiVisualizer.Malformed e))
  /\ (fst (AsciiVisualizer.generate instances issue) = Throw e ->
      snd (AsciiVisualizer.generate instances issue) = instances).
Proof.
  unfold AsciiVisualizer.generate.
  destruct (AsciiVisualizer.isValidIssue issue); cbn [negb fst snd].
  - destruct (Obj.has instances (Viz.show (Viz.type issue))) eqn:Hhas.
    + destruct (Obj.get instances (Viz.show (Viz.type issue))) as [g|];
        [destruct (g issue)|]; cbn [fst snd];
        (split; [split; [discriminate|intros (_ & H & _); discriminate]
                |discriminate]).
    + destruct (AsciiVisualizer.factory (Viz.show (Viz.type issue)))
        as [[gen|e']|]; cbn [AsciiVisualizer.instantiate bind fst snd].
      * rewrite get_set_same. cbn [fst snd].
        split; [split; [discriminate|intros (_ & _ & H); discriminate]
               |discriminate].
      * split; [split|reflexivity].
        -- intros H. inversion H. auto.
        -- intros (_ & _ & H). inversion H. reflexivity.
      * destruct (Obj.get instances (Viz.show (Viz.type issue))) as [g|];
          [destruct (g issue)|]; cbn [fst snd];
          (split; [split; [discriminate|intros (_ & _ & H); discriminate]
                  |discriminate]).
  - split; [split; [discriminate|intros (H & _); discriminate]|discriminate].
Qed.

(** X10.  When [generate] has returned a diagram, the same call on the
    instances it leaves returns the same diagram and leaves the same
    instances: a generator is instantiated at most once per type.  The
    generators of the other types are untouched. *)
Theorem generate_is_stable (instances instances' : AsciiVisualizer.Instances)
  (issue : Viz.Issue) (diagram : Viz.Visualization) :
  AsciiVisualizer.generate instances issue = (Ok diagram, instances') ->
  AsciiVisualizer.generate instances' issue = (Ok diagram, instances')
  /\ forall type,
       type <> Viz.show (Viz.type issue) ->
       Obj.get instances' type = Obj.get instances type.
Proof.
  unfold AsciiVisualizer.generate, Obj.has.
  destruct (AsciiVisualizer.isValidIssue issue); cbn [negb].
  - destruct (Obj.get instances (Viz.show (Viz.type issue))) as [g|] eqn:Hg.
    + rewrite Hg. destruct (g issue) eqn:Hgi; intros H; inversion H; subst;
        rewrite Hg; cbv iota; rewrite Hg, Hgi; auto.
    + destruct (AsciiVisualizer.factory (Viz.show (Viz.type issue)))
        as [[gen|e']|] eqn:Hf; cbn [AsciiVisualizer.instantiate bind].
      * rewrite get_set_same. intros H; inversion H; subst.
        rewrite get_set_same; cbv iota. rewrite get_set_same.
        split; [reflexivity|].
        intros type Ht. now apply get_set_other.
      * discriminate.
      * rewrite Hg. intros H; inversion H; subst.
        rewrite Hg; cbv iota. rewrite Hg. auto.
  - intros H; inversion H; subst. auto.
Qed.

Lemma generate_is_stable_witness :
  AsciiVisualizer.generate
    (snd (AsciiVisualizer.generate [] Scenario.cardIssue)) Scenario.cardIssue
  = (Ok (FixedDimensionsGenerator.generate Scenario.cardIssue),
     snd (AsciiVisualizer.generate [] Scenario.cardIssue)).
Proof.
  apply (generate_is_stable [] _ Scenario.cardIssue). reflexivity.
Defined.

(** ** Lines of a diagram *)

Lemma split_no_sep (sep : N) (l : jsstring) :
  ~ In sep l -> split sep l = [l].
Proof.
  induction l as [|c l IH]; intros H; [reflexivity|].
  simpl. destruct (N.eqb_spec c sep) as [->|_]; [exfalso; apply H; now left|].
  rewrite IH; [reflexivity|]. intros Hin. apply H. now right.
Qed.

Lemma split_app_sep (sep : N) (l rest : jsstring) :
  ~ In sep l -> split sep (l ++ sep :: rest) = l :: split sep rest.
Proof.
  induction l as [|c l IH]; intros H.
  - simpl. now rewrite N.eqb_refl.
  - simpl. destruct (N.eqb_spec c sep) as [->|_]; [exfalso; apply H; now left|].
    rewrite IH; [reflexivity|]. intros Hin. apply H. now right.
Qed.

Lemma split_join (sep : N) (ls : list jsstring) :
  ls <> [] -> Forall (fun l => ~ In sep l) ls ->
  split sep (join [sep] ls) = ls.
Proof.
  induction ls as [|l ls IH]; intros Hne Hls; [contradiction|].
  inversion Hls as [|? ? Hl Hls']; subst.
  destruct ls as [|l' ls].
  - simpl. now apply split_no_sep.
  - change (join [sep] (l :: l' :: ls)) with (l ++ sep :: join [sep] (l' :: ls)).
    rewrite split_app_sep by assumption.
    rewrite IH; [reflexivity|discriminate|assumption].
Qed.

Lemma padLine_length (text : jsstring) (width : nat) :
  1 <= width -> length (AsciiVisualizer.padLine text width) = width.
Proof.
  intros Hw. unfold AsciiVisualizer.padLine.
  destruct (Nat.leb_spec width (length text)).
  - rewrite length_app, length_firstn. simpl. lia.
  - rewrite length_app, repeat_length. lia.
Qed.

Lemma padLine_no_break (text : jsstring) (width : nat) :
  ~ In 10%N text -> ~ In 10%N (AsciiVisualizer.padLine text width).
Proof.
  intros H Hin. unfold AsciiVisualizer.padLine in Hin.
  destruct (width <=? length text)%nat; apply in_app_or in Hin as [Hin|Hin].
  - apply H. rewrite <- (firstn_skipn (width - 1) text).
    apply in_or_app. now left.
  - destruct Hin as [Hin|[]]. discriminate.
  - contradiction.
  - apply repeat_spec in Hin. discriminate.
Qed.

(** X11.  The error diagram of a message without a line break has five
    lines; the line of the message has exactly 60 code units, whatever
    the message, while the other four have 58.  A message shorter than 56
    units is shown whole, a longer one is cut to its first 55 units and an
    ellipsis. *)
Theorem errorVisualization_shape (message : jsstring) :
  let diagram := AsciiVisualizer.generateErrorVisualization message in
  Viz.height diagram = 5
  /\ Viz.width diagram = 60
  /\ map (@length N) (AsciiVisualizer.errorLines message) = [58; 58; 58; 60; 58]
  /\ (~ In 10%N message ->
      split 10 (Viz.ascii diagram) = AsciiVisualizer.errorLines message)
  /\ (length message < 56 ->
      includes (Viz.ascii diagram) message = true)
  /\ (56 <= length message ->
      includes (Viz.ascii diagram) (firstn 55 message ++ [CHARS.ELLIPSIS])
      = true).
Proof.
  intros diagram.
  assert (Hin : In ([9474%N] ++ str " " ++ AsciiVisualizer.padLine message 56
                    ++ str " " ++ [9474%N])
                  (AsciiVisualizer.errorLines message)).
  { unfold AsciiVisualizer.errorLines. simpl. auto. }
  repeat split.
  - unfold AsciiVisualizer.errorLines.
    cbn [map]. rewrite !length_app, padLine_length by lia. reflexivity.
  - intros Hm. apply split_join; [discriminate|].
    unfold AsciiVisualizer.errorLines.
    pose proof (padLine_no_break message 56 Hm) as Hp.
    repeat constructor;
      try (intros H; vm_compute in H; intuition discriminate).
    intros H. apply in_app_or in H as [H|H]; [simpl in H; intuition discriminate|].
    apply in_app_or in H as [H|H]; [simpl in H; intuition discriminate|].
    apply in_app_or in H as [H|H]; [contradiction|].
    simpl in H; intuition discriminate.
  - intros Hlen. eapply includes_in_join; [exact Hin|].
    do 2 apply includes_app_r. apply includes_app_l.
    unfold AsciiVisualizer.padLine.
    destruct (Nat.leb_spec 56 (length message)); [lia|].
    apply includes_app_l, includes_refl.
  - intros Hlen. eapply includes_in_join; [exact Hin|].
    do 2 apply includes_app_r. apply includes_app_l.
    unfold AsciiVisualizer.padLine.
    destruct (Nat.leb_spec 56 (length message)); [|lia].
    apply includes_refl.
Qed.

(** ** The parser on well-formed text *)

Lemma includes_cons (x : N) (s pat : jsstring) :
  includes (x :: s) pat = startsWith pat (x :: s) || includes s pat.
Proof.
  unfold includes. rewrite (cut_unfold pat (x :: s)).
  destruct (startsWith pat (x :: s)); [reflexivity|].
  now destruct (cut pat s) as [[b a]|].
Qed.

Lemma includes_tail (x : N) (s pat : jsstring) :
  includes (x :: s) pat = false -> includes s pat = false.
Proof. rewrite includes_cons. now intros H%orb_false_iff. Qed.

Lemma startsWith_two (p q x d : N) (s : jsstring) :
  startsWith [p; q] (x :: d :: s) = (p =? x)%N && (q =? d)%N.
Proof. cbn [startsWith]. now rewrite andb_true_r. Qed.

Lemma strip_true_cons2 (c d : N) (t : jsstring) :
  Parser.strip true (c :: d :: t)
  = if (c =? 42)%N && (d =? 47)%N then Parser.strip false t
    else Parser.strip true (d :: t).
Proof. reflexivity. Qed.

Lemma strip_false_cons2 (c d : N) (t : jsstring) :
  Parser.strip false (c :: d :: t)
  = if (c =? 47)%N && (d =? 42)%N && includes t (str "*/")
    then Parser.strip true t
    else c :: Parser.strip false (d :: t).
Proof. reflexivity. Qed.

Lemma not_starting (p q x d : N) (s : jsstring) :
  includes (x :: d :: s) [p; q] = false -> (x =? p)%N && (d =? q)%N = false.
Proof.
  rewrite includes_cons. intros H. apply orb_false_iff in H as [H _].
  rewrite startsWith_two in H. now rewrite (N.eqb_sym x), (N.eqb_sym d).
Qed.

Lemma strip_closed (c b : jsstring) :
  includes c (str "*/") = false ->
  Parser.strip true (c ++ str "*/" ++ b) = Parser.strip false b.
Proof.
  induction c as [|x c IH]; intros H.
  - reflexivity.
  - pose proof (includes_tail _ _ _ H) as H'.
    destruct c as [|d c].
    + change ([x] ++ str "*/" ++ b) with (x :: 42%N :: 47%N :: b).
      rewrite strip_true_cons2.
      replace ((x =? 42)%N && (42 =? 47)%N) with false
        by (symmetry; apply andb_false_r).
      exact (IH H').
    + change ((x :: d :: c) ++ str "*/" ++ b)
        with (x :: d :: (c ++ str "*/" ++ b)).
      rewrite strip_true_cons2.
      rewrite (not_starting 42 47 x d c H). exact (IH H').
Qed.

Lemma strip_open (a rest : jsstring) :
  includes a (str "/*") = false ->
  includes rest (str "*/") = true ->
  Parser.strip false (a ++ str "/*" ++ rest) = a ++ Parser.strip true rest.
Proof.
  intros Ha Hrest. induction a as [|x a IH].
  - change ([] ++ str "/*" ++ rest) with (47%N :: 42%N :: rest).
    rewrite strip_false_cons2, Hrest. reflexivity.
  - pose proof (includes_tail _ _ _ Ha) as Ha'.
    destruct a as [|d a].
    + change ([x] ++ str "/*" ++ rest) with (x :: 47%N :: 42%N :: rest).
      rewrite strip_false_cons2.
      replace ((x =? 47)%N && (47 =? 42)%N) with false
        by (symmetry; apply andb_false_r).
      simpl andb. cbv iota. simpl app. f_equal. exact (IH Ha').
    + change ((x :: d :: a) ++ str "/*" ++ rest)
        with (x :: d :: (a ++ str "/*" ++ rest)).
      rewrite strip_false_cons2.
      rewrite (not_starting 47 42 x d a Ha). simpl andb. cbv iota.
      simpl app. f_equal. exact (IH Ha').
Qed.

Lemma strip_no_close (s : jsstring) :
  includes s (str "*/") = false -> Parser.strip false s = s.
Proof.
  induction s as [|x s IH]; intros H; [reflexivity|].
  pose proof (includes_tail _ _ _ H) as H'.
  destruct s as [|d s]; [reflexivity|].
  rewrite strip_false_cons2.
  rewrite (includes_tail _ _ _ H'), andb_false_r.
  now rewrite (IH H').
Qed.

Lemma strip_no_open (s : jsstring) :
  includes s (str "/*") = false -> Parser.strip false s = s.
Proof.
  induction s as [|x s IH]; intros H; [reflexivity|].
  pose proof (includes_tail _ _ _ H) as H'.
  destruct s as [|d s]; [reflexivity|].
  rewrite strip_false_cons2.
  rewrite (not_starting 47 42 x d s H). simpl andb. cbv iota.
  now rewrite (IH H').
Qed.

(** X12.  [stripComments] removes the first comment, from its ["/*"] to the
    first ["*/"] after it, keeps the text before it and goes on behind it.
    A text without ["/*"], and a text without ["*/"] (an unterminated
    comment included), is returned as it is. *)
Theorem stripComments_removes_comment :
  (forall before comment rest,
     includes before (str "/*") = false ->
     includes comment (str "*/") = false ->
     Parser.stripComments (before ++ str "/*" ++ comment ++ str "*/" ++ rest)
     = before ++ Parser.stripComments rest)
  /\ (forall s, includes s (str "/*") = false -> Parser.stripComments s = s)
  /\ (forall s, includes s (str "*/") = false -> Parser.stripComments s = s).
Proof.
  unfold Parser.stripComments. repeat split.
  - intros before comment rest Hb Hc.
    rewrite strip_open; [|assumption|apply includes_intro].
    now rewrite strip_closed.
  - apply strip_no_open.
  - apply strip_no_close.
Qed.

Lemma includes_false_cut (s pat : jsstring) :
  includes s pat = false -> cut pat s = None.
Proof. unfold includes. now destruct (cut pat s). Qed.

Lemma mediaLoop_no_media (s : jsstring) :
  includes s (str "@media") = false ->
  Parser.mediaLoop (S (length s)) s = Some [].
Proof.
  intros H. simpl. destruct s; [reflexivity|].
  now rewrite (includes_false_cut _ _ H).
Qed.

Lemma not_in_forall (c : N) (p : N -> bool) (s : jsstring) :
  (forall x, x <> c -> p x = true) -> ~ In c s ->
  Forall (fun x => p x = true) s.
Proof.
  intros Hp Hs. apply Forall_forall. intros x Hx. apply Hp.
  intros ->. contradiction.
Qed.

Lemma notOpen_other (x : N) : x <> 123%N -> Parser.notOpen x = true.
Proof.
  intros H. unfold Parser.notOpen.
  now destruct (N.eqb_spec x 123).
Qed.

Lemma notClose_other (x : N) : x <> 125%N -> Parser.notClose x = true.
Proof.
  intros H. unfold Parser.notClose.
  now destruct (N.eqb_spec x 125).
Qed.

Lemma ruleExec_rule (sel body rest : jsstring) :
  sel <> [] -> ~ In 123%N sel -> ~ In 125%N body ->
  Parser.ruleExec (sel ++ str "{" ++ body ++ str "}" ++ rest)
  = Some (sel, body, rest).
Proof.
  intros Hne Hsel Hbody. unfold Parser.ruleExec.
  assert (Hopen : Parser.span Parser.isOpen
                    (sel ++ str "{" ++ body ++ str "}" ++ rest)
                  = ([], sel ++ str "{" ++ body ++ str "}" ++ rest)).
  { destruct sel as [|c sel]; [contradiction|]. simpl.
    unfold Parser.isOpen at 1.
    destruct (N.eqb_spec c 123) as [->|_]; [|reflexivity].
    exfalso. apply Hsel. now left. }
  rewrite Hopen. cbn [snd]. unfold Parser.ruleAt.
  rewrite (span_until Parser.notOpen sel);
    [|apply (not_in_forall 123); [apply notOpen_other|assumption]
     |reflexivity].
  destruct sel as [|c sel]; [contradiction|].
  change (str "{" ++ body ++ str "}" ++ rest)
    with (123%N :: (body ++ str "}" ++ rest)).
  cbv iota.
  rewrite (span_until Parser.notClose body);
    [|apply (not_in_forall 125); [apply notClose_other|assumption]
     |reflexivity].
  reflexivity.
Qed.

Lemma sheetText_cons (block : jsstring * jsstring)
  (blocks : list (jsstring * jsstring)) :
  sheetText (block :: blocks)
  = fst block ++ str "{" ++ snd block ++ str "}" ++ sheetText blocks.
Proof.
  unfold sheetText, ruleText. rewrite map_cons, concat_cons.
  now rewrite <- !app_assoc.
Qed.

Lemma rulesLoop_S (toLowerCase : jsstring -> jsstring)
  (at0 : option Parser.AtRule) (fuel : nat) (t : jsstring) :
  Parser.rulesLoop toLowerCase (S fuel) at0 t
  = match Parser.ruleExec t with
    | None => Some []
    | Some (sel, decl, t') =>
        match Parser.rulesLoop toLowerCase fuel at0 t' with
        | Some more =>
            Some (Parser.mkRule (trim sel)
                    (Parser.parseDeclarations toLowerCase decl) at0 :: more)
        | None => None
        end
    end.
Proof. reflexivity. Qed.

Lemma rulesLoop_sheet (toLowerCase : jsstring -> jsstring)
  (at0 : option Parser.AtRule) (blocks : list (jsstring * jsstring)) :
  Forall (fun block =>
            fst block <> [] /\ ~ In 123%N (fst block)
            /\ ~ In 125%N (snd block)) blocks ->
  forall fuel, length (sheetText blocks) < fuel ->
    Parser.rulesLoop toLowerCase fuel at0 (sheetText blocks)
    = Some (map (ruleOf toLowerCase at0) blocks).
Proof.
  induction 1 as [|block blocks (Hne & Hsel & Hbody) _ IH]; intros fuel Hfuel.
  - destruct fuel; [simpl in Hfuel; lia|]. reflexivity.
  - destruct fuel; [simpl in Hfuel; lia|].
    rewrite sheetText_cons in *. rewrite rulesLoop_S.
    rewrite ruleExec_rule by assumption.
    rewrite IH; [reflexivity|].
    rewrite !length_app in Hfuel. simpl in Hfuel. lia.
Qed.

(** X13.  A style sheet written as a sequence of rules, each a non-empty
    selector text without ["{"], then ["{"], declarations without ["}"],
    then ["}"], with no comment opener and no ["@media"] in it, is parsed
    into exactly these rules, in order: the selector trimmed, the
    declarations as [parseDeclarations] reads them, and no at-rule. *)
Theorem parseRules_flat_sheet (toLowerCase : jsstring -> jsstring)
  (blocks : list (jsstring * jsstring)) :
  Forall (fun block =>
            fst block <> [] /\ ~ In 123%N (fst block)
            /\ ~ In 125%N (snd block)) blocks ->
  includes (sheetText blocks) (str "/*") = false ->
  includes (sheetText blocks) (str "@media") = false ->
  Parser.parseRules toLowerCase (sheetText blocks)
  = Parser.mkParsed (map (ruleOf toLowerCase None) blocks).
Proof.
  intros Hblocks Hcomment Hmedia.
  unfold Parser.parseRules, Parser.parseRulesWithin, Parser.stripComments.
  rewrite (strip_no_open _ Hcomment).
  rewrite (mediaLoop_no_media _ Hmedia).
  cbn [Parser.baseText fold_left Parser.innerRules].
  rewrite (rulesLoop_sheet toLowerCase None blocks Hblocks) by lia.
  now rewrite app_nil_r.
Qed.

Lemma parseRules_flat_sheet_witness :
  Parser.parseRules Scenario.toLowerCaseAscii
    (str ".a{width:1px}.b { color : red }")
  = Parser.mkParsed
      [ Parser.mkRule (str ".a") [(str "width", str "1px")] None;
        Parser.mkRule (str ".b") [(str "color", str "red")] None ].
Proof.
  apply (parseRules_flat_sheet Scenario.toLowerCaseAscii
           [(str ".a", str "width:1px"); (str ".b ", str " color : red ")]).
  - repeat constructor; simpl; intuition discriminate.
  - reflexivity.
  - reflexivity.
Defined.

Lemma scanBlock_S (d : nat) (ch : N) (t : jsstring) :
  Parser.scanBlock (S d) (ch :: t)
  = (ch :: fst (Parser.scanBlock
                  (if (ch =? 123)%N then S (S d)
                   else if (ch =? 125)%N then d else S d) t),
     snd (Parser.scanBlock
            (if (ch =? 123)%N then S (S d)
             else if (ch =? 125)%N then d else S d) t)).
Proof.
  cbn [Parser.scanBlock].
  now destruct (Parser.scanBlock _ t).
Qed.

Lemma scanBlock_plain (w : jsstring) (d : nat) (rest : jsstring) :
  ~ In 123%N w -> ~ In 125%N w ->
  Parser.scanBlock (S d) (w ++ rest)
  = (w ++ fst (Parser.scanBlock (S d) rest),
     snd (Parser.scanBlock (S d) rest)).
Proof.
  induction w as [|c w IH]; intros Ho Hc.
  - simpl app. now destruct (Parser.scanBlock (S d) rest).
  - change ((c :: w) ++ rest) with (c :: (w ++ rest)).
    rewrite scanBlock_S.
    destruct (N.eqb_spec c 123) as [->|_]; [exfalso; apply Ho; now left|].
    destruct (N.eqb_spec c 125) as [->|_]; [exfalso; apply Hc; now left|].
    rewrite IH by (intros H; first [apply Ho; now right | apply Hc; now right]).
    reflexivity.
Qed.

Lemma scanBlock_sheet (blocks : list (jsstring * jsstring)) :
  Forall (fun block =>
            ~ In 123%N (fst block) /\ ~ In 125%N (fst block)
            /\ ~ In 123%N (snd block) /\ ~ In 125%N (snd block)) blocks ->
  forall d rest,
    Parser.scanBlock (S d) (sheetText blocks ++ rest)
    = (sheetText blocks ++ fst (Parser.scanBlock (S d) rest),
       snd (Parser.scanBlock (S d) rest)).
Proof.
  induction 1 as [|block blocks (Hso & Hsc & Hbo & Hbc) _ IH]; intros d rest.
  - simpl. now destruct (Parser.scanBlock (S d) rest).
  - rewrite sheetText_cons, <- !app_assoc.
    rewrite scanBlock_plain by assumption.
    change (str "{" ++ snd block ++ str "}" ++ sheetText blocks ++ rest)
      with (123%N :: (snd block ++ 125%N :: (sheetText blocks ++ rest))).
    rewrite scanBlock_S. cbn [N.eqb Pos.eqb].
    rewrite scanBlock_plain by assumption.
    rewrite scanBlock_S. cbn [N.eqb Pos.eqb].
    rewrite IH. cbn [fst snd]. reflexivity.
Qed.

Lemma cut_single (c : N) (pre post : jsstring) :
  ~ In c pre -> cut [c] (pre ++ c :: post) = Some (pre, post).
Proof.
  induction pre as [|x pre IH]; intros H.
  - rewrite cut_unfold. simpl. now rewrite N.eqb_refl.
  - change ((x :: pre) ++ c :: post) with (x :: (pre ++ c :: post)).
    rewrite cut_unfold. cbn [startsWith].
    destruct (N.eqb_spec c x) as [->|_]; [exfalso; apply H; now left|].
    cbn [andb]. rewrite IH; [reflexivity|]. intros Hin. apply H. now right.
Qed.

Lemma cut_self (s : jsstring) : cut s s = Some ([], []).
Proof.
  rewrite cut_unfold.
  pose proof (startsWith_prefix s []) as H. rewrite app_nil_r in H.
  rewrite H. now rewrite skipn_all.
Qed.

Lemma cut_at_start (pat rest : jsstring) :
  cut pat (pat ++ rest) = Some ([], rest).
Proof.
  rewrite cut_unfold, startsWith_prefix.
  now rewrite skipn_app, skipn_all, Nat.sub_diag.
Qed.

(** X14.  A media block written as ["@media"], a condition without ["{"],
    ["{"], a sequence of rules whose selectors and declarations hold no
    brace, and ["}"], with no comment opener in it, is parsed into exactly
    these rules, in order, each tagged with the trimmed condition; nothing
    is left as a rule outside the block. *)
Theorem parseRules_media_block (toLowerCase : jsstring -> jsstring)
  (cond : jsstring) (blocks : list (jsstring * jsstring)) :
  ~ In 123%N cond ->
  Forall (fun block =>
            fst block <> []
            /\ ~ In 123%N (fst block) /\ ~ In 125%N (fst block)
            /\ ~ In 123%N (snd block) /\ ~ In 125%N (snd block)) blocks ->
  includes (str "@media" ++ cond ++ str "{" ++ sheetText blocks ++ str "}")
    (str "/*") = false ->
  Parser.parseRules toLowerCase
    (str "@media" ++ cond ++ str "{" ++ sheetText blocks ++ str "}")
  = Parser.mkParsed
      (map (ruleOf toLowerCase
              (Some (Parser.mkAt (str "media") (trim cond)))) blocks).
Proof.
  intros Hcond Hblocks Hcomment.
  set (s := str "@media" ++ cond ++ str "{" ++ sheetText blocks ++ str "}") in *.
  assert (Hscan : Parser.scanBlock 1 (sheetText blocks ++ str "}")
                  = (sheetText blocks ++ str "}", [])).
  { rewrite scanBlock_sheet.
    - reflexivity.
    - eapply Forall_impl; [|exact Hblocks]. intros block H; cbv beta in *; tauto. }
  assert (Hmedia : Parser.mediaLoop (S (length s)) s
                   = Some [Parser.mkMedia s (trim cond) (sheetText blocks)]).
  { cbn [Parser.mediaLoop]. unfold s at 1 2.
    change (str "@media" ++ cond ++ str "{" ++ sheetText blocks ++ str "}")
      with (64%N :: (str "media" ++ cond ++ str "{" ++ sheetText blocks
                     ++ str "}")) at 1.
    cbv iota. fold s. unfold s at 1.
    rewrite cut_at_start.
    change (cond ++ str "{" ++ sheetText blocks ++ str "}")
      with (cond ++ 123%N :: (sheetText blocks ++ str "}")).
    rewrite (cut_single 123 cond _ Hcond).
    rewrite Hscan.
    change (str "{" ++ sheetText blocks ++ str "}")
      with (123%N :: (sheetText blocks ++ str "}")) in s.
    change (removelast (sheetText blocks ++ str "}"))
      with (removelast (sheetText blocks ++ [125%N])).
    rewrite removelast_last.
    destruct (length s) eqn:El; [unfold s in El; simpl in El; lia|].
    reflexivity. }
  unfold Parser.parseRules, Parser.parseRulesWithin, Parser.stripComments.
  rewrite (strip_no_open _ Hcomment). rewrite Hmedia.
  cbn [Parser.baseText fold_left Parser.full Parser.innerRules
       Parser.body Parser.mcondition].
  unfold removeFirst. rewrite cut_self. cbn [app length].
  change (Parser.rulesLoop toLowerCase 1 None [])
    with (Some (@nil Parser.Rule)).
  cbv iota.
  assert (Hb : Forall (fun block =>
                         fst block <> [] /\ ~ In 123%N (fst block)
                         /\ ~ In 125%N (snd block)) blocks).
  { eapply Forall_impl; [|exact Hblocks].
    intros block H; cbv beta in *; tauto. }
  rewrite (rulesLoop_sheet toLowerCase _ blocks Hb) by lia.
  cbn [app]. now rewrite app_nil_r.
Qed.

Lemma parseRules_media_block_witness :
  Parser.parseRules Scenario.toLowerCaseAscii
    (str "@media (max-width: 768px) {.a{width:1px}}")
  = Parser.mkParsed
      [ Parser.mkRule (str ".a") [(str "width", str "1px")]
          (Some (Parser.mkAt (str "media") (str "(max-width: 768px)"))) ].
Proof.
  apply (parseRules_media_block Scenario.toLowerCaseAscii
           (str " (max-width: 768px) ") [(str ".a", str "width:1px")]).
  - simpl. intuition discriminate.
  - repeat constructor; simpl; intuition discriminate.
  - reflexivity.
Defined.

(** ** Declarations *)

Lemma trimStart_app_stop (a r : jsstring) (c : N) :
  isSpace c = false -> trimStart (a ++ c :: r) = trimStart a ++ c :: r.
Proof.
  intros Hc. induction a as [|x a IH]; simpl.
  - now rewrite Hc.
  - now destruct (isSpace x).
Qed.

Lemma trimEnd_app_stop (a r : jsstring) (c : N) :
  isSpace c = false -> trimEnd (a ++ c :: r) = a ++ c :: trimEnd r.
Proof.
  intros Hc. unfold trimEnd.
  rewrite rev_app_distr. simpl rev. rewrite <- app_assoc. simpl app.
  rewrite trimStart_app_stop by assumption.
  rewrite rev_app_distr. simpl rev. rewrite rev_involutive.
  now rewrite <- app_assoc.
Qed.

Lemma trimStart_head (s : jsstring) :
  trimStart s = []
  \/ exists c r, trimStart s = c :: r /\ isSpace c = false.
Proof.
  induction s as [|x s IH]; simpl; [now left|].
  destruct (isSpace x) eqn:E; [exact IH|].
  right. now exists x, s.
Qed.

Lemma trimStart_idem (s : jsstring) : trimStart (trimStart s) = trimStart s.
Proof.
  destruct (trimStart_head s) as [->|(c & r & -> & Hc)]; [reflexivity|].
  simpl. now rewrite Hc.
Qed.

Lemma trimEnd_idem (s : jsstring) : trimEnd (trimEnd s) = trimEnd s.
Proof.
  unfold trimEnd. now rewrite rev_involutive, trimStart_idem.
Qed.

Lemma trimStart_spaces (w s : jsstring) :
  Forall (fun c => isSpace c = true) w -> trimStart (w ++ s) = trimStart s.
Proof. induction 1 as [|c w Hc _ IH]; simpl; [reflexivity|now rewrite Hc]. Qed.

Lemma trimStart_split (s : jsstring) :
  exists w, s = w ++ trimStart s /\ Forall (fun c => isSpace c = true) w.
Proof.
  induction s as [|c s (w & IH & Hw)]; simpl.
  - exists []. split; [reflexivity|constructor].
  - destruct (isSpace c) eqn:E.
    + exists (c :: w). split; [simpl; now f_equal|now constructor].
    + exists []. split; [reflexivity|constructor].
Qed.

Lemma trim_trimStart (s : jsstring) : trim (trimStart s) = trim s.
Proof. unfold trim. now rewrite trimStart_idem. Qed.

Lemma trimEnd_nil_spaces (s : jsstring) :
  Forall (fun c => isSpace c = true) s -> trimEnd s = [].
Proof.
  intros H. unfold trimEnd.
  rewrite <- (app_nil_r (rev s)), trimStart_spaces; [reflexivity|].
  apply Forall_rev. exact H.
Qed.

Lemma trim_trimEnd (s : jsstring) : trim (trimEnd s) = trim s.
Proof.
  unfold trim.
  destruct (trimStart_split s) as (w & Hs & Hw).
  destruct (trimStart_head s) as [E|(c & r & E & Hc)]; rewrite E in *.
  - rewrite app_nil_r in Hs. subst w.
    rewrite (trimEnd_nil_spaces s Hw). reflexivity.
  - rewrite Hs at 1. rewrite trimEnd_app_stop by assumption.
    rewrite trimStart_app_stop by assumption.
    rewrite <- (app_nil_r w), trimStart_spaces by assumption.
    simpl trimStart. simpl app.
    change (c :: trimEnd r) with ([] ++ c :: trimEnd r).
    rewrite trimEnd_app_stop by assumption.
    rewrite trimEnd_idem.
    change (c :: r) with ([] ++ c :: r).
    now rewrite trimEnd_app_stop.
Qed.

Lemma trimStart_not_in (c : N) (s : jsstring) :
  ~ In c s -> ~ In c (trimStart s).
Proof.
  intros H Hin. apply H.
  destruct (trimStart_suffix s) as [w Hw]. rewrite Hw.
  apply in_or_app. now right.
Qed.

Section Declarations.

Variable toLowerCase : jsstring -> jsstring.

Lemma declStep_declaration (obj : Obj.t jsstring) (k v : jsstring) :
  ~ In 58%N k ->
  Parser.declStep toLowerCase obj (k ++ str ":" ++ v)
  = Obj.assign obj (toLowerCase (trim k)) (trim v).
Proof.
  intros Hk. unfold Parser.declStep.
  assert (Hline : trim (k ++ str ":" ++ v) = trimStart k ++ 58%N :: trimEnd v).
  { unfold trim. change (k ++ str ":" ++ v) with (k ++ 58%N :: v).
    rewrite trimStart_app_stop by reflexivity.
    now rewrite trimEnd_app_stop by reflexivity. }
  rewrite Hline.
  assert (Ht : truthy (trimStart k ++ 58%N :: trimEnd v) = true)
    by (destruct (trimStart k); reflexivity).
  rewrite Ht. cbn [negb]. unfold indexOf.
  change (str ":") with [58%N].
  rewrite cut_single by now apply trimStart_not_in.
  unfold slice. rewrite Nat.sub_0_r. cbn [skipn].
  rewrite firstn_app, firstn_all, Nat.sub_diag. cbn [firstn].
  rewrite app_nil_r, trim_trimStart.
  replace (skipn (length (trimStart k) + 1) (trimStart k ++ 58%N :: trimEnd v))
    with (trimEnd v).
  - now rewrite trim_trimEnd.
  - rewrite skipn_app, skipn_all2 by lia.
    replace (length (trimStart k) + 1 - length (trimStart k)) with 1 by lia.
    reflexivity.
Qed.

Lemma declStep_other (obj : Obj.t jsstring) (line : jsstring) :
  ~ In 58%N line -> Parser.declStep toLowerCase obj line = obj.
Proof.
  intros H. unfold Parser.declStep.
  destruct (truthy (trim line)); [|reflexivity]. cbn [negb].
  unfold indexOf.
  destruct (cut (str ":") (trim line)) as [[b a]|] eqn:E; [|reflexivity].
  exfalso. apply cut_spec in E.
  assert (Hin : In 58%N (trim line)).
  { rewrite E. apply in_or_app. right. now left. }
  unfold trim, trimEnd in Hin. apply in_rev in Hin.
  apply (trimStart_not_in 58 (rev (trimStart line))); [|exact Hin].
  intros Hr. apply in_rev in Hr. now apply (trimStart_not_in 58 line).
Qed.

Lemma split_nonempty (sep : N) (s : jsstring) : split sep s <> [].
Proof.
  induction s as [|c s IH]; simpl; [discriminate|].
  destruct (c =? sep)%N; [discriminate|].
  destruct (split sep s); [contradiction|discriminate].
Qed.

Lemma split_app (sep : N) (a b : jsstring) :
  split sep (a ++ sep :: b) = split sep a ++ split sep b.
Proof.
  induction a as [|c a IH]; simpl.
  - now rewrite N.eqb_refl.
  - destruct (c =? sep)%N; [now rewrite IH|].
    rewrite IH. pose proof (split_nonempty sep a).
    destruct (split sep a); [contradiction|reflexivity].
Qed.

Lemma parseDeclarations_app (block decl : jsstring) :
  ~ In 59%N decl ->
  Parser.parseDeclarations toLowerCase (block ++ str ";" ++ decl)
  = Parser.declStep toLowerCase
      (Parser.parseDeclarations toLowerCase block) decl.
Proof.
  intros H. unfold Parser.parseDeclarations.
  change (block ++ str ";" ++ decl) with (block ++ 59%N :: decl).
  rewrite split_app, fold_left_app, (split_no_sep 59 decl H). reflexivity.
Qed.

End Declarations.

Lemma set_NoDup {V : Type} (o : Obj.t V) (k : jsstring) (v : V) :
  NoDup (map fst o) -> NoDup (map fst (Obj.set o k v)).
Proof.
  induction o as [|[k0 v0] o IH]; simpl; intros H.
  - repeat constructor. simpl. tauto.
  - inversion H as [|? ? Hn Ho]; subst.
    destruct (JS.eqb k k0) eqn:E; simpl.
    + apply eqb_eq in E. subst k0. now constructor.
    + constructor; [|now apply IH].
      intros Hin. apply set_keys in Hin as [->|Hin]; [|contradiction].
      now rewrite eqb_refl in E.
Qed.

(** X15.  [parseDeclarations] reads a declaration [name: value] that
    follows a [";"] as an assignment to what it has read before: the name
    is trimmed and lower-cased, the value, which may hold colons, trimmed;
    the declaration replaces an earlier one of the same name and leaves
    the others as they are.  A piece without a colon is skipped. *)
Theorem parseDeclarations_last_wins (toLowerCase : jsstring -> jsstring) :
  (forall block name value,
     ~ In 58%N name -> ~ In 59%N name -> ~ In 59%N value ->
     let key := toLowerCase (trim name) in
     let decls :=
       Parser.parseDeclarations toLowerCase
         (block ++ str ";" ++ name ++ str ":" ++ value) in
     decls
     = Obj.assign (Parser.parseDeclarations toLowerCase block) key (trim value)
     /\ (key <> str "__proto__" -> Obj.get decls key = Some (trim value))
     /\ (forall k, k <> key ->
           Obj.get decls k
           = Obj.get (Parser.parseDeclarations toLowerCase block) k))
  /\ (forall block piece,
        ~ In 58%N piece -> ~ In 59%N piece ->
        Parser.parseDeclarations toLowerCase (block ++ str ";" ++ piece)
        = Parser.parseDeclarations toLowerCase block).
Proof.
  split.
  - intros block name value Hn1 Hn2 Hv key decls.
    assert (Hd : decls
                 = Obj.assign (Parser.parseDeclarations toLowerCase block)
                     key (trim value)).
    { unfold decls. rewrite parseDeclarations_app.
      - now apply declStep_declaration.
      - intros Hin. apply in_app_or in Hin as [Hin|Hin]; [contradiction|].
        apply in_app_or in Hin as [Hin|Hin]; [|contradiction].
        simpl in Hin. intuition discriminate. }
    split; [exact Hd|]. rewrite Hd. unfold Obj.assign. split.
    + intros Hkey. apply eqb_neq in Hkey. rewrite Hkey. apply get_set_same.
    + intros k Hk. destruct (JS.eqb key (str "__proto__")); [reflexivity|].
      now apply get_set_other.
  - intros block piece Hp1 Hp2.
    rewrite parseDeclarations_app by assumption.
    now apply declStep_other.
Qed.

(** X16.  The declarations [parseDeclarations] returns have distinct names,
    and none is named [__proto__]: such a declaration is dropped. *)
Theorem parseDeclarations_names (toLowerCase : jsstring -> jsstring)
  (block : jsstring) :
  NoDup (map fst (Parser.parseDeclarations toLowerCase block))
  /\ Obj.get (Parser.parseDeclarations toLowerCase block) (str "__proto__")
     = None.
Proof.
  unfold Parser.parseDeclarations.
  assert (H : forall lines obj,
            NoDup (map fst obj) /\ Obj.get obj (str "__proto__") = None ->
            NoDup (map fst (fold_left (Parser.declStep toLowerCase) lines obj))
            /\ Obj.get (fold_left (Parser.declStep toLowerCase) lines obj)
                 (str "__proto__") = None).
  { induction lines as [|line lines IH]; intros obj Hobj; [exact Hobj|].
    simpl fold_left. apply IH. destruct Hobj as [Hnd Hp].
    unfold Parser.declStep.
    destruct (negb (truthy (trim line))); [now split|].
    destruct (indexOf (trim line) (str ":")); [|now split].
    unfold Obj.assign.
    destruct (JS.eqb _ (str "__proto__")) eqn:E; [now split|].
    split; [now apply set_NoDup|].
    rewrite get_set_other; [exact Hp|].
    intros Heq. rewrite <- Heq, eqb_refl in E. discriminate. }
  apply H. split; [constructor|reflexivity].
Qed.

(** ** From engine issues to diagrams *)

Lemma orDefault_truthy (o : option jsstring) (d : string) :
  truthy (str d) = true -> truthy (LintEngine.orDefault o d) = true.
Proof.
  intros H. unfold LintEngine.orDefault.
  destruct o as [s|]; [|exact H].
  destruct (truthy s) eqn:E; [exact E|exact H].
Qed.

Lemma typeMap_supported (kind : jsstring) :
  let type :=
    match Obj.get LintEngine.typeMap kind with
    | Some type => type
    | None => str "fixed-dimensions"
    end in
  truthy type = true
  /\ exists m, AsciiVisualizer.factory type = Some m.
Proof.
  unfold LintEngine.typeMap. cbn [map fst snd Obj.get].
  repeat match goal with
    | |- context [JS.eqb kind ?k] => destruct (JS.eqb kind k)
    end;
    (split; [reflexivity|eexists; reflexivity]).
Qed.

(** X17.  Whatever the engine issue, a visualizer issue built by
    [mapToVisualizerIssue] is valid for the visualizer, carries the
    issue's line number, and has one of the twelve types with a generator
    factory: a new visualizer answers it with the diagram of that type's
    generator class, or throws when the module of the class does not
    load; it never answers with the "Invalid issue data" diagram or the
    "not available" line. *)
Theorem mapToVisualizerIssue_valid (located : LintEngine.Located)
  (v : Viz.Issue) :
  LintEngine.mapToVisualizerIssue located = Ok v ->
  AsciiVisualizer.isValidIssue v = true
  /\ Viz.line v = Some (Z.of_nat (LintEngine.lineNumber located))
  /\ exists m,
       AsciiVisualizer.factory (Viz.show (Viz.type v)) = Some m
       /\ fst (AsciiVisualizer.generate [] v)
          = match m with
            | AsciiVisualizer.Class gen => Ok (gen v)
            | AsciiVisualizer.Malformed e => Throw e
            end.
Proof.
  unfold LintEngine.mapToVisualizerIssue.
  destruct (typeMap_supported (LintEngine.issue (LintEngine.base located)))
    as [Htype [m Hm]].
  set (type := match Obj.get LintEngine.typeMap _ with
               | Some t => t
               | None => str "fixed-dimensions"
               end) in *.
  destruct (Obj.inherited _); [discriminate|].
  intros H.
  assert (Hv : v = LintEngine.visualizerIssue located type) by congruence.
  subst v. clear H.
  assert (Hvalid : AsciiVisualizer.isValidIssue
                     (LintEngine.visualizerIssue located type) = true).
  { unfold AsciiVisualizer.isValidIssue, LintEngine.visualizerIssue.
    cbn [Viz.type Viz.severity Viz.line Viz.selector Viz.property Viz.value
         truthyOpt Re.isSome].
    rewrite Htype, !orDefault_truthy by reflexivity.
    unfold LintEngine.orElse.
    destruct (truthy (LintEngine.severity (LintEngine.base located))) eqn:E;
      [rewrite E|]; reflexivity. }
  split; [exact Hvalid|]. split; [reflexivity|].
  exists m. split; [exact Hm|].
  unfold AsciiVisualizer.generate. rewrite Hvalid.
  cbn [negb Obj.has Obj.get LintEngine.visualizerIssue Viz.type Viz.show].
  rewrite Hm. destruct m as [gen|e]; cbn [AsciiVisualizer.instantiate bind].
  - cbn [Obj.set Obj.get]. now rewrite eqb_refl.
  - reflexivity.
Qed.

Lemma mapToVisualizerIssue_valid_witness :
  AsciiVisualizer.isValidIssue
    (LintEngine.visualizerIssue Scenario.importantIssue
       (str "fixed-dimensions")) = true.
Proof.
  apply (mapToVisualizerIssue_valid Scenario.importantIssue). reflexivity.
Defined.

(** ** What the detectors report *)

Section Reports.

Variable toLowerCase : jsstring -> jsstring.

Variable config : LintEngine.Config.

Lemma perRule_wf (guarded : bool)
  (f : Parser.Rule -> list LintEngine.Issue) (rs : list Parser.Rule) :
  (forall r i, In i (f r) -> wellFormedIssue i = true) ->
  forall i, In i (LintEngine.perRule toLowerCase config guarded f rs) ->
            wellFormedIssue i = true.
Proof.
  intros Hf i Hi. unfold LintEngine.perRule in Hi.
  apply in_flat_map in Hi as (r & Hr & Hi).
  destruct (guarded && LintEngine.ignoredInDetector toLowerCase config r);
    [contradiction|].
  now apply (Hf r).
Qed.

Ltac emitted :=
  repeat match goal with
         | H : In _ (_ ++ _) |- _ => apply in_app_or in H; destruct H
         | H : In _ (LintEngine.when ?c _) |- _ =>
             unfold LintEngine.when in H; destruct c; simpl in H
         | H : In _ [] |- _ => contradiction
         | H : In _ [_] |- _ => destruct H as [H|[]]
         | H : _ \/ _ |- _ => destruct H
         | H : False |- _ => contradiction
         end;
  subst; reflexivity.

Lemma fixedDimensionsOf_wf (r : Parser.Rule) (i : LintEngine.Issue) :
  In i (LintEngine.fixedDimensionsOf toLowerCase config r) ->
  wellFormedIssue i = true.
Proof. unfold LintEngine.fixedDimensionsOf. intros H. emitted. Qed.

Lemma overflowHorizontalOf_wf (r : Parser.Rule) (i : LintEngine.Issue) :
  In i (LintEngine.overflowHorizontalOf r) -> wellFormedIssue i = true.
Proof. unfold LintEngine.overflowHorizontalOf. intros H. emitted. Qed.

Lemma overflowMaskBodyOf_wf (r : Parser.Rule) (i : LintEngine.Issue) :
  In i (LintEngine.overflowMaskBodyOf toLowerCase r) ->
  wellFormedIssue i = true.
Proof. unfold LintEngine.overflowMaskBodyOf. intros H. emitted. Qed.

Lemma vwWidthRiskOf_wf (r : Parser.Rule) (i : LintEngine.Issue) :
  In i (LintEngine.vwWidthRiskOf r) -> wellFormedIssue i = true.
Proof. unfold LintEngine.vwWidthRiskOf. intros H. emitted. Qed.

Lemma breakpointFixedWidthOf_wf (r : Parser.Rule) (i : LintEngine.Issue) :
  In i (LintEngine.breakpointFixedWidthOf r) -> wellFormedIssue i = true.
Proof.
  unfold LintEngine.breakpointFixedWidthOf.
  destruct (LintEngine.inMedia r); [|contradiction].
  destruct (Re.spacedPx _); [|contradiction].
  destruct (LintEngine.decl r "width") as [w|]; [|contradiction].
  destruct (if truthy w then Re.intPx w else None); [|contradiction].
  intros H. emitted.
Qed.

Lemma flexFragilityOf_wf (r : Parser.Rule) (i : LintEngine.Issue) :
  In i (LintEngine.flexFragilityOf toLowerCase config r) ->
  wellFormedIssue i = true.
Proof.
  unfold LintEngine.flexFragilityOf.
  destruct (negb _); [contradiction|]. intros H. emitted.
Qed.

Lemma gridRigidityOf_wf (r : Parser.Rule) (i : LintEngine.Issue) :
  In i (LintEngine.gridRigidityOf toLowerCase config r) ->
  wellFormedIssue i = true.
Proof.
  unfold LintEngine.gridRigidityOf.
  destruct (negb _); [contradiction|]. intros H. emitted.
Qed.

Lemma absoluteContainmentOf_wf (r : Parser.Rule) (i : LintEngine.Issue) :
  In i (LintEngine.absoluteContainmentOf r) -> wellFormedIssue i = true.
Proof.
  unfold LintEngine.absoluteContainmentOf.
  destruct (negb _); [contradiction|]. intros H. emitted.
Qed.

Lemma antiPatternsOf_wf (r : Parser.Rule) (i : LintEngine.Issue) :
  In i (LintEngine.antiPatternsOf toLowerCase config r) ->
  wellFormedIssue i = true.
Proof.
  unfold LintEngine.antiPatternsOf. intros H.
  apply in_flat_map in H as (k & _ & H).
  unfold LintEngine.antiPatternsOfKey in H. emitted.
Qed.

Lemma detectMediaConflicts_wf (rs : list Parser.Rule)
  (issues : list LintEngine.Issue) :
  LintEngine.detectMediaConflicts rs = Ok issues ->
  forall i, In i issues -> wellFormedIssue i = true.
Proof.
  unfold LintEngine.detectMediaConflicts.
  destruct (LintEngine.groupBySelector rs) as [o|e]; simpl; [|discriminate].
  revert issues.
  induction (Obj.keys o) as [|sel sels IH]; simpl; intros issues.
  - intros H; inversion H; subst. intros i [].
  - unfold LintEngine.mediaConflictOf at 1.
    destruct (LintEngine.propsOf (LintEngine.getOr o sel [])) as [pm|e]; simpl;
      [|discriminate].
    destruct (LintEngine.collect (LintEngine.mediaConflictOf o) sels)
      as [more|e] eqn:Hmore; simpl; [|discriminate].
    intros H; inversion H; subst issues. intros i Hi.
    apply in_app_or in Hi as [Hi|Hi].
    + unfold LintEngine.when in Hi. destruct (existsb _ _); [|contradiction].
      destruct Hi as [<-|[]]. reflexivity.
    + now apply (IH more).
Qed.

Lemma detectMediaWidthInstability_wf (rs : list Parser.Rule)
  (issues : list LintEngine.Issue) :
  LintEngine.detectMediaWidthInstability rs = Ok issues ->
  forall i, In i issues -> wellFormedIssue i = true.
Proof.
  unfold LintEngine.detectMediaWidthInstability.
  destruct (LintEngine.widthMaps rs) as [maps|e]; simpl; [|discriminate].
  intros H; inversion H; subst issues. intros i Hi.
  apply in_flat_map in Hi as (sel & _ & Hi).
  unfold LintEngine.widthInstabilityOf in Hi.
  destruct (Obj.get (fst maps) sel) as [baseW|]; [|contradiction].
  destruct (negb (truthy baseW)); [contradiction|].
  unfold LintEngine.when in Hi. destruct (existsb _ _); [|contradiction].
  destruct Hi as [<-|[]]. reflexivity.
Qed.

Lemma runDetectors_wf (rs : list Parser.Rule)
  (issues : list LintEngine.Issue) :
  LintEngine.runDetectors toLowerCase config rs = Ok issues ->
  forall i, In i issues -> wellFormedIssue i = true.
Proof.
  unfold LintEngine.runDetectors.
  destruct (LintEngine.detectMediaConflicts rs) as [d4|e] eqn:H4; simpl;
    [|discriminate].
  destruct (LintEngine.detectMediaWidthInstability rs) as [d8|e] eqn:H8; simpl;
    [|discriminate].
  intros H; inversion H; subst issues; clear H. intros i Hi.
  repeat (apply in_app_or in Hi as [Hi|Hi]).
  - revert Hi. apply perRule_wf, fixedDimensionsOf_wf.
  - unfold LintEngine.detectBoxModel, LintEngine.when in Hi.
    destruct (_ && _); [|contradiction]. destruct Hi as [<-|[]]. reflexivity.
  - revert Hi. apply perRule_wf, overflowHorizontalOf_wf.
  - now apply (detectMediaConflicts_wf rs d4).
  - revert Hi. apply perRule_wf, overflowMaskBodyOf_wf.
  - revert Hi. apply perRule_wf, vwWidthRiskOf_wf.
  - revert Hi. apply perRule_wf, breakpointFixedWidthOf_wf.
  - now apply (detectMediaWidthInstability_wf rs d8).
  - revert Hi. apply perRule_wf, flexFragilityOf_wf.
  - revert Hi. apply perRule_wf, gridRigidityOf_wf.
  - revert Hi. apply perRule_wf, absoluteContainmentOf_wf.
  - revert Hi. apply perRule_wf, antiPatternsOf_wf.
Qed.

End Reports.

Lemma existsb_eqb_in (x : jsstring) (l : list jsstring) :
  existsb (JS.eqb x) l = true -> In x l.
Proof.
  intros H. apply existsb_exists in H as (y & Hy & E).
  apply eqb_eq in E. now subst.
Qed.

(** X18.  Every issue the twelve detectors report has one of the nineteen
    kinds, the keys of [typeMap] and "Layout property with !important",
    a severity among critical, medium and low, and a selector.  So the
    only reported kind without an entry in [typeMap] is "Layout property
    with !important". *)
Theorem runDetectors_reports_known_kinds
  (toLowerCase : jsstring -> jsstring) (config : LintEngine.Config)
  (rs : list Parser.Rule) (issues : list LintEngine.Issue)
  (i : LintEngine.Issue) :
  LintEngine.runDetectors toLowerCase config rs = Ok issues ->
  In i issues ->
  In (LintEngine.issue i) knownKinds
  /\ In (LintEngine.severity i) (map str ["critical"; "medium"; "low"]%string)
  /\ LintEngine.selector i <> None
  /\ (Obj.get LintEngine.typeMap (LintEngine.issue i) = None ->
      LintEngine.issue i = str "Layout property with !important").
Proof.
  intros Hrun Hi.
  pose proof (runDetectors_wf toLowerCase config rs issues Hrun i Hi) as Hwf.
  unfold wellFormedIssue in Hwf.
  apply andb_true_iff in Hwf as [Hwf Hsel].
  apply andb_true_iff in Hwf as [Hkind Hsev].
  apply existsb_eqb_in in Hkind. apply existsb_eqb_in in Hsev.
  repeat split; try assumption.
  - destruct (LintEngine.selector i); [discriminate|discriminate].
  - intros Hnone. apply get_none_keys in Hnone.
    unfold knownKinds in Hkind. apply in_app_or in Hkind as [Hk|[Hk|[]]];
      [contradiction|now symmetry].
Qed.

Lemma runDetectors_reports_known_kinds_witness :
  In (LintEngine.issue (LintEngine.base Scenario.importantIssue)) knownKinds
  /\ In (LintEngine.severity (LintEngine.base Scenario.importantIssue))
       (map str ["critical"; "medium"; "low"]%string)
  /\ LintEngine.selector (LintEngine.base Scenario.importantIssue) <> None
  /\ (Obj.get LintEngine.typeMap
        (LintEngine.issue (LintEngine.base Scenario.importantIssue)) = None ->
      LintEngine.issue (LintEngine.base Scenario.importantIssue)
      = str "Layout property with !important").
Proof.
  apply (runDetectors_reports_known_kinds Scenario.toLowerCaseAscii
           LintEngine.defaultConfig
           (Parser.rules
              (Parser.parseRules Scenario.toLowerCaseAscii
                 Scenario.importantCss))
           [LintEngine.base Scenario.importantIssue]).
  - vm_compute. reflexivity.
  - left. reflexivity.
Defined.

(** ** Strict mode reports whatever another mode reports *)

Section Modes.

Variable toLowerCase : jsstring -> jsstring.

Variables config strict : LintEngine.Config.

Hypothesis mode_strict : LintEngine.modeName toLowerCase strict = str "strict".

Hypothesis same_ignored :
  LintEngine.ignoreSelectors strict = LintEngine.ignoreSelectors config.

Lemma shouldReport_strict (kind : jsstring) (v : Num.number) :
  LintEngine.shouldReportFixedValue toLowerCase strict kind v = true.
Proof.
  unfold LintEngine.shouldReportFixedValue. now rewrite mode_strict.
Qed.

Lemma when_mono {A : Type} (c1 c2 : bool) (l : list A) :
  (c1 = true -> c2 = true) ->
  incl (LintEngine.when c1 l) (LintEngine.when c2 l).
Proof.
  intros H. unfold LintEngine.when. destruct c1.
  - rewrite H by reflexivity. apply incl_refl.
  - intros x [].
Qed.

Ltac weaker :=
  repeat apply incl_app_app; apply when_mono;
  rewrite ?shouldReport_strict, ?andb_true_r; intros H;
  repeat match goal with
         | H : _ && _ = true |- _ => apply andb_true_iff in H; destruct H
         end;
  repeat (apply andb_true_iff; split); auto.

Lemma fixedDimensionsOf_mono (r : Parser.Rule) :
  incl (LintEngine.fixedDimensionsOf toLowerCase config r)
       (LintEngine.fixedDimensionsOf toLowerCase strict r).
Proof. unfold LintEngine.fixedDimensionsOf. weaker. Qed.

Lemma flexFragilityOf_mono (r : Parser.Rule) :
  incl (LintEngine.flexFragilityOf toLowerCase config r)
       (LintEngine.flexFragilityOf toLowerCase strict r).
Proof.
  unfold LintEngine.flexFragilityOf.
  destruct (negb _); [apply incl_refl|]. weaker.
Qed.

Lemma gridRigidityOf_mono (r : Parser.Rule) :
  incl (LintEngine.gridRigidityOf toLowerCase config r)
       (LintEngine.gridRigidityOf toLowerCase strict r).
Proof.
  unfold LintEngine.gridRigidityOf.
  destruct (negb _); [apply incl_refl|].
  rewrite mode_strict.
  change (JS.eqb (str "strict") (str "pragmatic")) with false. cbv iota.
  weaker.
Qed.

Lemma antiPatternsOf_mono (r : Parser.Rule) :
  incl (LintEngine.antiPatternsOf toLowerCase config r)
       (LintEngine.antiPatternsOf toLowerCase strict r).
Proof.
  unfold LintEngine.antiPatternsOf. intros i Hi.
  apply in_flat_map in Hi as (k & Hk & Hi). apply in_flat_map.
  exists k. split; [exact Hk|]. revert i Hi.
  change (incl (LintEngine.antiPatternsOfKey toLowerCase config r k)
               (LintEngine.antiPatternsOfKey toLowerCase strict r k)).
  unfold LintEngine.antiPatternsOfKey. weaker.
Qed.

Lemma perRule_mono (guarded : bool)
  (f g : Parser.Rule -> list LintEngine.Issue) (rs : list Parser.Rule) :
  (forall r, incl (f r) (g r)) ->
  incl (LintEngine.perRule toLowerCase config guarded f rs)
       (LintEngine.perRule toLowerCase strict guarded g rs).
Proof.
  intros Hfg i Hi. unfold LintEngine.perRule in *.
  apply in_flat_map in Hi as (r & Hr & Hi). apply in_flat_map.
  exists r. split; [exact Hr|].
  unfold LintEngine.ignoredInDetector in *. rewrite same_ignored.
  destruct (guarded && _); [contradiction|]. now apply Hfg.
Qed.

Lemma runDetectors_mono (rs : list Parser.Rule)
  (issues : list LintEngine.Issue) :
  LintEngine.runDetectors toLowerCase config rs = Ok issues ->
  exists more,
    LintEngine.runDetectors toLowerCase strict rs = Ok more
    /\ incl issues more.
Proof.
  unfold LintEngine.runDetectors.
  destruct (LintEngine.detectMediaConflicts rs) as [d4|e]; simpl;
    [|discriminate].
  destruct (LintEngine.detectMediaWidthInstability rs) as [d8|e]; simpl;
    [|discriminate].
  intros H; inversion H; subst issues; clear H.
  eexists. split; [reflexivity|].
  unfold LintEngine.detectFixedDimensions, LintEngine.detectOverflowHorizontal,
    LintEngine.detectOverflowMaskBody, LintEngine.detectVwWidthRisk,
    LintEngine.detectBreakpointFixedWidth, LintEngine.detectFlexFragility,
    LintEngine.detectGridRigidity, LintEngine.detectAbsoluteContainment,
    LintEngine.detectAntiPatterns.
  repeat apply incl_app_app;
    try apply incl_refl;
    try (apply perRule_mono; intros r;
         first [ apply fixedDimensionsOf_mono | apply flexFragilityOf_mono
               | apply gridRigidityOf_mono | apply antiPatternsOf_mono
               | apply incl_refl ]).
Qed.

End Modes.

(** X19.  With the same ignore list, a configuration in strict mode
    reports every issue that any other configuration reports for the same
    style sheet and document, thresholds and mode notwithstanding; when
    the other analysis returns, so does the strict one. *)
Theorem strict_mode_reports_superset
  (toLowerCase : jsstring -> jsstring) (config strict : LintEngine.Config)
  (css : jsstring) (document : LintEngine.Document)
  (located : list LintEngine.Located) :
  LintEngine.modeName toLowerCase strict = str "strict" ->
  LintEngine.ignoreSelectors strict = LintEngine.ignoreSelectors config ->
  LintEngine.detectIssues toLowerCase config css document = Ok located ->
  exists more,
    LintEngine.detectIssues toLowerCase strict css document = Ok more
    /\ incl located more.
Proof.
  intros Hmode Hignored. unfold LintEngine.detectIssues.
  destruct (LintEngine.usesTextFallback document).
  - intros H. exists located. split; [exact H|apply incl_refl].
  - assert (Hfilter : forall rs,
              LintEngine.upfrontFilter toLowerCase strict rs
              = LintEngine.upfrontFilter toLowerCase config rs).
    { intros rs. unfold LintEngine.upfrontFilter, LintEngine.upfrontPatterns.
      now rewrite Hignored. }
    rewrite Hfilter.
    destruct (LintEngine.runDetectors toLowerCase config _) as [issues|e]
      eqn:Hrun; simpl; [|discriminate].
    intros H; inversion H; subst located; clear H.
    destruct (runDetectors_mono toLowerCase config strict Hmode Hignored
                _ _ Hrun) as (more & Hmore & Hincl).
    rewrite Hmore. simpl. eexists. split; [reflexivity|].
    unfold LintEngine.mapIssuesToLines. now apply incl_map.
Qed.

Lemma strict_mode_reports_superset_witness :
  exists more,
    LintEngine.detectIssues Scenario.toLowerCaseAscii LintEngine.defaultConfig
      Scenario.cardCss (Scenario.document "css" Scenario.cardCss) = Ok more
    /\ incl
         (match
            LintEngine.detectIssues Scenario.toLowerCaseAscii
              (LintEngine.mkConfig (str "pragmatic") (320 # 1) (320 # 1)
                 (24 # 1) [])
              Scenario.cardCss (Scenario.document "css" Scenario.cardCss)
          with
          | Ok located => located
          | Throw _ => []
          end) more.
Proof.
  apply (strict_mode_reports_superset Scenario.toLowerCaseAscii
           (LintEngine.mkConfig (str "pragmatic") (320 # 1) (320 # 1)
              (24 # 1) [])
           LintEngine.defaultConfig).
  - reflexivity.
  - reflexivity.
  - vm_compute. reflexivity.
Defined.

(** ** When the detectors throw *)

Lemma pushTo_ok {A : Type} (o : Obj.t (list A)) (k : jsstring) (a : A) :
  Obj.inherited k = false ->
  LintEngine.pushTo o k a
  = Ok (Obj.set o k
          (match Obj.get o k with Some l => l ++ [a] | None => [a] end)).
Proof. intros H. unfold LintEngine.pushTo. now rewrite H. Qed.

Lemma pushTo_throws {A : Type} (o : Obj.t (list A)) (k : jsstring) (a : A) :
  Obj.inherited k = true ->
  LintEngine.pushTo o k a = Throw LintEngine.typeErrorPush.
Proof. intros H. unfold LintEngine.pushTo. now rewrite H. Qed.

Lemma get_set {V : Type} (o : Obj.t V) (k k' : jsstring) (v : V) :
  Obj.get (Obj.set o k v) k' = if JS.eqb k' k then Some v else Obj.get o k'.
Proof.
  destruct (JS.eqb k' k) eqn:E.
  - apply eqb_eq in E. subst. apply get_set_same.
  - apply eqb_neq in E. now apply get_set_other.
Qed.

(** The groups of [bySelector] hold rules of the list, and every rule is
    in the group of its selector. *)
Lemma groupBySelector_ok (rs : list Parser.Rule) :
  (forall r, In r rs -> Obj.inherited (Parser.selector r) = false) ->
  exists o,
    LintEngine.groupBySelector rs = Ok o
    /\ (forall k l, Obj.get o k = Some l -> incl l rs)
    /\ (forall r, In r rs ->
          exists l, Obj.get o (Parser.selector r) = Some l /\ In r l).
Proof.
  unfold LintEngine.groupBySelector.
  assert (H : forall (rs all : list Parser.Rule) (o0 : Obj.t (list Parser.Rule)),
             (forall r, In r rs -> Obj.inherited (Parser.selector r) = false) ->
             incl rs all ->
             (forall k l, Obj.get o0 k = Some l -> incl l all) ->
             exists o,
               fold_left
                 (fun acc r =>
                    o <- acc ;; LintEngine.pushTo o (Parser.selector r) r)
                 rs (Ok o0) = Ok o
               /\ (forall k l, Obj.get o k = Some l -> incl l all)
               /\ (forall r, In r rs ->
                     exists l, Obj.get o (Parser.selector r) = Some l
                               /\ In r l)
               /\ (forall k l0 r, Obj.get o0 k = Some l0 -> In r l0 ->
                     exists l, Obj.get o k = Some l /\ In r l)).
  { clear rs. induction rs as [|r rs IH]; intros all o0 Hplain Hall Ho0.
    - exists o0. simpl. repeat split; try assumption.
      + intros r [].
      + intros k l0 r Hk Hr. now exists l0.
    - cbn [fold_left bind].
      rewrite pushTo_ok by (apply Hplain; now left).
      set (o1 := Obj.set o0 (Parser.selector r) _).
      assert (Ho1 : forall k l, Obj.get o1 k = Some l -> incl l all).
      { intros k l. unfold o1. rewrite get_set.
        destruct (JS.eqb k (Parser.selector r)) eqn:E; [|apply Ho0].
        intros Hl. inversion Hl; subst l. clear Hl.
        destruct (Obj.get o0 (Parser.selector r)) as [l0|] eqn:E0.
        - apply incl_app; [now apply (Ho0 _ _ E0)|].
          intros x [<-|[]]. apply Hall. now left.
        - intros x [<-|[]]. apply Hall. now left. }
      destruct (IH all o1) as (o & Hfold & Hin & Hrs & Hkeep);
        [intros r' Hr'; apply Hplain; now right
        |intros x Hx; apply Hall; now right
        |exact Ho1|].
      exists o. split; [exact Hfold|]. split; [exact Hin|]. split.
      + intros r' [<-|Hr']; [|now apply Hrs].
        apply (Hkeep (Parser.selector r)
                 (match Obj.get o0 (Parser.selector r) with
                  | Some l => l ++ [r]
                  | None => [r]
                  end)).
        * unfold o1. now rewrite get_set, eqb_refl.
        * destruct (Obj.get o0 (Parser.selector r));
            [apply in_or_app; right|]; now left.
      + intros k l0 r' Hk Hr'.
        destruct (JS.eqb k (Parser.selector r)) eqn:E.
        * apply eqb_eq in E. subst k.
          apply (Hkeep (Parser.selector r) (l0 ++ [r])).
          -- unfold o1. now rewrite get_set, eqb_refl, Hk.
          -- apply in_or_app. now left.
        * apply (Hkeep k l0); [|exact Hr'].
          unfold o1. now rewrite get_set, E. }
  intros Hplain.
  destruct (H rs rs [] Hplain (incl_refl rs)) as (o & Hfold & Hin & Hrs & _).
  - intros k l Hk. discriminate.
  - exists o. auto.
Qed.

Lemma insertIndex_has (k x : jsstring) (l : list jsstring) :
  k = x \/ In k l -> In k (Obj.insertIndex x l).
Proof.
  induction l as [|y l IH]; simpl.
  - intros [->|[]]. now left.
  - destruct (Obj.decimal x <=? Obj.decimal y)%N; simpl.
    + intros [->|H]; [now left|now right].
    + intros [->|[->|H]]; [right; apply IH; now left|now left|].
      right. apply IH. now right.
Qed.

Lemma sortIndices_has (k : jsstring) (l : list jsstring) :
  In k l -> In k (Obj.sortIndices l).
Proof.
  induction l as [|x l IH]; simpl; [tauto|].
  intros [->|H]; apply insertIndex_has; [now left|right; now apply IH].
Qed.

Lemma keys_has {V : Type} (o : Obj.t V) (k : jsstring) :
  In k (map fst o) -> In k (Obj.keys o).
Proof.
  intros H. unfold Obj.keys. apply in_or_app.
  destruct (Obj.isArrayIndex k) eqn:E.
  - left. apply sortIndices_has, filter_In. now split.
  - right. apply filter_In. split; [exact H|]. now rewrite E.
Qed.

Section Folds.

Variables A B : Type.

Variable step : result A -> B -> result A.

Variable E : jsstring.

Hypothesis sticky : forall e x, step (Throw e) x = Throw e.

Hypothesis only : forall o y e, step (Ok o) y = Throw e -> e = E.

Lemma fold_throw (l : list B) (e : jsstring) :
  fold_left step l (Throw e) = Throw e.
Proof. induction l as [|x l IH]; simpl; [reflexivity|]. now rewrite sticky. Qed.

Lemma fold_only (l : list B) :
  forall o e, fold_left step l (Ok o) = Throw e -> e = E.
Proof.
  induction l as [|x l IH]; intros o e; simpl; [discriminate|].
  destruct (step (Ok o) x) as [o'|e'] eqn:Hs.
  - apply IH.
  - rewrite fold_throw. intros H; inversion H; subst. now apply (only o x).
Qed.

Lemma fold_bad (l : list B) (x : B) :
  In x l -> (forall o, step (Ok o) x = Throw E) ->
  forall o, fold_left step l (Ok o) = Throw E.
Proof.
  intros Hin Hbad. induction l as [|y l IH]; intros o; [contradiction|].
  simpl. destruct Hin as [->|Hin].
  - rewrite Hbad. apply fold_throw.
  - destruct (step (Ok o) y) as [o'|e'] eqn:Hs.
    + now apply IH.
    + rewrite fold_throw. f_equal. now apply (only o y).
Qed.

Lemma fold_ok (l : list B) :
  (forall y, In y l -> forall o, exists o', step (Ok o) y = Ok o') ->
  forall o, exists o', fold_left step l (Ok o) = Ok o'.
Proof.
  induction l as [|y l IH]; intros Hl o; simpl; [now exists o|].
  destruct (Hl y (or_introl eq_refl) o) as [o' ->].
  apply IH. intros z Hz. apply Hl. now right.
Qed.

End Folds.

Lemma collect_ok {A B : Type} (f : A -> result (list B)) (l : list A) :
  (forall x, In x l -> exists y, f x = Ok y) ->
  exists ys, LintEngine.collect f l = Ok ys.
Proof.
  induction l as [|x l IH]; intros H; simpl; [now exists []|].
  destruct (H x (or_introl eq_refl)) as [y ->].
  destruct IH as [ys ->]; [intros z Hz; apply H; now right|].
  simpl. eexists. reflexivity.
Qed.

Lemma collect_throws {A B : Type} (f : A -> result (list B)) (l : list A)
  (x : A) (E : jsstring) :
  In x l -> f x = Throw E -> (forall y e, f y = Throw e -> e = E) ->
  LintEngine.collect f l = Throw E.
Proof.
  intros Hin Hx Honly. induction l as [|y l IH]; [contradiction|].
  simpl. destruct Hin as [->|Hin].
  - now rewrite Hx.
  - destruct (f y) as [v|e] eqn:Hy; simpl.
    + now rewrite IH.
    + f_equal. now apply (Honly y).
Qed.


Lemma pushKey_sticky (b : Parser.Rule) (e : jsstring) (k : jsstring) :
  pushKey b (Throw e) k = Throw e.
Proof. reflexivity. Qed.

Lemma pushTo_only {A : Type} (o : Obj.t (list A)) (k : jsstring) (a : A)
  (e : jsstring) :
  LintEngine.pushTo o k a = Throw e -> e = LintEngine.typeErrorPush.
Proof.
  unfold LintEngine.pushTo. destruct (Obj.inherited k); [|discriminate].
  intros H. now inversion H.
Qed.

Lemma pushKey_only (b : Parser.Rule) (o : Obj.t (list jsstring))
  (k e : jsstring) :
  pushKey b (Ok o) k = Throw e -> e = LintEngine.typeErrorPush.
Proof. unfold pushKey. simpl. apply pushTo_only. Qed.

Lemma pushKeys_sticky (e : jsstring) (b : Parser.Rule) :
  pushKeys (Throw e) b = Throw e.
Proof. unfold pushKeys. apply fold_throw. apply pushKey_sticky. Qed.

Lemma pushKeys_only (o : Obj.t (list jsstring)) (b : Parser.Rule)
  (e : jsstring) :
  pushKeys (Ok o) b = Throw e -> e = LintEngine.typeErrorPush.
Proof.
  unfold pushKeys.
  apply (fold_only _ _ (pushKey b) LintEngine.typeErrorPush
           (pushKey_sticky b) (pushKey_only b)).
Qed.

Lemma propsOf_loops (blocks : list Parser.Rule) :
  LintEngine.propsOf blocks = fold_left pushKeys blocks (Ok []).
Proof. reflexivity. Qed.

Lemma propsOf_ok (blocks : list Parser.Rule) :
  (forall b, In b blocks ->
     forall k, In k (map fst (Parser.declarations b)) ->
               Obj.inherited k = false) ->
  exists pm, LintEngine.propsOf blocks = Ok pm.
Proof.
  intros H. rewrite propsOf_loops. apply fold_ok.
  intros b Hb o. unfold pushKeys. apply fold_ok.
  intros k Hk o'. unfold pushKey. simpl.
  rewrite pushTo_ok; [eexists; reflexivity|].
  apply (H b Hb). now apply keys_in.
Qed.

Lemma propsOf_only (blocks : list Parser.Rule) (e : jsstring) :
  LintEngine.propsOf blocks = Throw e -> e = LintEngine.typeErrorPush.
Proof.
  rewrite propsOf_loops.
  apply (fold_only _ _ pushKeys LintEngine.typeErrorPush
           pushKeys_sticky pushKeys_only).
Qed.

Lemma propsOf_throws (blocks : list Parser.Rule) (b : Parser.Rule)
  (k : jsstring) :
  In b blocks -> In k (map fst (Parser.declarations b)) ->
  Obj.inherited k = true ->
  LintEngine.propsOf blocks = Throw LintEngine.typeErrorPush.
Proof.
  intros Hb Hk Hbad. rewrite propsOf_loops.
  apply (fold_bad _ _ pushKeys LintEngine.typeErrorPush
           pushKeys_sticky pushKeys_only blocks b Hb).
  intros o. unfold pushKeys.
  apply (fold_bad _ _ (pushKey b) LintEngine.typeErrorPush
           (pushKey_sticky b) (pushKey_only b) _ k (keys_has _ k Hk)).
  intros o'. unfold pushKey. simpl. now apply pushTo_throws.
Qed.

Lemma mediaConflictOf_only (o : Obj.t (list Parser.Rule)) (sel e : jsstring) :
  LintEngine.mediaConflictOf o sel = Throw e -> e = LintEngine.typeErrorPush.
Proof.
  unfold LintEngine.mediaConflictOf.
  destruct (LintEngine.propsOf _) as [pm|e'] eqn:Hp; simpl; [discriminate|].
  intros H; inversion H; subst. now apply propsOf_only in Hp.
Qed.

Lemma groupBySelector_throws (rs : list Parser.Rule) (r : Parser.Rule) :
  In r rs -> Obj.inherited (Parser.selector r) = true ->
  LintEngine.groupBySelector rs = Throw LintEngine.typeErrorPush.
Proof.
  intros Hr Hbad. unfold LintEngine.groupBySelector.
  apply (fold_bad _ _
           (fun acc r0 =>
              o <- acc ;; LintEngine.pushTo o (Parser.selector r0) r0)
           LintEngine.typeErrorPush) with (x := r).
  - reflexivity.
  - intros o y e. simpl. apply pushTo_only.
  - exact Hr.
  - intros o. simpl. now apply pushTo_throws.
Qed.

Lemma detectMediaConflicts_ok (rs : list Parser.Rule) :
  plainNames rs -> exists d, LintEngine.detectMediaConflicts rs = Ok d.
Proof.
  intros Hplain. unfold LintEngine.detectMediaConflicts.
  destruct (groupBySelector_ok rs) as (o & -> & Hin & _);
    [intros r Hr; now apply Hplain|].
  simpl. apply collect_ok. intros sel _.
  unfold LintEngine.mediaConflictOf.
  destruct (propsOf_ok (LintEngine.getOr o sel [])) as [pm ->].
  - unfold LintEngine.getOr.
    destruct (Obj.get o sel) as [l|] eqn:E; [|intros b []].
    intros b Hb. apply Hplain. now apply (Hin sel l E).
  - simpl. eexists. reflexivity.
Qed.

Lemma detectMediaConflicts_throws (rs : list Parser.Rule) (r : Parser.Rule) :
  In r rs ->
  (Obj.inherited (Parser.selector r) = true
   \/ exists k, In k (map fst (Parser.declarations r))
                /\ Obj.inherited k = true) ->
  LintEngine.detectMediaConflicts rs = Throw LintEngine.typeErrorPush.
Proof.
  intros Hr Hbad. unfold LintEngine.detectMediaConflicts.
  destruct (LintEngine.groupBySelector rs) as [o|e] eqn:Hg.
  - assert (Hsel : forall r0, In r0 rs ->
                     Obj.inherited (Parser.selector r0) = false).
    { intros r0 Hr0.
      destruct (Obj.inherited (Parser.selector r0)) eqn:E; [|reflexivity].
      rewrite (groupBySelector_throws rs r0 Hr0 E) in Hg. discriminate. }
    destruct Hbad as [Hbad|(k & Hk & Hbad)];
      [rewrite (Hsel r Hr) in Hbad; discriminate|].
    destruct (groupBySelector_ok rs Hsel) as (o' & Ho' & _ & Hgroups).
    rewrite Hg in Ho'. inversion Ho'; subst o'. clear Ho'.
    destruct (Hgroups r Hr) as (l & Hl & Hrl).
    simpl.
    apply (collect_throws _ _ (Parser.selector r)).
    + apply keys_has. destruct (in_dec (list_eq_dec N.eq_dec)
                                  (Parser.selector r) (map fst o))
        as [Hin|Hnot]; [exact Hin|].
      apply get_none_keys in Hnot. congruence.
    + unfold LintEngine.mediaConflictOf, LintEngine.getOr. rewrite Hl.
      now rewrite (propsOf_throws l r k Hrl Hk Hbad).
    + apply mediaConflictOf_only.
  - simpl. f_equal.
    unfold LintEngine.groupBySelector in Hg.
    apply (fold_only _ _
             (fun acc r0 =>
                o <- acc ;; LintEngine.pushTo o (Parser.selector r0) r0)
             LintEngine.typeErrorPush) in Hg; [exact Hg|reflexivity|].
    intros o y e'. simpl. apply pushTo_only.
Qed.

Lemma widthMaps_ok (rs : list Parser.Rule) :
  (forall r, In r rs -> Obj.inherited (Parser.selector r) = false) ->
  exists maps, LintEngine.widthMaps rs = Ok maps.
Proof.
  intros Hplain. unfold LintEngine.widthMaps. apply fold_ok.
  intros r Hr [baseMap mediaMap]. simpl.
  destruct (LintEngine.decl r "width") as [w|]; [|eexists; reflexivity].
  destruct (truthy w); [|eexists; reflexivity].
  destruct (LintEngine.inMedia r); [|eexists; reflexivity].
  rewrite pushTo_ok by now apply Hplain. simpl. eexists. reflexivity.
Qed.

(** X20.  The detectors return when no selector and no declaration name
    of the rules is the name of a member of [Object.prototype]; when one
    is, be it a selector such as [constructor] or a declaration name, they
    throw the [TypeError] of calling [push] on that member. *)
Theorem runDetectors_throws_on_inherited_names
  (toLowerCase : jsstring -> jsstring) (config : LintEngine.Config)
  (rs : list Parser.Rule) :
  (plainNames rs ->
   exists issues, LintEngine.runDetectors toLowerCase config rs = Ok issues)
  /\ (forall r,
        In r rs ->
        Obj.inherited (Parser.selector r) = true
        \/ (exists k, In k (map fst (Parser.declarations r))
                      /\ Obj.inherited k = true) ->
        LintEngine.runDetectors toLowerCase config rs
        = Throw LintEngine.typeErrorPush).
Proof.
  unfold LintEngine.runDetectors. split.
  - intros Hplain.
    destruct (detectMediaConflicts_ok rs Hplain) as [d4 ->].
    unfold LintEngine.detectMediaWidthInstability.
    destruct (widthMaps_ok rs) as [maps ->];
      [intros r Hr; now apply Hplain|].
    simpl. eexists. reflexivity.
  - intros r Hr Hbad.
    now rewrite (detectMediaConflicts_throws rs r Hr Hbad).
Qed.

(** The style sheet [constructor { width: 1px; }] makes [detectIssues]
    throw. *)
Lemma detectIssues_throws_on_constructor :
  LintEngine.detectIssues Scenario.toLowerCaseAscii LintEngine.defaultConfig
    (str "constructor { width: 1px; }")
    (Scenario.document "css" (str "constructor { width: 1px; }"))
  = Throw LintEngine.typeErrorPush.
Proof. vm_compute. reflexivity. Qed.

(** ** Line mapping *)

Lemma findIndex_lt {A : Type} (p : A -> bool) (l : list A) (n : nat) :
  LintEngine.findIndex p l = Some n -> n < length l.
Proof.
  revert n. induction l as [|a l IH]; intros n; simpl; [discriminate|].
  destruct (p a).
  - intros H; inversion H; lia.
  - destruct (LintEngine.findIndex p l) as [i|]; [|discriminate].
    intros H; inversion H; subst. specialize (IH i eq_refl). lia.
Qed.

Lemma searchLines_range (prop : option jsstring) (lines : list jsstring)
  (count : nat) :
  forall i t cols,
    LintEngine.searchLines prop lines i count = Some (t, cols) ->
    i <= t < i + count.
Proof.
  induction count as [|count IH]; intros i t cols; simpl; [discriminate|].
  destruct (LintEngine.locateIn prop (nth i lines [])).
  - intros H; inversion H; subst. lia.
  - intros H. apply IH in H. lia.
Qed.

Lemma locateIn_ordered (prop : option jsstring) (ln : jsstring)
  (startChar endChar : nat) :
  LintEngine.locateIn prop ln = Some (startChar, endChar) ->
  startChar <= endChar.
Proof.
  unfold LintEngine.locateIn.
  destruct (match
              match prop with
              | Some p =>
                  if truthy p then Re.match0 (Re.propertyHere p) ln else None
              | None => None
              end
            with
            | Some m => Some m
            | None => Re.match0 Re.boundedUnitHere ln
            end) as [full|]; [|discriminate].
  destruct (Re.match0 Re.boundedUnitHere full);
    intros H; inversion H; lia.
Qed.

Lemma searchLines_ordered (prop : option jsstring) (lines : list jsstring)
  (count : nat) :
  forall i t startChar endChar,
    LintEngine.searchLines prop lines i count = Some (t, (startChar, endChar)) ->
    startChar <= endChar.
Proof.
  induction count as [|count IH]; intros i t s e; simpl; [discriminate|].
  destruct (LintEngine.locateIn prop (nth i lines [])) as [[s' e']|] eqn:E.
  - intros H; inversion H; subst. now apply locateIn_ordered in E.
  - apply IH.
Qed.

Lemma mapIssueToLine_located (lines : list jsstring) (i : LintEngine.Issue) :
  lines <> [] ->
  let loc := LintEngine.mapIssueToLine lines i in
  LintEngine.base loc = i
  /\ LintEngine.suggestion loc = Some (LintEngine.correction i)
  /\ LintEngine.lineNumber loc < length lines
  /\ LintEngine.startLine (LintEngine.range loc) = LintEngine.lineNumber loc
  /\ LintEngine.endLine (LintEngine.range loc) = LintEngine.lineNumber loc
  /\ LintEngine.startChar (LintEngine.range loc)
     <= LintEngine.endChar (LintEngine.range loc).
Proof.
  intros Hne loc. subst loc. unfold LintEngine.mapIssueToLine.
  set (sel := match LintEngine.selector i with
              | Some s => s
              | None => str "undefined"
              end).
  set (lineNumber := match LintEngine.findIndex _ lines with
                     | Some n => n
                     | None => 0
                     end).
  assert (Hline : lineNumber < length lines).
  { unfold lineNumber.
    destruct (LintEngine.findIndex _ lines) as [n|] eqn:E.
    - now apply findIndex_lt in E.
    - destruct lines; [contradiction|simpl; lia]. }
  set (endBlockLine := match LintEngine.findIndex _ (skipn lineNumber lines) with
                       | Some n => lineNumber + n
                       | None => Nat.min (length lines - 1) (lineNumber + 10)
                       end).
  assert (Hend : lineNumber <= endBlockLine < length lines).
  { unfold endBlockLine.
    destruct (LintEngine.findIndex _ (skipn lineNumber lines)) as [n|] eqn:E.
    - apply findIndex_lt in E. rewrite length_skipn in E. lia.
    - lia. }
  destruct (LintEngine.searchLines _ lines lineNumber _)
    as [[targetLine [startChar endChar]]|] eqn:Es; cbn.
  - pose proof (searchLines_range _ _ _ _ _ _ Es).
    pose proof (searchLines_ordered _ _ _ _ _ _ _ Es).
    repeat split; try reflexivity; lia.
  - repeat split; try reflexivity; lia.
Qed.

(** X21.  For issues whose property is absent or an identifier, as the
    detectors make them, [mapIssuesToLines] returns the issues in their
    order, each with its [correction] as [suggestion], a line number that
    is a line of the document, and a range that lies on that line and does
    not end before it starts. *)
Theorem mapIssuesToLines_located (issues : list LintEngine.Issue)
  (document : LintEngine.Document) :
  Forall (fun i => identifierProperty i = true) issues ->
  let located := LintEngine.mapIssuesToLines issues document in
  map LintEngine.base located = issues
  /\ forall loc,
       In loc located ->
       LintEngine.suggestion loc
       = Some (LintEngine.correction (LintEngine.base loc))
       /\ LintEngine.lineNumber loc
          < length (split 10 (LintEngine.getText document))
       /\ LintEngine.startLine (LintEngine.range loc)
          = LintEngine.lineNumber loc
       /\ LintEngine.endLine (LintEngine.range loc) = LintEngine.lineNumber loc
       /\ LintEngine.startChar (LintEngine.range loc)
          <= LintEngine.endChar (LintEngine.range loc).
Proof.
  intros _ located. split; [apply mapIssuesToLines_base|].
  intros loc Hloc. unfold located, LintEngine.mapIssuesToLines in Hloc.
  apply in_map_iff in Hloc as (i & <- & _).
  destruct (mapIssueToLine_located (split 10 (LintEngine.getText document)) i
              (split_nonempty 10 _))
    as (Hb & Hs & Hl & Hsl & Hel & Hc).
  rewrite Hb. auto.
Qed.

Lemma mapIssuesToLines_located_witness :
  let located :=
    LintEngine.mapIssuesToLines [LintEngine.base lessIssue]
      (Scenario.document "css" Scenario.lessCss) in
  map LintEngine.base located = [LintEngine.base lessIssue]
  /\ forall loc,
       In loc located ->
       LintEngine.suggestion loc
       = Some (LintEngine.correction (LintEngine.base loc))
       /\ LintEngine.lineNumber loc
          < length (split 10 (LintEngine.getText
                                (Scenario.document "css" Scenario.lessCss)))
       /\ LintEngine.startLine (LintEngine.range loc)
          = LintEngine.lineNumber loc
       /\ LintEngine.endLine (LintEngine.range loc) = LintEngine.lineNumber loc
       /\ LintEngine.startChar (LintEngine.range loc)
          <= LintEngine.endChar (LintEngine.range loc).
Proof.
  apply (mapIssuesToLines_located [LintEngine.base lessIssue]
           (Scenario.document "css" Scenario.lessCss)).
  repeat constructor.
Defined.

(** ** The text fallback reports matching lines only *)

Lemma textIssue_sound (name kind expl impact corr : string) (i : nat)
  (ln : jsstring) (here : list LintEngine.Located) :
  LintEngine.textIssue name kind expl impact corr i ln = Ok here ->
  forall loc, In loc here -> textReport name kind i ln loc.
Proof.
  unfold LintEngine.textIssue.
  destruct (Re.match0 (Re.namedPxHere (str name ++ [58%N])) ln) as [m0|] eqn:E.
  - destruct (Re.match0 Re.unitHere m0) as [unit0|]; [|discriminate].
    intros H; inversion H; subst here. intros loc [<-|[]].
    unfold textReport. cbn. rewrite E. repeat split. discriminate.
  - intros H; inversion H; subst here. intros loc [].
Qed.

Lemma textLoop_sound (lines : list jsstring) :
  forall i located,
    LintEngine.textLoop i lines = Ok located ->
    forall loc, In loc located ->
      exists j ln,
        nth_error lines j = Some ln
        /\ (textReport "width" "Fixed width" (i + j) ln loc
            \/ textReport "height" "Fixed height" (i + j) ln loc).
Proof.
  induction lines as [|ln lines IH]; intros i located; simpl.
  - intros H; inversion H; subst. intros loc [].
  - unfold LintEngine.textIssuesOfLine.
    destruct (LintEngine.textIssue "width" _ _ _ _ i ln) as [w|e] eqn:Hw;
      simpl; [|discriminate].
    destruct (LintEngine.textIssue "height" _ _ _ _ i ln) as [h|e] eqn:Hh;
      simpl; [|discriminate].
    destruct (LintEngine.textLoop (S i) lines) as [more|e] eqn:Hmore;
      simpl; [|discriminate].
    intros H; inversion H; subst located; clear H. intros loc Hloc.
    apply in_app_or in Hloc as [Hloc|Hloc];
      [apply in_app_or in Hloc as [Hloc|Hloc]|].
    + exists 0, ln. rewrite Nat.add_0_r. split; [reflexivity|left].
      exact (textIssue_sound _ _ _ _ _ _ _ _ Hw loc Hloc).
    + exists 0, ln. rewrite Nat.add_0_r. split; [reflexivity|right].
      exact (textIssue_sound _ _ _ _ _ _ _ _ Hh loc Hloc).
    + destruct (IH (S i) more Hmore loc Hloc) as (j & ln' & Hnth & Hrep).
      exists (S j), ln'. split; [exact Hnth|].
      now replace (i + S j) with (S i + j) by lia.
Qed.

(** X22.  Every issue of the text fallback comes from a line of the text
    that matches the width or the height pattern: it is a medium "Fixed
    width" or "Fixed height" issue, its value is the text matched on that
    line, its line number and its range are those of the line, and it has
    neither selector nor suggestion. *)
Theorem detectIssuesFromText_sound (css : jsstring)
  (document : LintEngine.Document) (located : list LintEngine.Located)
  (loc : LintEngine.Located) :
  LintEngine.detectIssuesFromText css document = Ok located ->
  In loc located ->
  exists ln,
    nth_error (split 10 css) (LintEngine.lineNumber loc) = Some ln
    /\ (textReport "width" "Fixed width" (LintEngine.lineNumber loc) ln loc
        \/ textReport "height" "Fixed height" (LintEngine.lineNumber loc)
             ln loc).
Proof.
  unfold LintEngine.detectIssuesFromText. intros H Hloc.
  destruct (textLoop_sound _ 0 located H loc Hloc) as (j & ln & Hnth & Hrep).
  simpl in Hrep.
  assert (Hj : LintEngine.lineNumber loc = j).
  { destruct Hrep as [Hr|Hr]; unfold textReport in Hr; tauto. }
  rewrite Hj. now exists ln.
Qed.

Lemma detectIssuesFromText_sound_witness :
  exists ln,
    nth_error (split 10 Scenario.lessCss) (LintEngine.lineNumber lessIssue)
    = Some ln
    /\ (textReport "width" "Fixed width" (LintEngine.lineNumber lessIssue)
          ln lessIssue
        \/ textReport "height" "Fixed height"
             (LintEngine.lineNumber lessIssue) ln lessIssue).
Proof.
  apply (detectIssuesFromText_sound Scenario.lessCss
           (Scenario.document "less" Scenario.lessCss) [lessIssue] lessIssue).
  - vm_compute. reflexivity.
  - left. reflexivity.
Defined.

(** ** The size of a diagram *)

Lemma plainText_app (a b : jsstring) :
  plainText (a ++ b) = plainText a && plainText b.
Proof. apply forallb_app. Qed.

Lemma plainText_repeat (c : N) (n : nat) :
  plainUnit c = true -> plainText (repeat c n) = true.
Proof.
  intros H. induction n as [|n IH]; [reflexivity|].
  simpl. now rewrite H, IH.
Qed.

Lemma plainText_in (s : jsstring) :
  plainText s = true <-> forall c, In c s -> plainUnit c = true.
Proof. apply forallb_forall. Qed.

Lemma plainText_no_high (s : jsstring) :
  plainText s = true -> Forall (fun c => isHigh c = false) s.
Proof.
  intros H. apply Forall_forall. intros c Hc.
  apply (proj1 (plainText_in s) H) in Hc.
  unfold plainUnit in Hc. apply andb_true_iff in Hc as [Hc _].
  now apply negb_true_iff in Hc.
Qed.

Lemma plainText_no_break (s : jsstring) :
  plainText s = true -> ~ In 10%N s.
Proof.
  intros H Hin. apply (proj1 (plainText_in s) H) in Hin. discriminate.
Qed.

Lemma take_units (cs : list jsstring) :
  forall t cur c, In c (take t cur cs) -> In c (concat cs).
Proof.
  induction cs as [|char cs IH]; intros t cur c; [contradiction|].
  rewrite take_cons. destruct (t <? _)%nat; [contradiction|].
  intros H. rewrite concat_cons. apply in_or_app.
  apply in_app_or in H as [H|H]; [now left|right; now apply IH in H].
Qed.

Lemma pad_plain (t : jsstring) (w : nat) :
  plainText t = true -> plainText (pad t w) = true.
Proof.
  intros H. unfold pad, TextFormatter.pad.
  destruct (w <=? visualLength t)%nat.
  - unfold truncate. destruct (visualLength t <=? w)%nat; [exact H|].
    rewrite plainText_app. apply andb_true_iff. split; [|reflexivity].
    apply plainText_in. intros c Hc. apply take_units in Hc.
    rewrite concat_chars in Hc. now apply (proj1 (plainText_in t) H).
  - rewrite plainText_app, H. now apply plainText_repeat.
Qed.

Lemma pad_length_plain (t : jsstring) (w : nat) :
  1 <= w -> plainText t = true -> length (pad t w) <= w.
Proof.
  intros Hw Hplain. apply plainText_no_high in Hplain.
  pose proof (visualLength_lower_aux (length t) t (le_n _)) as [Hlo _].
  unfold pad, TextFormatter.pad.
  destruct (Nat.leb_spec w (visualLength t)) as [H|H].
  - unfold truncate.
    destruct (Nat.leb_spec (visualLength t) w) as [H'|H']; [lia|].
    rewrite length_app. simpl length.
    rewrite chars_no_pair by assumption.
    pose proof (length_take_le (map single t) (w - 1) 0) as Hl.
    assert (Hs : Forall (fun char => length char <= 1) (map single t)).
    { apply Forall_forall. intros char Hin.
      apply in_map_iff in Hin as (c & <- & _). simpl. lia. }
    specialize (Hl Hs). lia.
  - rewrite length_app, length_spaces. lia.
Qed.

Lemma unitsOfUint_plainText (u : Decimal.uint) :
  plainText (Viz.unitsOfUint u) = true.
Proof. induction u; simpl; try reflexivity; assumption. Qed.

Lemma showLine_plain (l : option Z) : plainText (Viz.showLine l) = true.
Proof.
  destruct l as [z|]; [|reflexivity].
  destruct z; unfold Viz.showLine, Viz.showInt;
    first [apply unitsOfUint_plainText
          |cbn [plainText forallb]; apply unitsOfUint_plainText].
Qed.

Lemma severityEmoji_plain (s : option jsstring) :
  plainUnit (getSeverityEmoji s) = true.
Proof.
  unfold getSeverityEmoji. destruct s as [s|]; [|reflexivity].
  destruct (JS.eqb s (str "critical")); [reflexivity|].
  destruct (JS.eqb s (str "medium")); reflexivity.
Qed.

Lemma framed_line (t : jsstring) :
  plainText t = true ->
  length ([CHARS.V_LINE] ++ pad t 58 ++ [CHARS.V_LINE]) <= 60
  /\ plainText ([CHARS.V_LINE] ++ pad t 58 ++ [CHARS.V_LINE]) = true.
Proof.
  intros H. split.
  - rewrite !length_app. simpl length.
    pose proof (pad_length_plain t 58 ltac:(lia) H). lia.
  - rewrite !plainText_app, (pad_plain t 58 H). reflexivity.
Qed.

Lemma halves_plain (b a : jsstring) :
  plainText b = true -> plainText a = true ->
  plainText (pad b 29 ++ str " " ++ pad a 28) = true.
Proof.
  intros Hb Ha.
  now rewrite !plainText_app, (pad_plain b 29 Hb), (pad_plain a 28 Ha).
Qed.

Lemma nth_plain (ls : list jsstring) (i : nat) :
  Forall (fun l => plainText l = true) ls -> plainText (nth i ls []) = true.
Proof.
  intros H. destruct (Nat.lt_ge_cases i (length ls)) as [Hi|Hi].
  - apply (proj1 (Forall_forall _ ls) H). now apply nth_In.
  - now rewrite nth_overflow.
Qed.

(** The lines of a standard diagram, when the texts put into it are
    plain. *)
Lemma standardLines_bounded (issue : Viz.Issue) (typeLabel : string)
  (beforeContent afterContent : list jsstring) :
  plainText (toUpperCase (str typeLabel)) = true ->
  plainText (Viz.show (Viz.property issue)) = true ->
  plainText (Viz.show (Viz.value issue)) = true ->
  plainText (suggestionOf issue) = true ->
  Forall (fun l => plainText l = true) beforeContent ->
  Forall (fun l => plainText l = true) afterContent ->
  length (standardLines issue typeLabel beforeContent afterContent)
  = 6 + Nat.max (length beforeContent) (length afterContent)
  /\ Forall (fun l => length l <= 60 /\ plainText l = true)
       (standardLines issue typeLabel beforeContent afterContent).
Proof.
  intros Hlabel Hprop Hvalue Hsugg Hb Ha. split.
  - unfold standardLines, renderHeader, renderComparison, renderFooter.
    cbv zeta. rewrite !length_app, length_map, length_seq. simpl length.
    cbn [createBeforeLayout createAfterLayout content]. lia.
  - assert (Hmeasure :
      plainText (pad (beforeText issue) 29 ++ str " "
                 ++ pad (afterText issue) 28) = true).
    { apply halves_plain; unfold beforeText, afterText;
        now rewrite !plainText_app, ?Hprop, ?Hvalue, ?Hsugg. }
    assert (Htitle :
      plainText (toUpperCase (str typeLabel) ++ str " " ++ [CHARS.DOT]
                 ++ str " " ++ [getSeverityEmoji (Viz.severity issue)]
                 ++ str " " ++ [CHARS.DOT] ++ str " L"
                 ++ Viz.showLine (Viz.line issue)) = true).
    { rewrite !plainText_app, Hlabel, showLine_plain.
      cbn [plainText forallb]. now rewrite severityEmoji_plain. }
    unfold standardLines. apply Forall_app. split; [|apply Forall_app; split].
    + unfold renderHeader. cbv zeta.
      cbn [htype hseverity severityEmoji hlineNo].
      apply Forall_cons; [split; [vm_compute; lia|reflexivity]|].
      apply Forall_cons; [exact (framed_line _ Htitle)|].
      apply Forall_cons; [split; [vm_compute; lia|reflexivity]|].
      apply Forall_nil.
    + unfold renderComparison. cbv zeta.
      cbn [createBeforeLayout createAfterLayout content label statusEmoji
           measurements].
      apply Forall_app. split; [|apply Forall_app; split].
      * apply Forall_cons; [split; [vm_compute; lia|reflexivity]|].
        apply Forall_nil.
      * apply Forall_forall. intros l Hl.
        apply in_map_iff in Hl as (i & <- & _).
        unfold contentLine. cbv zeta. cbn [content].
        apply framed_line, halves_plain; now apply nth_plain.
      * apply Forall_cons; [exact (framed_line _ Hmeasure)|].
        apply Forall_nil.
    + unfold renderFooter. cbv zeta.
      apply Forall_cons; [split; [vm_compute; lia|reflexivity]|].
      apply Forall_nil.
Qed.

Ltac plain_lines :=
  cbv zeta;
  repeat match goal with
         | |- context [if ?c then _ else _] => destruct c
         end;
  repeat (apply Forall_app; split);
  repeat apply Forall_cons; try apply Forall_nil;
  unfold top, bottom, border, hrule, fill;
  rewrite ?plainText_app, ?plainText_repeat by reflexivity; reflexivity.

Ltac few_lines :=
  cbv zeta;
  repeat match goal with
         | |- context [if ?c then _ else _] => destruct c
         end;
  simpl length; lia.

Ltac standard_generator :=
  intros issue; cbv zeta;
  match goal with
  | |- exists l b a, generateStandardVisualization _ ?L ?B ?A = _ /\ _ =>
      exists L, B, A
  end;
  split; [reflexivity|];
  split; [vm_compute; reflexivity|];
  split; [plain_lines|];
  split; [plain_lines|];
  split; few_lines.

Lemma generator_contents (gen : Viz.Issue -> Viz.Visualization) :
  In gen generateMethods ->
  forall issue, exists typeLabel beforeContent afterContent,
    gen issue
    = generateStandardVisualization issue typeLabel beforeContent afterContent
    /\ plainText (toUpperCase (str typeLabel)) = true
    /\ Forall (fun l => plainText l = true) beforeContent
    /\ Forall (fun l => plainText l = true) afterContent
    /\ length beforeContent <= 6
    /\ length afterContent <= 6.
Proof.
  unfold generateMethods. intros Hgen.
  repeat (destruct Hgen as [<-|Hgen]; [|]); try contradiction.
  - unfold FixedDimensionsGenerator.generate,
      FixedDimensionsGenerator.renderFixedBox,
      FixedDimensionsGenerator.renderResponsiveBox. standard_generator.
  - unfold ViewportOverflowGenerator.generate,
      ViewportOverflowGenerator.renderViewportOverflow,
      ViewportOverflowGenerator.renderResponsiveViewport. standard_generator.
  - unfold FlexFragilityGenerator.generate,
      FlexFragilityGenerator.renderRigidFlex,
      FlexFragilityGenerator.renderFlexibleFlex. standard_generator.
  - unfold GridRigidityGenerator.generate,
      GridRigidityGenerator.renderRigidGrid,
      GridRigidityGenerator.renderResponsiveGrid. standard_generator.
  - unfold FixedSpacingGenerator.generate,
      FixedSpacingGenerator.renderFixedSpacing,
      FixedSpacingGenerator.renderResponsiveSpacing,
      FixedSpacingGenerator.spacingBox. standard_generator.
  - unfold MediaInstabilityGenerator.generate,
      MediaInstabilityGenerator.renderUnstableMedia,
      MediaInstabilityGenerator.renderStableMedia. standard_generator.
  - unfold OverflowMaskingGenerator.generate,
      OverflowMaskingGenerator.renderMaskedOverflow,
      OverflowMaskingGenerator.renderVisibleOverflow. standard_generator.
  - unfold BreakpointExceededGenerator.generate,
      BreakpointExceededGenerator.renderExceededBreakpoint,
      BreakpointExceededGenerator.renderAdjustedBreakpoint.
    standard_generator.
  - unfold AbsoluteRigidityGenerator.generate,
      AbsoluteRigidityGenerator.renderAbsolutePositioning,
      AbsoluteRigidityGenerator.renderFlexiblePositioning,
      AbsoluteRigidityGenerator.positioned. standard_generator.
  - unfold BoxInconsistencyGenerator.generate,
      BoxInconsistencyGenerator.renderContentBox,
      BoxInconsistencyGenerator.renderBorderBox. standard_generator.
  - unfold OverflowHorizontalGenerator.generate,
      OverflowHorizontalGenerator.renderHorizontalOverflow,
      OverflowHorizontalGenerator.renderContainedContent.
    standard_generator.
  - unfold NowrapFixedGenerator.generate,
      NowrapFixedGenerator.renderNowrapOverflow,
      NowrapFixedGenerator.renderWrappedText. standard_generator.
Qed.

(** X23.  For each of the twelve generator classes, the diagram of an
    issue whose property, value and suggestion hold no high surrogate and
    no line feed has at most twelve lines, each of at most 60 code
    units; its [height] field is the number of its lines and its
    [width] field is 60. *)
Theorem diagram_within_size (gen : Viz.Issue -> Viz.Visualization)
  (issue : Viz.Issue) :
  In gen generateMethods ->
  plainText (Viz.show (Viz.property issue)) = true ->
  plainText (Viz.show (Viz.value issue)) = true ->
  plainText (suggestionOf issue) = true ->
  let lines := split 10 (Viz.ascii (gen issue)) in
  length lines <= 12
  /\ Forall (fun l => length l <= 60) lines
  /\ Viz.height (gen issue) = length lines
  /\ Viz.width (gen issue) = 60.
Proof.
  intros Hgen Hprop Hvalue Hsugg lines.
  destruct (generator_contents gen Hgen issue)
    as (typeLabel & b & a & Heq & Hlabel & Hb & Ha & Hlb & Hla).
  destruct (standardLines_bounded issue typeLabel b a
              Hlabel Hprop Hvalue Hsugg Hb Ha) as [Hlen Hlines].
  assert (Hsplit : lines = standardLines issue typeLabel b a).
  { unfold lines. rewrite Heq, ascii_standard. apply split_join.
    - intros E. rewrite E in Hlen. simpl in Hlen. lia.
    - eapply Forall_impl; [|exact Hlines].
      intros l [_ Hl]. now apply plainText_no_break. }
  rewrite Hsplit, Heq. repeat split.
  - rewrite Hlen. lia.
  - eapply Forall_impl; [|exact Hlines]. now intros l [Hl _].
Qed.

Lemma diagram_within_size_witness :
  length (split 10 (Viz.ascii (GridRigidityGenerator.generate
                                 Scenario.gridIssue))) <= 12.
Proof.
  apply (diagram_within_size GridRigidityGenerator.generate
           Scenario.gridIssue);
    [unfold generateMethods; simpl; tauto | reflexivity | reflexivity
    | reflexivity].
Defined.

(** ** The two conversions *)

Lemma typeMap_types_truthy (kind type : jsstring) :
  Obj.get LintEngine.typeMap kind = Some type -> truthy type = true.
Proof.
  unfold LintEngine.typeMap. cbn [map fst snd Obj.get].
  repeat match goal with
    | |- context [JS.eqb kind ?k] => destruct (JS.eqb kind k)
    end;
    intros H; inversion H; reflexivity.
Qed.

Lemma stats_typeMap_get (kind : jsstring) :
  Obj.get StatsModel.typeMap kind
  = match Obj.get LintEngine.typeMap kind with
    | Some type => Some (Some type)
    | None =>
        if JS.eqb kind (str "Layout property with !important")
        then Some None else None
    end.
Proof.
  unfold StatsModel.typeMap.
  induction LintEngine.typeMap as [|[k t] m IH]; simpl.
  - reflexivity.
  - destruct (JS.eqb kind k); [reflexivity|exact IH].
Qed.

(** X24.  The copy of [mapToVisualizerIssue] in the statistics model and
    the one in the engine throw on the same issues; where the copy of the
    statistics model returns a visualizer issue, the engine returns the
    same one; and it returns [null] exactly for the kinds that are no key
    of the table, which the engine converts to [fixed-dimensions]. *)
Theorem mapToVisualizerIssue_copies (located : LintEngine.Located) :
  (forall e,
     StatsModel.mapToVisualizerIssue located = Throw e
     <-> LintEngine.mapToVisualizerIssue located = Throw e)
  /\ (forall v,
        StatsModel.mapToVisualizerIssue located = Ok (Some v) ->
        LintEngine.mapToVisualizerIssue located = Ok v)
  /\ (StatsModel.mapToVisualizerIssue located = Ok None
      <-> Obj.inherited (LintEngine.issue (LintEngine.base located)) = false
          /\ Obj.get LintEngine.typeMap
               (LintEngine.issue (LintEngine.base located)) = None)
  /\ (StatsModel.mapToVisualizerIssue located = Ok None ->
      exists v,
        LintEngine.mapToVisualizerIssue located = Ok v
        /\ Viz.type v = Some (str "fixed-dimensions")).
Proof.
  unfold LintEngine.mapToVisualizerIssue, StatsModel.mapToVisualizerIssue.
  rewrite stats_typeMap_get.
  destruct (Obj.inherited _) eqn:Hinh.
  - split; [intros e; split; intros H; inversion H; reflexivity|].
    split; [discriminate|].
    split; [|discriminate].
    split; [discriminate|intros [H _]; discriminate].
  - destruct (Obj.get LintEngine.typeMap _) as [type|] eqn:Hget.
    + rewrite (typeMap_types_truthy _ _ Hget).
      split; [intros e; split; discriminate|].
      split; [intros v H; congruence|].
      split; [|discriminate].
      split; [discriminate|intros [_ H]; discriminate].
    + assert (Hnone :
        (if JS.eqb (LintEngine.issue (LintEngine.base located))
              (str "Layout property with !important")
         then Some (@None jsstring) else None) = Some None
        \/ (if JS.eqb (LintEngine.issue (LintEngine.base located))
              (str "Layout property with !important")
         then Some (@None jsstring) else None) = None).
      { destruct (JS.eqb _ _); [now left|now right]. }
      destruct Hnone as [-> | ->].
      * split; [intros e; split; discriminate|].
        split; [discriminate|].
        split; [tauto|].
        intros _. eexists. split; reflexivity.
      * split; [intros e; split; discriminate|].
        split; [discriminate|].
        split; [tauto|].
        intros _. eexists. split; reflexivity.
Qed.

(** ** The statistics model *)

Lemma countSeverity_spec (c : StatsModel.Counts) (s : jsstring) :
  StatsModel.critical (StatsModel.countSeverity c s)
  = StatsModel.critical c + Nat.b2n (JS.eqb s (str "critical"))
  /\ StatsModel.medium (StatsModel.countSeverity c s)
     = StatsModel.medium c + Nat.b2n (JS.eqb s (str "medium"))
  /\ StatsModel.low (StatsModel.countSeverity c s)
     = StatsModel.low c + Nat.b2n (JS.eqb s (str "low")).
Proof.
  unfold StatsModel.countSeverity.
  destruct (JS.eqb s (str "critical")) eqn:E1.
  { apply eqb_eq in E1. subst s. cbn. repeat split; lia. }
  destruct (JS.eqb s (str "medium")) eqn:E2.
  { apply eqb_eq in E2. subst s. cbn. repeat split; lia. }
  destruct (JS.eqb s (str "low")) eqn:E3.
  { cbn. repeat split; lia. }
  cbn. repeat split; lia.
Qed.

Lemma countType_spec (c : StatsModel.TypeCounts) (t : jsstring) :
  StatsModel.flex (StatsModel.countType c t)
  = StatsModel.flex c + Nat.b2n (JS.eqb t (str "flex"))
  /\ StatsModel.grid (StatsModel.countType c t)
     = StatsModel.grid c + Nat.b2n (JS.eqb t (str "grid"))
  /\ StatsModel.overflow (StatsModel.countType c t)
     = StatsModel.overflow c + Nat.b2n (JS.eqb t (str "overflow"))
  /\ StatsModel.other (StatsModel.countType c t)
     = StatsModel.other c + Nat.b2n (JS.eqb t (str "other")).
Proof.
  unfold StatsModel.countType.
  destruct (JS.eqb t (str "flex")) eqn:E1.
  { apply eqb_eq in E1. subst t. cbn. repeat split; lia. }
  destruct (JS.eqb t (str "grid")) eqn:E2.
  { apply eqb_eq in E2. subst t. cbn. repeat split; lia. }
  destruct (JS.eqb t (str "overflow")) eqn:E3.
  { apply eqb_eq in E3. subst t. cbn. repeat split; lia. }
  destruct (JS.eqb t (str "other")) eqn:E4.
  { cbn. repeat split; lia. }
  cbn. repeat split; lia.
Qed.

Lemma length_filter_cons {A : Type} (p : A -> bool) (x : A) (l : list A) :
  length (filter p (x :: l)) = Nat.b2n (p x) + length (filter p l).
Proof.
  simpl. now destruct (p x).
Qed.

Lemma fold_countSeverity (l : list jsstring) :
  forall c,
    let r := fold_left StatsModel.countSeverity l c in
    StatsModel.critical r
    = StatsModel.critical c
      + length (filter (fun s => JS.eqb s (str "critical")) l)
    /\ StatsModel.medium r
       = StatsModel.medium c
         + length (filter (fun s => JS.eqb s (str "medium")) l)
    /\ StatsModel.low r
       = StatsModel.low c
         + length (filter (fun s => JS.eqb s (str "low")) l).
Proof.
  induction l as [|s l IH]; intros c.
  - cbn. repeat split; lia.
  - cbv zeta. rewrite !length_filter_cons.
    change (fold_left StatsModel.countSeverity (s :: l) c)
      with (fold_left StatsModel.countSeverity l
              (StatsModel.countSeverity c s)).
    destruct (IH (StatsModel.countSeverity c s)) as (H1 & H2 & H3).
    destruct (countSeverity_spec c s) as (S1 & S2 & S3).
    rewrite H1, H2, H3, S1, S2, S3. repeat split; lia.
Qed.

Lemma fold_countType (l : list jsstring) :
  forall c,
    let r := fold_left StatsModel.countType l c in
    StatsModel.flex r
    = StatsModel.flex c + length (filter (fun t => JS.eqb t (str "flex")) l)
    /\ StatsModel.grid r
       = StatsModel.grid c
         + length (filter (fun t => JS.eqb t (str "grid")) l)
    /\ StatsModel.overflow r
       = StatsModel.overflow c
         + length (filter (fun t => JS.eqb t (str "overflow")) l)
    /\ StatsModel.other r
       = StatsModel.other c
         + length (filter (fun t => JS.eqb t (str "other")) l).
Proof.
  induction l as [|t l IH]; intros c.
  - cbn. repeat split; lia.
  - cbv zeta. rewrite !length_filter_cons.
    change (fold_left StatsModel.countType (t :: l) c)
      with (fold_left StatsModel.countType l (StatsModel.countType c t)).
    destruct (IH (StatsModel.countType c t)) as (H1 & H2 & H3 & H4).
    destruct (countType_spec c t) as (S1 & S2 & S3 & S4).
    rewrite H1, H2, H3, H4, S1, S2, S3, S4. repeat split; lia.
Qed.

Lemma filter_map_length {A B : Type} (f : A -> B) (p : B -> bool)
  (l : list A) :
  length (filter p (map f l)) = length (filter (fun x => p (f x)) l).
Proof.
  induction l as [|x l IH]; simpl; [reflexivity|].
  destruct (p (f x)); simpl; now rewrite IH.
Qed.

Section StatsFacts.

Variable toLowerCase : jsstring -> jsstring.

Variable classifier : option (option jsstring -> jsstring).

Lemma fold_countIssue (issues : list LintEngine.Located) :
  forall c t,
    fold_left (StatsModel.countIssue toLowerCase classifier) issues (c, t)
    = (fold_left StatsModel.countSeverity
         (map (StatsModel.severityOf toLowerCase) issues) c,
       fold_left StatsModel.countType
         (map (fun i =>
                 StatsModel.getType toLowerCase classifier
                   (LintEngine.issue (LintEngine.base i)))
            issues) t).
Proof.
  induction issues as [|i issues IH]; intros c t; [reflexivity|].
  simpl. unfold StatsModel.countIssue at 2. simpl. apply IH.
Qed.

Lemma itemsFrom_fields (issues : list LintEngine.Located) :
  forall index instances,
    let items :=
      StatsModel.itemsFrom toLowerCase classifier index instances issues in
    map StatsModel.title items
    = map (fun i => LintEngine.issue (LintEngine.base i)) issues
    /\ map StatsModel.idx items = seq index (length issues)
    /\ map StatsModel.sev items
       = map (StatsModel.severityOf toLowerCase) issues
    /\ map StatsModel.type items
       = map (fun i =>
                StatsModel.getType toLowerCase classifier
                  (LintEngine.issue (LintEngine.base i)))
           issues
    /\ map StatsModel.line items = map LintEngine.lineNumber issues.
Proof.
  induction issues as [|i issues IH]; intros index instances.
  - repeat split; reflexivity.
  - cbv zeta. simpl StatsModel.itemsFrom.
    destruct (StatsModel.visualize instances i) as [viz instances'].
    destruct (IH (S index) instances') as (H1 & H2 & H3 & H4 & H5).
    simpl. rewrite H1, H2, H3, H4, H5. repeat split; reflexivity.
Qed.

End StatsFacts.

(** X25.  In the model [buildStatsModel] returns, the items are the
    issues in their order, numbered from 0, and each counter equals the
    number of items that carry its name: [counts] against the [sev] field
    and [typeCounts] against the [type] field, whatever classifier is
    passed. *)
Theorem buildStatsModel_counts_match_items
  (toLowerCase : jsstring -> jsstring)
  (classifier : option (option jsstring -> jsstring))
  (issues : list LintEngine.Located) :
  let m := StatsModel.buildStatsModel toLowerCase classifier issues in
  let bySev (s : string) :=
    length (filter (fun it => JS.eqb (StatsModel.sev it) (str s))
              (StatsModel.items m)) in
  let byType (t : string) :=
    length (filter (fun it => JS.eqb (StatsModel.type it) (str t))
              (StatsModel.items m)) in
  map StatsModel.title (StatsModel.items m)
  = map (fun i => LintEngine.issue (LintEngine.base i)) issues
  /\ map StatsModel.idx (StatsModel.items m) = seq 0 (length issues)
  /\ map StatsModel.line (StatsModel.items m)
     = map LintEngine.lineNumber issues
  /\ StatsModel.critical (StatsModel.counts m) = bySev "critical"%string
  /\ StatsModel.medium (StatsModel.counts m) = bySev "medium"%string
  /\ StatsModel.low (StatsModel.counts m) = bySev "low"%string
  /\ StatsModel.flex (StatsModel.typeCounts m) = byType "flex"%string
  /\ StatsModel.grid (StatsModel.typeCounts m) = byType "grid"%string
  /\ StatsModel.overflow (StatsModel.typeCounts m) = byType "overflow"%string
  /\ StatsModel.other (StatsModel.typeCounts m) = byType "other"%string.
Proof.
  cbv zeta. unfold StatsModel.buildStatsModel.
  rewrite fold_countIssue.
  cbn [StatsModel.items StatsModel.counts StatsModel.typeCounts fst snd].
  destruct (itemsFrom_fields toLowerCase classifier issues 0 [])
    as (H1 & H2 & H3 & H4 & H5).
  destruct (fold_countSeverity
              (map (StatsModel.severityOf toLowerCase) issues)
              (StatsModel.mkCounts 0 0 0)) as (C1 & C2 & C3).
  destruct (fold_countType
              (map (fun i => StatsModel.getType toLowerCase classifier
                                (LintEngine.issue (LintEngine.base i)))
                 issues)
              (StatsModel.mkTypeCounts 0 0 0 0)) as (T1 & T2 & T3 & T4).
  rewrite C1, C2, C3, T1, T2, T3, T4. rewrite <- H3, <- H4.
  rewrite !filter_map_length.
  repeat split; try assumption; reflexivity.
Qed.

Lemma severities_partition (l : list jsstring) :
  length (filter (fun s => JS.eqb s (str "critical")) l)
  + length (filter (fun s => JS.eqb s (str "medium")) l)
  + length (filter (fun s => JS.eqb s (str "low")) l)
  = length (filter (fun s =>
              existsb (JS.eqb s) (map str ["critical"; "medium"; "low"]%string))
              l).
Proof.
  induction l as [|s l IH]; [reflexivity|].
  rewrite !length_filter_cons, <- IH.
  cbn [existsb map].
  destruct (JS.eqb s (str "critical")) eqn:E1.
  { apply eqb_eq in E1. subst s. cbn. lia. }
  destruct (JS.eqb s (str "medium")) eqn:E2.
  { apply eqb_eq in E2. subst s. cbn. lia. }
  destruct (JS.eqb s (str "low")); cbn; lia.
Qed.

Lemma types_partition (l : list jsstring) :
  Forall (fun t => In t (map str ["flex"; "grid"; "overflow"; "other"]%string))
    l ->
  length (filter (fun t => JS.eqb t (str "flex")) l)
  + length (filter (fun t => JS.eqb t (str "grid")) l)
  + length (filter (fun t => JS.eqb t (str "overflow")) l)
  + length (filter (fun t => JS.eqb t (str "other")) l)
  = length l.
Proof.
  induction 1 as [|t l Ht _ IH]; [reflexivity|].
  rewrite !length_filter_cons. cbn [length].
  set (a := length (filter (fun t => JS.eqb t (str "flex")) l)) in *.
  set (b := length (filter (fun t => JS.eqb t (str "grid")) l)) in *.
  set (c := length (filter (fun t => JS.eqb t (str "overflow")) l)) in *.
  set (d := length (filter (fun t => JS.eqb t (str "other")) l)) in *.
  destruct Ht as [<-|[<-|[<-|[<-|[]]]]]; cbn; lia.
Qed.

Lemma classifier_getType_four (toLowerCase : jsstring -> jsstring)
  (name : option jsstring) :
  In (IssueClassifier.getType toLowerCase name)
     (map str ["flex"; "grid"; "overflow"; "other"]%string).
Proof.
  unfold IssueClassifier.getType.
  destruct name as [name|]; [|cbn; tauto].
  destruct (negb (truthy name)); [cbn; tauto|].
  cbv zeta.
  destruct (_ || _); [cbn; tauto|].
  destruct (includes _ _); [cbn; tauto|].
  destruct (_ || _); cbn; tauto.
Qed.

Lemma getType_classifier (toLowerCase : jsstring -> jsstring)
  (name : jsstring) :
  toLowerCase [] = [] ->
  StatsModel.getType toLowerCase None name
  = IssueClassifier.getType toLowerCase (Some name).
Proof.
  intros Hempty.
  unfold StatsModel.getType, IssueClassifier.getType.
  destruct name as [|u name]; [|reflexivity].
  cbn [truthy negb]. rewrite Hempty. reflexivity.
Qed.

Lemma itemsFrom_classifier (toLowerCase : jsstring -> jsstring)
  (issues : list LintEngine.Located) :
  toLowerCase [] = [] ->
  forall index instances,
    StatsModel.itemsFrom toLowerCase None index instances issues
    = StatsModel.itemsFrom toLowerCase
        (Some (IssueClassifier.getType toLowerCase)) index instances issues.
Proof.
  intros Hempty.
  induction issues as [|i issues IH]; intros index instances; [reflexivity|].
  cbn [StatsModel.itemsFrom].
  destruct (StatsModel.visualize instances i) as [viz instances'].
  rewrite IH, (getType_classifier _ _ Hempty). reflexivity.
Qed.

(** X26.  The fallback classification inside [buildStatsModel] gives the
    same model as [IssueClassifier], the classifier the extension passes.
    With either, the four type counters add up to the number of issues.
    The three severity counters add up to the number of issues whose
    lower-cased severity is critical, medium or low, so an issue with
    another severity is listed but counted under no severity. *)
Theorem buildStatsModel_totals (toLowerCase : jsstring -> jsstring)
  (issues : list LintEngine.Located) :
  toLowerCase [] = [] ->
  let m :=
    StatsModel.buildStatsModel toLowerCase
      (Some (IssueClassifier.getType toLowerCase)) issues in
  StatsModel.buildStatsModel toLowerCase None issues = m
  /\ length (StatsModel.items m) = length issues
  /\ StatsModel.flex (StatsModel.typeCounts m)
     + StatsModel.grid (StatsModel.typeCounts m)
     + StatsModel.overflow (StatsModel.typeCounts m)
     + StatsModel.other (StatsModel.typeCounts m)
     = length issues
  /\ StatsModel.critical (StatsModel.counts m)
     + StatsModel.medium (StatsModel.counts m)
     + StatsModel.low (StatsModel.counts m)
     = length (filter (fun i =>
                 existsb
                   (JS.eqb (toLowerCase
                              (LintEngine.severity (LintEngine.base i))))
                   (map str ["critical"; "medium"; "low"]%string))
                 issues).
Proof.
  intros Hempty. cbv zeta.
  split; [|split; [|split]].
  - unfold StatsModel.buildStatsModel.
    rewrite !fold_countIssue, (itemsFrom_classifier _ _ Hempty).
    f_equal. cbn [fst snd]. f_equal.
    apply map_ext. intros i. apply (getType_classifier _ _ Hempty).
  - unfold StatsModel.buildStatsModel. cbn [StatsModel.items].
    destruct (itemsFrom_fields toLowerCase
                (Some (IssueClassifier.getType toLowerCase)) issues 0 [])
      as (H1 & _).
    apply (f_equal (@length _)) in H1. now rewrite !length_map in H1.
  - unfold StatsModel.buildStatsModel. rewrite fold_countIssue.
    cbn [StatsModel.typeCounts snd].
    match goal with
    | |- context [fold_left StatsModel.countType ?l ?c] =>
        destruct (fold_countType l c) as (T1 & T2 & T3 & T4);
        rewrite T1, T2, T3, T4;
        pose proof (types_partition l) as Hsum
    end.
    rewrite length_map in Hsum. cbn [StatsModel.flex StatsModel.grid
      StatsModel.overflow StatsModel.other].
    rewrite <- Hsum; [lia|].
    apply Forall_forall. intros t Ht. apply in_map_iff in Ht as (i & <- & _).
    apply classifier_getType_four.
  - unfold StatsModel.buildStatsModel. rewrite fold_countIssue.
    cbn [StatsModel.counts fst].
    match goal with
    | |- context [fold_left StatsModel.countSeverity ?l ?c] =>
        destruct (fold_countSeverity l c) as (C1 & C2 & C3);
        rewrite C1, C2, C3;
        pose proof (severities_partition l) as Hsum
    end.
    rewrite !filter_map_length in Hsum. rewrite !filter_map_length.
    cbn [StatsModel.critical StatsModel.medium StatsModel.low].
    unfold StatsModel.severityOf in *. rewrite <- Hsum. lia.
Qed.

Lemma buildStatsModel_totals_witness :
  let issues := [Scenario.importantIssue; lessIssue] in
  let m :=
    StatsModel.buildStatsModel Scenario.toLowerCaseAscii
      (Some (IssueClassifier.getType Scenario.toLowerCaseAscii)) issues in
  StatsModel.buildStatsModel Scenario.toLowerCaseAscii None issues = m
  /\ length (StatsModel.items m) = length issues
  /\ StatsModel.flex (StatsModel.typeCounts m)
     + StatsModel.grid (StatsModel.typeCounts m)
     + StatsModel.overflow (StatsModel.typeCounts m)
     + StatsModel.other (StatsModel.typeCounts m)
     = length issues
  /\ StatsModel.critical (StatsModel.counts m)
     + StatsModel.medium (StatsModel.counts m)
     + StatsModel.low (StatsModel.counts m)
     = length (filter (fun i =>
                 existsb
                   (JS.eqb (Scenario.toLowerCaseAscii
                              (LintEngine.severity (LintEngine.base i))))
                   (map str ["critical"; "medium"; "low"]%string))
                 issues).
Proof.
  apply (buildStatsModel_totals Scenario.toLowerCaseAscii
           [Scenario.importantIssue; lessIssue]).
  reflexivity.
Defined.

(** ** The two classifications of an issue *)

Lemma knownKinds_classified :
  forallb (fun k =>
      negb (Obj.inherited k)
      && JS.eqb
           (LintEngine.categoryOf
              (match Obj.get LintEngine.typeMap k with
               | Some type => type
               | None => str "fixed-dimensions"
               end))
           (IssueClassifier.getType Scenario.toLowerCaseAscii (Some k)))
    knownKinds = true.
Proof.
  vm_compute. reflexivity.
Qed.

(** X27.  For every issue the detectors report, the type under which the
    statistics panel files it, computed by [IssueClassifier.getType] from
    the name of the issue, is the category of the visualizer issue the
    engine makes of it, computed from the visualizer type. *)
Theorem panel_type_is_category (toLowerCase : jsstring -> jsstring)
  (config : LintEngine.Config) (rs : list Parser.Rule)
  (issues : list LintEngine.Issue) (located : LintEngine.Located)
  (v : Viz.Issue) :
  (forall k, In k knownKinds -> toLowerCase k = Scenario.toLowerCaseAscii k) ->
  LintEngine.runDetectors toLowerCase config rs = Ok issues ->
  In (LintEngine.base located) issues ->
  LintEngine.mapToVisualizerIssue located = Ok v ->
  Viz.category v
  = Some (IssueClassifier.getType toLowerCase
            (Some (LintEngine.issue (LintEngine.base located)))).
Proof.
  intros Hlower Hrun Hin Hmap.
  pose proof (runDetectors_wf toLowerCase config rs issues Hrun _ Hin) as Hwf.
  unfold wellFormedIssue in Hwf.
  apply andb_true_iff in Hwf as [Hwf _].
  apply andb_true_iff in Hwf as [Hkind _].
  apply existsb_eqb_in in Hkind.
  pose proof knownKinds_classified as Hall.
  rewrite forallb_forall in Hall. specialize (Hall _ Hkind).
  apply andb_true_iff in Hall as [Hplain Hsame].
  apply negb_true_iff in Hplain. apply eqb_eq in Hsame.
  unfold LintEngine.mapToVisualizerIssue in Hmap. rewrite Hplain in Hmap.
  set (type := match Obj.get LintEngine.typeMap _ with
               | Some type => type
               | None => str "fixed-dimensions"
               end) in *.
  assert (Hv : v = LintEngine.visualizerIssue located type) by congruence.
  subst v. unfold LintEngine.visualizerIssue. cbn [Viz.category].
  rewrite Hsame. f_equal.
  unfold IssueClassifier.getType. now rewrite (Hlower _ Hkind).
Qed.

Lemma panel_type_is_category_witness :
  Viz.category
    (LintEngine.visualizerIssue Scenario.importantIssue
       (str "fixed-dimensions"))
  = Some (IssueClassifier.getType Scenario.toLowerCaseAscii
            (Some (LintEngine.issue
                     (LintEngine.base Scenario.importantIssue)))).
Proof.
  apply (panel_type_is_category Scenario.toLowerCaseAscii
           LintEngine.defaultConfig
           (Parser.rules
              (Parser.parseRules Scenario.toLowerCaseAscii
                 Scenario.importantCss))
           [LintEngine.base Scenario.importantIssue]
           Scenario.importantIssue).
  - intros k _. reflexivity.
  - vm_compute. reflexivity.
  - left. reflexivity.
  - reflexivity.
Defined.

(** ** The diagrams of the statistics model *)

Lemma generate_loaded (instances : AsciiVisualizer.Instances)
  (issue : Viz.Issue) :
  loadedInstances instances ->
  fst (AsciiVisualizer.generate instances issue)
  = fst (AsciiVisualizer.generate [] issue)
  /\ loadedInstances (snd (AsciiVisualizer.generate instances issue)).
Proof.
  intros Hinv. unfold AsciiVisualizer.generate, Obj.has.
  destruct (AsciiVisualizer.isValidIssue issue); cbn [negb];
    [|split; [reflexivity|exact Hinv]].
  cbn [Obj.get].
  set (type := Viz.show (Viz.type issue)).
  destruct (Obj.get instances type) as [g|] eqn:Hg.
  - destruct (Hinv _ _ Hg) as (gen & Hf & ->).
    rewrite Hf. cbn [AsciiVisualizer.instantiate bind].
    rewrite Hg, get_set_same. cbn [fst snd].
    split; [reflexivity|exact Hinv].
  - destruct (AsciiVisualizer.factory type) as [[gen|e]|] eqn:Hf;
      cbn [AsciiVisualizer.instantiate bind].
    + rewrite !get_set_same. cbn [fst snd].
      split; [reflexivity|].
      intros type' g'. rewrite get_set.
      destruct (JS.eqb type' type) eqn:E.
      * apply eqb_eq in E. subst type'. intros H. inversion H.
        exists gen. split; [exact Hf|reflexivity].
      * apply Hinv.
    + cbn [fst snd]. split; [reflexivity|exact Hinv].
    + rewrite Hg. cbn [Obj.get fst snd]. split; [reflexivity|exact Hinv].
Qed.

Lemma visualize_loaded (instances : AsciiVisualizer.Instances)
  (i : LintEngine.Located) :
  loadedInstances instances ->
  fst (StatsModel.visualize instances i) = StatsModel.visualizationOf [] i
  /\ loadedInstances (snd (StatsModel.visualize instances i)).
Proof.
  intros Hinv. unfold StatsModel.visualize, StatsModel.visualizationOf.
  destruct (StatsModel.mapToVisualizerIssue i) as [[v|]|e];
    try (split; [reflexivity|exact Hinv]).
  destruct (generate_loaded instances v Hinv) as [Hfst Hsnd].
  destruct (AsciiVisualizer.generate instances v) as [outcome instances'].
  cbn [fst snd] in *. rewrite <- Hfst. split; [reflexivity|exact Hsnd].
Qed.

Lemma itemsFrom_visualizations (toLowerCase : jsstring -> jsstring)
  (classifier : option (option jsstring -> jsstring))
  (issues : list LintEngine.Located) :
  forall index instances,
    loadedInstances instances ->
    map StatsModel.visualization
      (StatsModel.itemsFrom toLowerCase classifier index instances issues)
    = map (StatsModel.visualizationOf []) issues.
Proof.
  induction issues as [|i issues IH]; intros index instances Hinv;
    [reflexivity|].
  cbn [StatsModel.itemsFrom].
  destruct (visualize_loaded instances i Hinv) as [Hfst Hsnd].
  destruct (StatsModel.visualize instances i) as [viz instances'].
  cbn [fst snd] in *.
  cbn [map StatsModel.visualization]. rewrite Hfst. f_equal.
  now apply IH.
Qed.

Lemma visualizerIssue_generate (located : LintEngine.Located)
  (type : jsstring) (m : AsciiVisualizer.Module_) :
  truthy type = true ->
  AsciiVisualizer.factory type = Some m ->
  fst (AsciiVisualizer.generate [] (LintEngine.visualizerIssue located type))
  = match m with
    | AsciiVisualizer.Class gen =>
        Ok (gen (LintEngine.visualizerIssue located type))
    | AsciiVisualizer.Malformed e => Throw e
    end.
Proof.
  intros Htype Hm.
  assert (Hvalid : AsciiVisualizer.isValidIssue
                     (LintEngine.visualizerIssue located type) = true).
  { unfold AsciiVisualizer.isValidIssue, LintEngine.visualizerIssue.
    cbn [Viz.type Viz.severity Viz.line Viz.selector Viz.property Viz.value
         truthyOpt Re.isSome].
    rewrite Htype, !orDefault_truthy by reflexivity.
    unfold LintEngine.orElse.
    destruct (truthy (LintEngine.severity (LintEngine.base located))) eqn:E;
      [rewrite E|]; reflexivity. }
  unfold AsciiVisualizer.generate. rewrite Hvalid.
  cbn [negb Obj.has Obj.get LintEngine.visualizerIssue Viz.type Viz.show].
  rewrite Hm. destruct m as [gen|e]; cbn [AsciiVisualizer.instantiate bind].
  - cbn [Obj.set Obj.get]. now rewrite eqb_refl.
  - reflexivity.
Qed.

Lemma visualizationOf_spec (i : LintEngine.Located) (diagram : jsstring) :
  StatsModel.visualizationOf [] i = Some diagram
  <-> exists type gen,
        Obj.get LintEngine.typeMap (LintEngine.issue (LintEngine.base i))
        = Some type
        /\ AsciiVisualizer.factory type = Some (AsciiVisualizer.Class gen)
        /\ diagram = Viz.ascii (gen (LintEngine.visualizerIssue i type)).
Proof.
  unfold StatsModel.visualizationOf, StatsModel.mapToVisualizerIssue.
  rewrite stats_typeMap_get.
  destruct (Obj.get LintEngine.typeMap _) as [type|] eqn:Hget.
  - pose proof (typeMap_supported (LintEngine.issue (LintEngine.base i)))
      as Hs.
    cbv zeta in Hs. rewrite Hget in Hs. destruct Hs as [Htype [m Hm]].
    assert (Hplain : Obj.inherited (LintEngine.issue (LintEngine.base i))
                     = false).
    { pose proof knownKinds_classified as Hall.
      rewrite forallb_forall in Hall.
      assert (Hin : In (LintEngine.issue (LintEngine.base i)) knownKinds).
      { unfold knownKinds. apply in_or_app. left.
        destruct (in_dec (list_eq_dec N.eq_dec)
                    (LintEngine.issue (LintEngine.base i))
                    (map fst LintEngine.typeMap)) as [Hin|Hout];
          [exact Hin|].
        apply get_none_keys in Hout. congruence. }
      specialize (Hall _ Hin). apply andb_true_iff in Hall as [Hp _].
      now apply negb_true_iff in Hp. }
    rewrite Hplain, Htype, (visualizerIssue_generate i type m Htype Hm).
    destruct m as [gen|e].
    + split.
      * intros H. inversion H. exists type, gen. auto.
      * intros (type' & gen' & Ht & Hf & ->).
        inversion Ht; subst type'. rewrite Hm in Hf. inversion Hf.
        reflexivity.
    + split; [discriminate|].
      intros (type' & gen' & Ht & Hf & _).
      inversion Ht; subst type'. rewrite Hm in Hf. discriminate.
  - destruct (Obj.inherited _); [|destruct (JS.eqb _ _)];
      (split; [discriminate|intros (type & gen & Ht & _); discriminate]).
Qed.

Lemma kinds_without_diagram :
  forallb (fun k =>
      Bool.eqb
        (match Obj.get LintEngine.typeMap k with
         | Some type =>
             match AsciiVisualizer.factory type with
             | Some (AsciiVisualizer.Class _) => true
             | _ => false
             end
         | None => false
         end)
        (negb (existsb (JS.eqb k)
                 (map str ["Viewport width overflow";
                           "Horizontal overflow risk";
                           "Cumulative horizontal overflow";
                           "Fixed pixel spacing";
                           "Layout property with !important"]%string))))
    knownKinds = true.
Proof.
  vm_compute. reflexivity.
Qed.

(** X28.  The visualizer that [buildStatsModel] shares between the items
    changes no diagram: every item carries the diagram a new visualizer
    gives for its issue, or none.  An issue gets a diagram exactly when
    its kind is a key of the table and the module of the generator class
    of its type loads; the diagram is the one of that class.  Among the
    nineteen kinds the detectors report, the kinds without a diagram are
    the five given. *)
Theorem buildStatsModel_diagrams (toLowerCase : jsstring -> jsstring)
  (classifier : option (option jsstring -> jsstring))
  (issues : list LintEngine.Located) :
  map StatsModel.visualization
    (StatsModel.items
       (StatsModel.buildStatsModel toLowerCase classifier issues))
  = map (StatsModel.visualizationOf []) issues
  /\ (forall i diagram,
        StatsModel.visualizationOf [] i = Some diagram
        <-> exists type gen,
              Obj.get LintEngine.typeMap
                (LintEngine.issue (LintEngine.base i)) = Some type
              /\ AsciiVisualizer.factory type
                 = Some (AsciiVisualizer.Class gen)
              /\ diagram
                 = Viz.ascii (gen (LintEngine.visualizerIssue i type)))
  /\ (forall i,
        In (LintEngine.issue (LintEngine.base i)) knownKinds ->
        (StatsModel.visualizationOf [] i = None
         <-> In (LintEngine.issue (LintEngine.base i))
               (map str ["Viewport width overflow";
                         "Horizontal overflow risk";
                         "Cumulative horizontal overflow";
                         "Fixed pixel spacing";
                         "Layout property with !important"]%string))).
Proof.
  split; [|split].
  - unfold StatsModel.buildStatsModel. cbn [StatsModel.items].
    apply itemsFrom_visualizations. intros type g H. discriminate.
  - exact visualizationOf_spec.
  - intros i Hin.
    pose proof kinds_without_diagram as Hall.
    rewrite forallb_forall in Hall. specialize (Hall _ Hin).
    apply Bool.eqb_prop in Hall.
    destruct (StatsModel.visualizationOf [] i) as [diagram|] eqn:Hviz.
    + apply visualizationOf_spec in Hviz as (type & gen & Ht & Hf & _).
      rewrite Ht, Hf in Hall. symmetry in Hall.
      apply negb_true_iff in Hall.
      split; [discriminate|].
      intros Hfive. exfalso.
      assert (Hex : existsb (JS.eqb (LintEngine.issue (LintEngine.base i)))
                      (map str ["Viewport width overflow";
                                "Horizontal overflow risk";
                                "Cumulative horizontal overflow";
                                "Fixed pixel spacing";
                                "Layout property with !important"]%string)
                    = true).
      { apply existsb_exists. eexists. split; [exact Hfive|apply eqb_refl]. }
      congruence.
    + split; [|reflexivity]. intros _.
      apply existsb_eqb_in.
      destruct (existsb _ _) eqn:Hex; [reflexivity|].
      cbn [negb] in Hall. exfalso.
      destruct (Obj.get LintEngine.typeMap _) as [type|] eqn:Ht;
        [|discriminate].
      destruct (AsciiVisualizer.factory type) as [[gen|e]|] eqn:Hf;
        try discriminate.
      assert (Hsome : StatsModel.visualizationOf [] i
                      = Some (Viz.ascii
                                (gen (LintEngine.visualizerIssue i type)))).
      { apply visualizationOf_spec. exists type, gen. auto. }
      congruence.
Qed.

(** ** The sign of a parsed value *)

Lemma ofRational_sign (p d : N) :
  match Num.ofRational p d with
  | Num.Finite q => (0 <= q)%Q
  | Num.PosInf => True
  | _ => False
  end.
Proof.
  unfold Num.ofRational.
  destruct ((p =? 0) || (d =? 0))%N; [apply Qle_refl|].
  cbv zeta.
  destruct (0 <=? Z.max (Num.floorLog2 p d - 52) (-1074))%Z.
  - destruct (N.shiftl 1 1024 <=? _)%N; [exact I|].
    unfold Qle. simpl. lia.
  - rewrite Qred_correct. unfold Qle. simpl. lia.
Qed.

Lemma parseFloat_sign (ds : jsstring) (fs : option jsstring) :
  match Num.parseFloat ds fs with
  | Num.Finite q => (0 <= q)%Q
  | Num.PosInf => True
  | _ => False
  end.
Proof.
  unfold Num.parseFloat. destruct fs; apply ofRational_sign.
Qed.

Lemma percentOf_sign (x : Num.number) (k : Q) :
  match x with
  | Num.Finite q => (0 <= q)%Q
  | Num.PosInf => True
  | _ => False
  end ->
  match LayoutCalculator.percentOf x k with
  | Num.Finite q => (0 <= q)%Q
  | Num.PosInf => True
  | _ => False
  end.
Proof.
  unfold LayoutCalculator.percentOf, Num.roundQ.
  destruct x as [q| | |]; try tauto. intros _.
  pose proof (ofRational_sign (Z.to_N (Qnum (q / 100))) (N.pos (Qden (q / 100))))
    as H.
  destruct (Num.ofRational _ _) as [h| | |]; try tauto.
  apply ofRational_sign.
Qed.

(** X29.  [parseValue] returns [null], a number that is not negative, or
    [Infinity]: never [NaN] and never a negative number.  So the value a
    generator computes with, [parseValue(v) || d] for a positive default
    [d], is positive or [Infinity] whatever the text [v]. *)
Theorem parseValue_sign (value : option jsstring) (d : Q) :
  (0 < d)%Q ->
  match LayoutCalculator.parseValue value with
  | Some (Num.Finite q) => (0 <= q)%Q
  | Some Num.PosInf => True
  | Some _ => False
  | None => True
  end
  /\ match LayoutCalculator.parseValueOr value d with
     | Num.Finite q => (0 < q)%Q
     | Num.PosInf => True
     | _ => False
     end.
Proof.
  intros Hd.
  assert (Hsign :
    match LayoutCalculator.parseValue value with
    | Some (Num.Finite q) => (0 <= q)%Q
    | Some Num.PosInf => True
    | Some _ => False
    | None => True
    end).
  { unfold LayoutCalculator.parseValue.
    destruct value as [v|]; [|exact I].
    destruct (negb (truthy v)); [exact I|].
    destruct (LayoutCalculator.numberWith (str "px") v) as [[ds fs]|].
    { pose proof (parseFloat_sign ds fs) as H.
      destruct (Num.parseFloat ds fs); tauto. }
    destruct (LayoutCalculator.numberWith (str "vw") v) as [[ds fs]|].
    { pose proof (percentOf_sign _ 1920 (parseFloat_sign ds fs)) as H.
      destruct (LayoutCalculator.percentOf _ _); tauto. }
    destruct (LayoutCalculator.numberWith (str "%") v) as [[ds fs]|];
      [|exact I].
    pose proof (percentOf_sign _ 1200 (parseFloat_sign ds fs)) as H.
    destruct (LayoutCalculator.percentOf _ _); tauto. }
  split; [exact Hsign|].
  unfold LayoutCalculator.parseValueOr.
  destruct (LayoutCalculator.parseValue value) as [[q| | |]|];
    try tauto; try exact Hd.
  destruct (Qeq_bool q 0) eqn:E; [exact Hd|].
  apply Qeq_bool_neq in E.
  destruct (Qle_lt_or_eq _ _ Hsign) as [Hlt|Heq]; [exact Hlt|].
  exfalso. apply E. now symmetry.
Qed.

Lemma parseValue_sign_witness :
  match LayoutCalculator.parseValue (Some (str "50vw")) with
  | Some (Num.Finite q) => (0 <= q)%Q
  | Some Num.PosInf => True
  | Some _ => False
  | None => True
  end
  /\ match LayoutCalculator.parseValueOr (Some (str "50vw")) 600 with
     | Num.Finite q => (0 < q)%Q
     | Num.PosInf => True
     | _ => False
     end.
Proof.
  apply (parseValue_sign (Some (str "50vw")) 600). reflexivity.
Defined.

(** ** Style sheets with media blocks, and what is left open *)

Lemma space_not_special (c : N) :
  isSpace c = true -> c <> 64%N /\ c <> 123%N /\ c <> 125%N.
Proof.
  intros H. repeat split; intros ->; vm_compute in H; discriminate.
Qed.































(** ** The digits of a line number *)






(** ** What a diagram holds of its issue, on any visualizer *)


